(** * Cable sizing engine of [cable_calc_gui.py]

    A shallow embedding of the calculation core of [CableCalcApp]: the
    reference-table lookups, the line impedance and voltage-drop formulas,
    the backward chain walk over the segment table, the protection verdict,
    the optimal-parameter search, the recommendations and the refresh of
    the result panel.

    Conventions of the embedding.
    - A Python [float] is a real number ([R]); rounding, overflow, infinities
      and NaN are outside the model.  An [int] is a [Z], converted with [IZR]
      where the source mixes it with floats.
    - [float | None] is [option R].
    - A call that may raise lives in the monad [py]: [Return v] is a normal
      return, [Raise e] an uncaught exception.
    - A [dict] with [str] or [int] keys is a [gmap]; the float-keyed ampacity
      table is an association list read with first-match lookup, whose keys
      are taken without repetition, as a [dict] has them.
    - The built-ins [float(str)] and [int(str)] are parameters of the
      development ([float_of_str], [int_of_str]): [None] stands for the
      [ValueError] the source catches. *)

From Stdlib Require Import Reals Lra Lia ZArith.
From stdpp Require Import base option list sorting gmap strings.

Open Scope R_scope.

(** ** Python values and exceptions *)

Module Py.

Inductive exn : Type :=
| ZeroDivisionError
| ValueError
| KeyError.

Inductive py (A : Type) : Type :=
| Return (a : A)
| Raise (e : exn).
Arguments Return {A} a.
Arguments Raise {A} e.

#[global] Instance py_ret : MRet py := fun A a => Return a.
#[global] Instance py_bind : MBind py := fun A B f m =>
  match m with
  | Return a => f a
  | Raise e => Raise e
  end.

(** [returns m]: the call completes without raising. *)
Definition returns {A} (m : py A) : Prop := ∃ a, m = Return a.

#[global] Instance Rle_decision : RelDecision Rle := Rle_dec.
#[global] Instance Rlt_decision : RelDecision Rlt := Rlt_dec.
#[global] Instance Rge_decision : RelDecision Rge := Rge_dec.
#[global] Instance Rgt_decision : RelDecision Rgt := Rgt_dec.
#[global] Instance Req_decision : EqDecision R := Req_dec_T.

(** [x / y] on floats. *)
Definition truediv (x y : R) : py R :=
  if decide (y = 0) then Raise ZeroDivisionError else Return (x / y).

(** [math.sqrt]. *)
Definition math_sqrt (x : R) : py R :=
  if decide (x < 0) then Raise ValueError else Return (sqrt x).

(** [math.isclose(a, b, rel_tol=..., abs_tol=...)], as CPython computes it for
    finite arguments. *)
Definition isclose (a b rel_tol abs_tol : R) : bool :=
  bool_decide (a = b)
  || bool_decide (Rabs (b - a) <= Rabs (rel_tol * b))
  || bool_decide (Rabs (b - a) <= Rabs (rel_tol * a))
  || bool_decide (Rabs (b - a) <= abs_tol).

(** [d[k]] on a [dict]. *)
Definition getitem `{Countable K} {V} (d : gmap K V) (k : K) : py V :=
  match d !! k with
  | Some v => Return v
  | None => Raise KeyError
  end.

(** [max(d)] over the keys of an int-keyed [dict]. *)
Definition max_key {V} (d : gmap Z V) : py Z :=
  match (map_to_list d).*1 with
  | [] => Raise ValueError
  | k :: ks => Return (foldl Z.max k ks)
  end.

(** [sorted(d)] over the keys of an int-keyed [dict]. *)
Definition sorted_keys {V} (d : gmap Z V) : list Z :=
  merge_sort Z.le (map_to_list d).*1.

(** The float-keyed [dict]: pairs in insertion order, first match wins. *)
Definition float_dict : Type := list (R * R).

Fixpoint fd_get (d : float_dict) (k : R) : option R :=
  match d with
  | [] => None
  | (k', v) :: d' => if decide (k' = k) then Some v else fd_get d' k
  end.

Definition fd_getitem (d : float_dict) (k : R) : py R :=
  match fd_get d k with
  | Some v => Return v
  | None => Raise KeyError
  end.

(** [sorted(d)] over the keys of a float-keyed [dict]. *)
Definition fd_sorted (d : float_dict) : list R :=
  merge_sort Rle (remove_dups d.*1).

End Py.
Export Py.

(** ** Reference tables and application state *)

Record insulation_meta : Type := {
  meta_key : string;
  meta_theta : R
}.

(** [REACTANCE_DATA]: each of the three entries may be absent. *)
Record reactance_data : Type := {
  rd_buckets : option (gmap string (gmap string R));
  rd_method_defaults : option (gmap string R);
  rd_default : option R
}.

(** Truthiness of the [REACTANCE_DATA] dict: it holds at least one entry. *)
Definition rd_nonempty (rd : reactance_data) : bool :=
  bool_decide (is_Some (rd_buckets rd))
  || bool_decide (is_Some (rd_method_defaults rd))
  || bool_decide (is_Some (rd_default rd)).

Record CableCalcApp : Type := {
  INSULATION_META : gmap string insulation_meta;
  STANDARD_SECTIONS : list R;
  STANDARD_BREAKER_RATINGS : list string;
  DROP_LIMIT_KEYS : gmap string R;
  RESISTIVITY_20 : gmap string R;
  TEMP_COEFF : gmap string R;
  AMPACITY_BASE : gmap string float_dict;
  AMPACITY_INSULATION_FACTORS : gmap string (gmap string (gmap string R));
  AMPACITY_LOADED_FACTORS : gmap string (gmap Z R);
  GROUPING_FACTORS : gmap Z R;
  KT_V_TABLE : gmap string (gmap Z R);
  KT_Z_TABLE : gmap string (gmap Z R);
  REACTANCE_DATA : reactance_data;
  _form_values : gmap string string;
  _table_data : list (gmap string string);
  _medium_selected_key : string
}.

(** ** Grouping factor *)

Definition _lookup_group_factor (self : CableCalcApp) (circuits : Z) : py R :=
  if decide (circuits ≤ 1)%Z then Return 1
  else
    max_defined ← max_key (GROUPING_FACTORS self);
    if decide (circuits >= max_defined)%Z then
      getitem (GROUPING_FACTORS self) max_defined
    else
      fallback ← getitem (GROUPING_FACTORS self) max_defined;
      Return (default fallback (GROUPING_FACTORS self !! circuits)).

(** [max(1, circuits_count + n_parallel - 1) if n_parallel > 1 else circuits_count] *)
Definition effective_circuits (circuits_count n_parallel : Z) : Z :=
  if decide (n_parallel > 1)%Z then Z.max 1 (circuits_count + n_parallel - 1)
  else circuits_count.

Definition group_factor (self : CableCalcApp) (circuits_count n_parallel : Z) : py R :=
  _lookup_group_factor self (effective_circuits circuits_count n_parallel).

(** ** Ampacity *)

(** The [for lower, upper in zip(...)] loop of [_lookup_ampacity]; [None] is
    the loop's [else] branch, taken when no pair ends it. *)
Fixpoint ampacity_scan (base_table : float_dict) (area : R)
    (pairs : list (R * R)) : py (option R) :=
  match pairs with
  | [] => Return None
  | (lower, upper) :: rest =>
    if isclose area lower 1e-6 1e-3 then
      base_value ← fd_getitem base_table lower;
      Return (Some base_value)
    else if decide (lower <= area ∧ area <= upper) then
      lower_val ← fd_getitem base_table lower;
      upper_val ← fd_getitem base_table upper;
      if isclose upper lower 1e-9 0 then Return (Some lower_val)
      else
        ratio ← truediv (area - lower) (upper - lower);
        Return (Some (lower_val + ratio * (upper_val - lower_val)))
    else ampacity_scan base_table area rest
  end.

(** [base_value] of [_lookup_ampacity]: the table value before the
    insulation and loaded-core multipliers are applied. *)
Definition ampacity_base_value (base_table : float_dict) (area : R) : py (option R) :=
  let standard_sections := fd_sorted base_table in
  match head standard_sections, last standard_sections with
  | Some first, Some final =>
    if decide (area <= first) then
      base_value ← fd_getitem base_table first; Return (Some base_value)
    else if decide (area >= final) then
      base_value ← fd_getitem base_table final; Return (Some base_value)
    else ampacity_scan base_table area (zip standard_sections (tail standard_sections))
  | _, _ => Return None
  end.

Definition _lookup_ampacity (self : CableCalcApp) (insulation_key conductor laying : string)
    (area : R) (loaded_cores : Z) : py (option R) :=
  match AMPACITY_BASE self !! laying with
  | None | Some [] => Return None
  | Some base_table =>
    let insulation_factors :=
      default ∅ (AMPACITY_INSULATION_FACTORS self !! insulation_key) !! conductor in
    let load_factors := AMPACITY_LOADED_FACTORS self !! laying in
    match insulation_factors, load_factors with
    | Some insulation_factors, Some load_factors =>
      match insulation_factors !! laying, load_factors !! loaded_cores with
      | Some multiplier, Some load_multiplier =>
        base ← ampacity_base_value base_table area;
        match base with
        | Some base_value => Return (Some (base_value * multiplier * load_multiplier))
        | None => Return None
        end
      | _, _ => Return None
      end
    | _, _ => Return None
    end
  end.

(** ** Temperature factor *)

(** [temperature in table] and [table[temperature]] for a float looked up in
    an int-keyed [dict]: a float equals (and hashes as) the int of the same
    value. *)
Definition float_lookup (table : gmap Z R) (temperature : R) : option R :=
  if decide (IZR (Zfloor temperature) = temperature) then table !! Zfloor temperature
  else None.

Fixpoint temperature_scan (table : gmap Z R) (temperature : R)
    (pairs : list (Z * Z)) : py (option R) :=
  match pairs with
  | [] => Return None
  | (lower, upper) :: rest =>
    if decide (IZR lower <= temperature ∧ temperature <= IZR upper) then
      lower_val ← getitem table lower;
      upper_val ← getitem table upper;
      if isclose (IZR upper) (IZR lower) 1e-9 0 then Return (Some lower_val)
      else
        ratio ← truediv (temperature - IZR lower) (IZR upper - IZR lower);
        Return (Some (lower_val + ratio * (upper_val - lower_val)))
    else temperature_scan table temperature rest
  end.

(** The part of [_lookup_temperature_factor] after the table is selected. *)
Definition temperature_factor_in (table : gmap Z R) (temperature : R) : py (option R) :=
  let points := sorted_keys table in
  match head points, last points with
  | Some first, Some final =>
    if decide (temperature < IZR first ∨ temperature > IZR final) then Return None
    else
      match float_lookup table temperature with
      | Some value => Return (Some value)
      | None => temperature_scan table temperature (zip points (tail points))
      end
  | _, _ => Return None
  end.

(** The [table] selected at the head of [_lookup_temperature_factor]. *)
Definition temperature_table (self : CableCalcApp) (insulation_key medium : string)
    : option (gmap Z R) :=
  if decide (medium = "soil") then KT_Z_TABLE self !! insulation_key
  else KT_V_TABLE self !! insulation_key.

Definition _lookup_temperature_factor (self : CableCalcApp) (insulation_key medium : string)
    (temperature : R) : py (option R) :=
  match temperature_table self insulation_key medium with
  | None => Return None
  | Some table =>
    if decide (table = ∅) then Return None
    else temperature_factor_in table temperature
  end.

(** ** Line impedance and voltage drop *)

(** The area bucket of the reactance table. *)
Definition reactance_bucket (area : R) : string :=
  if decide (area > 240) then ">240"
  else if decide (area > 95) then "≤240"
  else "≤95".

Definition _calculate_line_impedance (self : CableCalcApp) (conductor : string)
    (insulation_temp area : R) (laying : string) : py (R * R) :=
  let rd := REACTANCE_DATA self in
  match RESISTIVITY_20 self !! conductor, TEMP_COEFF self !! conductor with
  | Some rho_20, Some alpha =>
    let rho_theta := rho_20 * (1 + alpha * (insulation_temp - 20)) in
    r_per_km ←
      (if decide (area <= 0) then Return 0
       else q ← truediv rho_theta area; Return (q * 1000));
    let bucket := reactance_bucket area in
    let x_per_km :=
      if rd_nonempty rd then
        let buckets := default ∅ (rd_buckets rd) in
        let method_defaults := default ∅ (rd_method_defaults rd) in
        match default ∅ (buckets !! laying) !! bucket with
        | Some x => Some x
        | None =>
          match method_defaults !! laying with
          | Some x => Some x
          | None => rd_default rd
          end
        end
      else None in
    Return (r_per_km, default (default 0.08 (rd_default rd)) x_per_km)
  | _, _ =>
    let default_x := if rd_nonempty rd then default 0.08 (rd_default rd) else 0.08 in
    Return (0, default_x)
  end.

(** [2.0 if loaded_cores == 2 else math.sqrt(3)] *)
Definition phase_factor (loaded_cores : Z) : py R :=
  if decide (loaded_cores = 2%Z) then Return 2 else math_sqrt 3.

Definition _drop_pct (self : CableCalcApp) (U cos_phi L_m : R) (conductor : string)
    (insulation_theta area_mm2 : R) (method : string) (loaded_cores n_parallel : Z)
    (icalc_total : R) : py R :=
  '(r_km, x_km) ← _calculate_line_impedance self conductor insulation_theta area_mm2 method;
  let divider := IZR (Z.max n_parallel 1) in
  r_m ← truediv (r_km / 1000) divider;
  x_m ← truediv (x_km / 1000) divider;
  sin_phi ← math_sqrt (Rmax 0 (1 - Rmin 1 cos_phi ^ 2));
  phase ← phase_factor loaded_cores;
  if decide (U = 0) then Return 0
  else
    q ← truediv (phase * icalc_total * (r_m * cos_phi + x_m * sin_phi) * L_m * 100) U;
    Return q.

(** ** Strings and parsing *)

(** The built-in conversions [float(s)] and [int(s)] on a [str]; [None] is the
    [ValueError] of a text that is not a number. *)
Class Builtins : Type := {
  float_of_str : string → option R;
  int_of_str : string → option Z
}.

(** ASCII white space, as [str.isspace] has it. *)
Definition is_space (a : Ascii.ascii) : bool :=
  let n := Ascii.N_of_ascii a in
  ((9 <=? n)%N && (n <=? 13)%N) || ((28 <=? n)%N && (n <=? 32)%N).

Fixpoint lstrip (s : string) : string :=
  match s with
  | EmptyString => EmptyString
  | String a s' => if is_space a then lstrip s' else s
  end.

Fixpoint rstrip (s : string) : string :=
  match s with
  | EmptyString => EmptyString
  | String a s' =>
    match rstrip s' with
    | EmptyString => if is_space a then EmptyString else String a EmptyString
    | r => String a r
    end
  end.

(** [s.strip()] *)
Definition strip (s : string) : string := rstrip (lstrip s).

Definition comma : Ascii.ascii := Ascii.ascii_of_nat 44.
Definition full_stop : Ascii.ascii := Ascii.ascii_of_nat 46.

(** [s.replace(",", ".")] *)
Fixpoint replace_comma (s : string) : string :=
  match s with
  | EmptyString => EmptyString
  | String a s' =>
    String (if Ascii.eqb a comma then full_stop else a) (replace_comma s')
  end.

Definition _try_parse_float `{Builtins} (value : string) : option R :=
  let value := replace_comma (strip value) in
  if decide (value = "") then None else float_of_str value.

(** ** Chain accumulator *)

(** [row.get(key, dflt)] on a table row or on the form. *)
Definition get_str (row : gmap string string) (key dflt : string) : string :=
  default dflt (row !! key).

Section ChainWalk.
Context `{Builtins} (self : CableCalcApp).
Context (circuit form_od form_do form_l_norm form_area_norm : string).

(** One pass of the inner [for row in self._table_data] loop over a row:
    [true] when the row is taken as [found]. *)
Definition chain_row_found (current : string) (row : gmap string string) : bool :=
  if decide (strip (get_str row "Strujni krug" "") ≠ circuit) then false
  else
    let row_do := strip (get_str row "DO" "") in
    if decide (row_do ≠ current) then false
    else
      let row_od := strip (get_str row "OD" "") in
      let row_l := strip (replace_comma (get_str row "L" "")) in
      let row_area := strip (replace_comma (get_str row "Presek" "")) in
      if decide (form_od = row_od ∧ form_do = row_do
                 ∧ form_l_norm = row_l ∧ form_area_norm = row_area)
      then false
      else true.

(** The [while current and current not in visited] loop; [fuel] bounds the
    number of iterations, [None] means the bound was reached. *)
Fixpoint chain_walk (fuel : nat) (visited : gset string) (current : string)
    (total : R) : option R :=
  match fuel with
  | O => None
  | S fuel' =>
    if decide (current ≠ "" ∧ current ∉ visited) then
      match List.find (chain_row_found current) (_table_data self) with
      | Some found =>
        if decide (found = ∅) then Some total
        else
          let total' :=
            match float_of_str (replace_comma (get_str found "ΔU %" "0")) with
            | Some drop => total + drop
            | None => total
            end in
          chain_walk fuel' ({[current]} ∪ visited) (strip (get_str found "OD" "")) total'
      | None => Some total
      end
    else Some total
  end.
End ChainWalk.

Definition _sum_drop_chain_ending_at `{Builtins} (self : CableCalcApp)
    (circuit form_od : string) : option R :=
  if decide (circuit = "" ∨ form_od = "") then Some 0
  else
    let form := _form_values self in
    let form_do := from_option strip "" (form !! "Deonica DO") in
    let form_l_norm :=
      from_option (λ s, replace_comma (strip s)) "" (form !! "Dužina L, m") in
    let form_area_norm :=
      from_option (λ s, replace_comma (strip s)) "" (form !! "Presek, mm²") in
    chain_walk self circuit form_od form_do form_l_norm form_area_norm
      (S (length (_table_data self))) ∅ (strip form_od) 0.

(** ** Protection verdict *)

(** The status texts ["OK"], ["NE"], ["N/A"] and ["—"]. *)
Inductive status : Type := OK | NE | NA | Dash.

#[global] Instance status_eq_dec : EqDecision status.
Proof. solve_decision. Defined.

(** [self._form_values[name].get()]; the form built by [_build_form] holds
    every field, an untouched one as the empty text. *)
Definition form_value (self : CableCalcApp) (name : string) : string :=
  get_str (_form_values self) name "".

Record protection_result : Type := {
  protection_status : status;
  protection_alert : bool;
  i2_value : option R
}.

(** [value is not None and value <= 0] *)
Definition not_positive (value : option R) : bool :=
  match value with
  | Some x => bool_decide (x <= 0)
  | None => false
  end.

(** The protection block of [_update_intermediate_results], from the parsed
    texts of the fields ["In, A"] and ["k"] on. *)
Definition protection_check (iz_one icalc_total : option R) (n_parallel : Z)
    (in_value k_value : option R) : protection_result :=
  let in_alert := not_positive in_value in
  let in_value := if in_alert then None else in_value in
  let k_alert := not_positive k_value in
  let k_value := if k_alert then None else k_value in
  let i2_value :=
    match in_value, k_value with
    | Some i, Some k => Some (i * k)
    | _, _ => None
    end in
  match iz_one, icalc_total, in_value, i2_value with
  | Some iz_one, Some icalc_total, Some in_value, Some i2 =>
    let iz_total := iz_one * IZR n_parallel in
    let within_nominal := bool_decide (icalc_total <= in_value ∧ in_value <= iz_total) in
    let overload_check := bool_decide (i2 <= 1.45 * iz_total) in
    if within_nominal && overload_check
    then {| protection_status := OK; protection_alert := in_alert || k_alert;
            i2_value := i2_value |}
    else {| protection_status := NE; protection_alert := true; i2_value := i2_value |}
  | _, _, _, _ =>
    {| protection_status :=
         match in_value, i2_value with
         | Some _, Some _ => NA
         | _, _ => Dash
         end;
       protection_alert := in_alert || k_alert;
       i2_value := i2_value |}
  end.

Definition protection_of_form `{Builtins} (self : CableCalcApp)
    (iz_one icalc_total : option R) (n_parallel : Z) : protection_result :=
  protection_check iz_one icalc_total n_parallel
    (_try_parse_float (form_value self "In, A"))
    (_try_parse_float (form_value self "k")).

(** ** Optimal-parameter search *)

(** What [messagebox.showerror] is called with. *)
Inductive message : Type :=
| input_empty (field_name : string)
| input_invalid (field_name value : string)
| error_text (key : string).

(** [_parse_float]: the messages shown and the value returned. *)
Definition _parse_float `{Builtins} (value field_name : string) : list message * option R :=
  let value := strip value in
  if decide (value = "") then ([input_empty field_name], None)
  else
    match float_of_str (replace_comma value) with
    | Some x => ([], Some x)
    | None => ([input_invalid field_name value], None)
    end.

Definition _validate_counts `{Builtins} (self : CableCalcApp) : Z * Z * Z * option string :=
  match int_of_str (strip (form_value self "Нагруженные жилы (nž)")) with
  | None => (3, 1, 1, Some "error.loaded_cores_2_3")%Z
  | Some loaded_cores =>
    if decide (loaded_cores ≠ 2 ∧ loaded_cores ≠ 3)%Z
    then (3, 1, 1, Some "error.loaded_cores_2_3")%Z
    else
      match int_of_str (strip (form_value self "Кабелей в группе (для S)")) with
      | None => (loaded_cores, 1, 1, Some "error.circuits_min_1")%Z
      | Some circuits_count =>
        if decide (circuits_count < 1)%Z
        then (loaded_cores, 1, 1, Some "error.circuits_min_1")%Z
        else
          match int_of_str (strip (form_value self "Параллельные кабели (n∥)")) with
          | None => (loaded_cores, circuits_count, 1, Some "error.parallel_min_1")%Z
          | Some n_parallel =>
            if decide (n_parallel < 1)%Z
            then (loaded_cores, circuits_count, 1, Some "error.parallel_min_1")%Z
            else (loaded_cores, circuits_count, n_parallel, None)
          end
      end
  end.

(** An entry of [fallback_candidates]. *)
Record candidate : Type := {
  cand_metric : R;
  cand_area : R;
  cand_breaker_value : R;
  cand_drop_val : R;
  cand_iz_total : R;
  cand_breaker_str : string
}.

(** [success_combo]: area, breaker text, total ampacity, drop. *)
Definition combo : Type := R * string * R * R.

Section Search.
Context (self : CableCalcApp).
Context (insulation_key conductor method : string) (insulation_theta : R).
Context (loaded_cores n_parallel voltage_value : Z).
Context (s_coeff t_coeff cos_phi length icalc_total : R).
Context (limit_pct : option R) (k_value : R).
Context (breaker_values : list (string * R)).

(** The test [within_current and drop_ok and protection_ok]. *)
Definition combo_ok (iz_total drop_val breaker_value : R) : bool :=
  let within_current :=
    bool_decide (icalc_total <= breaker_value ∧ breaker_value <= iz_total) in
  let drop_ok :=
    match limit_pct with
    | None => true
    | Some limit => bool_decide (drop_val <= limit)
    end in
  let i2 := breaker_value * k_value in
  let protection_ok := bool_decide (i2 <= 1.45 * iz_total) in
  within_current && drop_ok && protection_ok.

Definition violation (area_candidate iz_total drop_val : R) (breaker_str : string)
    (breaker_value : R) : candidate :=
  let i2 := breaker_value * k_value in
  let over_in_low := Rmax 0 (icalc_total - breaker_value) in
  let over_in_high := Rmax 0 (breaker_value - iz_total) in
  let over_iz := Rmax 0 (icalc_total - iz_total) in
  let over_drop :=
    match limit_pct with
    | Some limit => Rmax 0 (drop_val - (if decide (limit = 0) then drop_val else limit))
    | None => 0
    end in
  let over_i2 := Rmax 0 (i2 - 1.45 * iz_total) in
  {| cand_metric := over_in_low + over_in_high + over_iz + over_drop + over_i2;
     cand_area := area_candidate;
     cand_breaker_value := breaker_value;
     cand_drop_val := drop_val;
     cand_iz_total := iz_total;
     cand_breaker_str := breaker_str |}.

(** The inner [for breaker_str, breaker_value in breaker_values] loop. *)
Fixpoint scan_breakers (area_candidate iz_total drop_val : R)
    (breakers : list (string * R)) (fallback_candidates : list candidate)
    : option combo * list candidate :=
  match breakers with
  | [] => (None, fallback_candidates)
  | (breaker_str, breaker_value) :: rest =>
    if decide (breaker_value <= 0)
    then scan_breakers area_candidate iz_total drop_val rest fallback_candidates
    else if combo_ok iz_total drop_val breaker_value
    then (Some (area_candidate, breaker_str, iz_total, drop_val), fallback_candidates)
    else
      scan_breakers area_candidate iz_total drop_val rest
        (fallback_candidates
           ++ [violation area_candidate iz_total drop_val breaker_str breaker_value])
  end.

(** The outer [for area_candidate in self.STANDARD_SECTIONS] loop. *)
Fixpoint scan_sections (sections : list R) (fallback_candidates : list candidate)
    : py (option combo * list candidate) :=
  match sections with
  | [] => Return (None, fallback_candidates)
  | area_candidate :: rest =>
    if decide (area_candidate <= 0) then scan_sections rest fallback_candidates
    else
      iz_base ←
        _lookup_ampacity self insulation_key conductor method area_candidate loaded_cores;
      match iz_base with
      | None => scan_sections rest fallback_candidates
      | Some iz_base =>
        if decide (iz_base = 0) then scan_sections rest fallback_candidates
        else
          let iz_one := iz_base * s_coeff * t_coeff in
          let iz_total := iz_one * IZR (Z.max n_parallel 1) in
          if decide (iz_total <= 0) then scan_sections rest fallback_candidates
          else
            drop_val ←
              _drop_pct self (IZR voltage_value) cos_phi length conductor insulation_theta
                area_candidate method loaded_cores n_parallel icalc_total;
            match scan_breakers area_candidate iz_total drop_val breaker_values
                    fallback_candidates with
            | (Some success_combo, fallback_candidates) =>
              Return (Some success_combo, fallback_candidates)
            | (None, fallback_candidates) => scan_sections rest fallback_candidates
            end
      end
  end.
End Search.


(** The [breaker_values] list built from [STANDARD_BREAKER_RATINGS]. *)
Fixpoint parse_breakers `{Builtins} (ratings : list string) : list (string * R) :=
  match ratings with
  | [] => []
  | item :: rest =>
    let item := strip item in
    if decide (item = "") then parse_breakers rest
    else
      match float_of_str (replace_comma item) with
      | Some value => (item, value) :: parse_breakers rest
      | None => parse_breakers rest
      end
  end.

(** What the checks at the head of [select_optimal_parameters] hand to the
    search loop. *)
Record search_inputs : Type := {
  si_insulation_key : string;
  si_conductor : string;
  si_method : string;
  si_insulation_theta : R;
  si_loaded_cores : Z;
  si_n_parallel : Z;
  si_voltage_value : Z;
  si_s_coeff : R;
  si_t_coeff : R;
  si_cos_phi : R;
  si_length : R;
  si_icalc_total : R;
  si_limit_pct : option R;
  si_k_value : R;
  si_breaker_values : list (string * R)
}.

(** The head of [select_optimal_parameters], from the reading of the
    insulation field to the check of the breaker catalogue: either the
    messages shown before the early [return], or the inputs of the search.
    The refresh of the result panel that opens the method reads the same
    form and sets none of the fields read here. *)
Definition prepare_search `{Builtins} (self : CableCalcApp)
    : py (list message + search_inputs) :=
  match INSULATION_META self !! form_value self "Tip-IZOLACIJE" with
  | None => Return (inl [error_text "error.insulation_not_selected"])
  | Some insulation_meta =>
  let conductor := form_value self "Tip-PROVODNIKA" in
  let method := strip (form_value self "Način polaganja") in
  let '(loaded_cores, circuits_count, n_parallel, count_err) := _validate_counts self in
  match count_err with
  | Some count_err => Return (inl [error_text count_err])
  | None =>
  match _parse_float (form_value self "Pi, W") "Pi, W" with
  | (shown, None) => Return (inl shown)
  | (_, Some pi) =>
  match _parse_float (form_value self "Kj") "Kj" with
  | (shown, None) => Return (inl shown)
  | (_, Some kj) =>
  match _parse_float (form_value self "η") "η" with
  | (shown, None) => Return (inl shown)
  | (_, Some eta) =>
  if decide (¬ (0 < eta ∧ eta <= 1)) then Return (inl [error_text "error.eta_range"])
  else
  let '(shown, cos_phi) := _parse_float (form_value self "cos φ") "cos φ" in
  match cos_phi with
  | None => Return (inl (shown ++ [error_text "error.cos_phi_range"]))
  | Some cos_phi =>
  if decide (¬ (0 < cos_phi ∧ cos_phi <= 1))
  then Return (inl (shown ++ [error_text "error.cos_phi_range"]))
  else
  let '(shown, length) := _parse_float (form_value self "Dužina L, m") "Dužina L, m" in
  match length with
  | None => Return (inl (shown ++ [error_text "error.length_non_neg"]))
  | Some length =>
  if decide (length < 0)
  then Return (inl (shown ++ [error_text "error.length_non_neg"]))
  else
  match int_of_str (form_value self "U") with
  | None => Return (inl [error_text "error.voltage_required"])
  | Some voltage_value =>
  let medium_key := _medium_selected_key self in
  let temperature := _try_parse_float (form_value self "Температура, °C") in
  t_coeff ←
    match temperature with
    | None => Return (Some 1)
    | Some temperature =>
      temp_factor ←
        _lookup_temperature_factor self (meta_key insulation_meta) medium_key temperature;
      match temp_factor with
      | None => Return None
      | Some temp_factor => if decide (temp_factor <= 0) then Return None
                            else Return (Some temp_factor)
      end
    end;
  match t_coeff with
  | None => Return (inl [error_text "error.temperature_range_kt"])
  | Some t_coeff =>
  s_coeff ← _lookup_group_factor self (effective_circuits circuits_count n_parallel);
  let pj := pi * kj in
  phase ← phase_factor loaded_cores;
  let denominator := phase * IZR voltage_value * cos_phi in
  if decide (denominator = 0) then Return (inl [error_text "error.division_zero"])
  else
  pj_eta ← truediv pj eta;
  icalc_total ← truediv pj_eta denominator;
  if decide (icalc_total <= 0) then Return (inl [error_text "error.icalc_positive"])
  else
  let limit_pct := DROP_LIMIT_KEYS self !! form_value self "Ключ ΔU" in
  let k_value :=
    match _try_parse_float (form_value self "k") with
    | None => 1.45
    | Some k_value => if decide (k_value <= 0) then 1.45 else k_value
    end in
  let breaker_values := parse_breakers (STANDARD_BREAKER_RATINGS self) in
  match breaker_values with
  | [] => Return (inl [error_text "error.breaker_ratings_required"])
  | _ =>
    Return (inr {|
      si_insulation_key := meta_key insulation_meta;
      si_conductor := conductor;
      si_method := method;
      si_insulation_theta := meta_theta insulation_meta;
      si_loaded_cores := loaded_cores;
      si_n_parallel := n_parallel;
      si_voltage_value := voltage_value;
      si_s_coeff := s_coeff;
      si_t_coeff := t_coeff;
      si_cos_phi := cos_phi;
      si_length := length;
      si_icalc_total := icalc_total;
      si_limit_pct := limit_pct;
      si_k_value := k_value;
      si_breaker_values := breaker_values |})
  end end end end end end end end end end.

(** The search loop of [select_optimal_parameters] on prepared inputs. *)
Definition run_search (self : CableCalcApp) (inputs : search_inputs)
    : py (option combo * list candidate) :=
  scan_sections self (si_insulation_key inputs) (si_conductor inputs) (si_method inputs)
    (si_insulation_theta inputs) (si_loaded_cores inputs) (si_n_parallel inputs)
    (si_voltage_value inputs) (si_s_coeff inputs) (si_t_coeff inputs) (si_cos_phi inputs)
    (si_length inputs) (si_icalc_total inputs) (si_limit_pct inputs) (si_k_value inputs)
    (si_breaker_values inputs) (STANDARD_SECTIONS self) [].


(** ** Plain decimal texts

    An instance of the built-in conversions on the texts the application
    itself writes into the form and the table ([_fmt] output, catalogue
    entries): an optional minus sign, digits, and an optional point followed
    by digits.  It is used to run the model on concrete inputs. *)

Module Decimal.

Definition digit (a : Ascii.ascii) : option Z :=
  let n := Ascii.N_of_ascii a in
  if ((48 <=? n)%N && (n <=? 57)%N)%bool then Some (Z.of_N n - 48)%Z else None.

Fixpoint digits_value (s : string) (acc : Z) : option Z :=
  match s with
  | EmptyString => Some acc
  | String a s' =>
    match digit a with
    | Some d => digits_value s' (10 * acc + d)%Z
    | None => None
    end
  end.

(** The text before the first point and, when there is a point, the text
    after it. *)
Fixpoint split_point (s : string) : string * option string :=
  match s with
  | EmptyString => (EmptyString, None)
  | String a s' =>
    if Ascii.eqb a full_stop then (EmptyString, Some s')
    else let '(whole, frac) := split_point s' in (String a whole, frac)
  end.

Definition minus_sign : Ascii.ascii := Ascii.ascii_of_nat 45.

Definition unsigned (s : string) : bool * string :=
  match s with
  | String a s' => if Ascii.eqb a minus_sign then (true, s') else (false, s)
  | EmptyString => (false, s)
  end.

(** Mantissa and number of digits after the point. *)
Definition decimal_parts (s : string) : option (Z * nat) :=
  let '(negative, body) := unsigned s in
  let '(whole, frac) := split_point body in
  if decide (whole = "") then None
  else
    m ← digits_value (whole +:+ default "" frac) 0;
    Some (if negative then (- m)%Z else m, String.length (default "" frac)).

Definition decimal_float (s : string) : option R :=
  '(m, d) ← decimal_parts s; Some (IZR m / 10 ^ d).

Definition decimal_int (s : string) : option Z :=
  let '(negative, body) := unsigned s in
  if decide (body = "") then None
  else m ← digits_value body 0; Some (if negative then (- m)%Z else m).

Definition decimal_builtins : Builtins :=
  {| float_of_str := decimal_float; int_of_str := decimal_int |}.

End Decimal.

(** ** Specification vocabulary and sample data *)

(** [k] is the largest key of [d]. *)
Definition is_max_key {V} (d : gmap Z V) (k : Z) : Prop :=
  is_Some (d !! k) ∧ ∀ k', is_Some (d !! k') → (k' ≤ k)%Z.

(** [k] is the smallest key of [d]. *)
Definition is_min_key {V} (d : gmap Z V) (k : Z) : Prop :=
  is_Some (d !! k) ∧ ∀ k', is_Some (d !! k') → (k ≤ k')%Z.

(** What makes the breaker rating or the protection current unavailable: the
    field ["In, A"] or ["k"] does not hold a number, or holds one that is not
    positive. *)
Definition unavailable (value : option R) : Prop :=
  value = None ∨ ∃ x, value = Some x ∧ x <= 0.

(** An application with no reference data, an empty form and no records. *)
Definition empty_app : CableCalcApp := {|
  INSULATION_META := ∅;
  STANDARD_SECTIONS := [];
  STANDARD_BREAKER_RATINGS := [];
  DROP_LIMIT_KEYS := ∅;
  RESISTIVITY_20 := ∅;
  TEMP_COEFF := ∅;
  AMPACITY_BASE := ∅;
  AMPACITY_INSULATION_FACTORS := ∅;
  AMPACITY_LOADED_FACTORS := ∅;
  GROUPING_FACTORS := ∅;
  KT_V_TABLE := ∅;
  KT_Z_TABLE := ∅;
  REACTANCE_DATA := {| rd_buckets := None; rd_method_defaults := None; rd_default := None |};
  _form_values := ∅;
  _table_data := [];
  _medium_selected_key := "air"
|}.

Definition with_grouping (self : CableCalcApp) (grouping : gmap Z R) : CableCalcApp := {|
  INSULATION_META := INSULATION_META self;
  STANDARD_SECTIONS := STANDARD_SECTIONS self;
  STANDARD_BREAKER_RATINGS := STANDARD_BREAKER_RATINGS self;
  DROP_LIMIT_KEYS := DROP_LIMIT_KEYS self;
  RESISTIVITY_20 := RESISTIVITY_20 self;
  TEMP_COEFF := TEMP_COEFF self;
  AMPACITY_BASE := AMPACITY_BASE self;
  AMPACITY_INSULATION_FACTORS := AMPACITY_INSULATION_FACTORS self;
  AMPACITY_LOADED_FACTORS := AMPACITY_LOADED_FACTORS self;
  GROUPING_FACTORS := grouping;
  KT_V_TABLE := KT_V_TABLE self;
  KT_Z_TABLE := KT_Z_TABLE self;
  REACTANCE_DATA := REACTANCE_DATA self;
  _form_values := _form_values self;
  _table_data := _table_data self;
  _medium_selected_key := _medium_selected_key self
|}.

(** A grouping table whose entry for one circuit is not 1. *)
Definition grouping_sample : gmap Z R := <[1%Z := 0.9]> (<[2%Z := 0.8]> ∅).

(** The base table of method C in [sample_app]. *)
Definition base_sample : float_dict := [(1.5, 19.5); (2.5, 27)].

(** Temperature factors in air at 20, 30 and 40 °C. *)
Definition kt_sample : gmap Z R := <[20%Z := 1.12]> (<[30%Z := 1]> {[ 40%Z := 0.87 ]}).

(** A small installation: one insulation, copper, method C, two sections. *)
Definition sample_app (sections : list R) (form : gmap string string)
    (table : list (gmap string string)) : CableCalcApp := {|
  INSULATION_META := {[ "PVC (70°C)" := {| meta_key := "PVC"; meta_theta := 70 |} ]};
  STANDARD_SECTIONS := sections;
  STANDARD_BREAKER_RATINGS := ["10"; "16"];
  DROP_LIMIT_KEYS := ∅;
  RESISTIVITY_20 := {[ "Cu" := 0.0175 ]};
  TEMP_COEFF := {[ "Cu" := 0.004 ]};
  AMPACITY_BASE := {[ "C" := base_sample ]};
  AMPACITY_INSULATION_FACTORS := {[ "PVC" := {[ "Cu" := {[ "C" := 1 ]} ]} ]};
  AMPACITY_LOADED_FACTORS := {[ "C" := <[2%Z := 1]> {[ 3%Z := 0.9 ]} ]};
  GROUPING_FACTORS := <[1%Z := 1]> {[ 2%Z := 0.8 ]};
  KT_V_TABLE := {[ "PVC" := kt_sample ]};
  KT_Z_TABLE := ∅;
  REACTANCE_DATA := {| rd_buckets := None; rd_method_defaults := None; rd_default := None |};
  _form_values := form;
  _table_data := table;
  _medium_selected_key := "air"
|}.

(** A record of the segment table, reduced to the columns the chain walk
    reads. *)
Definition segment_row (circuit od do drop : string) : gmap string string :=
  <["Strujni krug" := circuit]> (<["OD" := od]> (<["DO" := do]>
    (<["L" := "10,00"]> (<["Presek" := "2,50"]> {[ "ΔU %" := drop ]})))).

(** Three records A→B→C→D on circuit K1, each with a stored drop of 1 %. *)
Definition chain_table : list (gmap string string) :=
  [ segment_row "K1" "A" "B" "1,00";
    segment_row "K1" "B" "C" "1,00";
    segment_row "K1" "C" "D" "1,00" ].

(** The form while the next segment, from [od] to E, is being entered. *)
Definition chain_form (od : string) : gmap string string :=
  <["Deonica OD" := od]> (<["Deonica DO" := "E"]>
    (<["Dužina L, m" := "10"]> {[ "Presek, mm²" := "2,5" ]})).

(** No record on [circuit] ends where the segment starts. *)
Definition no_predecessor (self : CableCalcApp) (circuit form_od : string) : Prop :=
  ∀ row, row ∈ _table_data self →
    strip (get_str row "Strujni krug" "") = circuit →
    strip (get_str row "DO" "") ≠ strip form_od.

(** The end points at which some record of the table ends. *)
Definition chain_ends (self : CableCalcApp) : gset string :=
  list_to_set ((λ row, strip (get_str row "DO" "")) <$> _table_data self).

(** The installation with the three chained records, while a segment that
    starts at [od] is being entered. *)
Definition chain_app (od : string) : CableCalcApp :=
  sample_app [] (chain_form od) chain_table.


(** What the search evaluates for a section, and what the compliance of a
    section with a breaker rating means. *)
Section SearchSpec.
Context (self : CableCalcApp).
Context (insulation_key conductor method : string) (insulation_theta : R).
Context (loaded_cores n_parallel voltage_value : Z).
Context (s_coeff t_coeff cos_phi length icalc_total : R).
Context (limit_pct : option R) (k_value : R).

(** The section has an ampacity; [iz_total] is its total over the parallel
    cables after derating and [drop_val] its voltage drop. *)
Definition evaluated (area iz_total drop_val : R) : Prop :=
  ∃ iz_base,
    _lookup_ampacity self insulation_key conductor method area loaded_cores
    = Return (Some iz_base)
    ∧ iz_total = iz_base * s_coeff * t_coeff * IZR (Z.max n_parallel 1)
    ∧ _drop_pct self (IZR voltage_value) cos_phi length conductor insulation_theta area
        method loaded_cores n_parallel icalc_total = Return drop_val.

(** The pair passes the three checks: design current within
    [[Icalc, Iz_total]], drop within the selected limit (no limit selected
    counts as within), protection coordination. *)
Definition compliant (area breaker_value : R) : Prop :=
  ∃ iz_total drop_val,
    evaluated area iz_total drop_val
    ∧ combo_ok icalc_total limit_pct k_value iz_total drop_val breaker_value = true.
End SearchSpec.






(** The multiplier the search uses, from the text of the field ["k"]. *)
Definition k_or_default `{Builtins} (self : CableCalcApp) : R :=
  match _try_parse_float (form_value self "k") with
  | None => 1.45
  | Some k_value => if decide (k_value <= 0) then 1.45 else k_value
  end.

(** The form of [sample_app] filled in for a 2300 W load at 230 V, with the
    temperature and the multiplier [k] left empty. *)
Definition sample_form : gmap string string :=
  list_to_map
    [ ("Tip-IZOLACIJE", "PVC (70°C)"); ("Tip-PROVODNIKA", "Cu"); ("Način polaganja", "C");
      ("Нагруженные жилы (nž)", "2"); ("Кабелей в группе (для S)", "1");
      ("Параллельные кабели (n∥)", "1");
      ("Pi, W", "2300"); ("Kj", "1"); ("η", "1"); ("cos φ", "1"); ("Dužina L, m", "10");
      ("U", "230"); ("Температура, °C", ""); ("k", ""); ("Ключ ΔU", "") ].

Definition sample_filled : CableCalcApp := sample_app [1.5; 2.5] sample_form [].

(** The breaker catalogue of [sample_app], as [parse_breakers] reads it. *)
Definition sample_breakers : list (string * R) := [("10", 10); ("16", 16)].

(** What the checks make of [sample_form]: a load of 5 A, no derating, no
    drop limit, the default multiplier. *)
Definition sample_inputs : search_inputs := {|
  si_insulation_key := "PVC";
  si_conductor := "Cu";
  si_method := "C";
  si_insulation_theta := 70;
  si_loaded_cores := 2;
  si_n_parallel := 1;
  si_voltage_value := 230;
  si_s_coeff := 1;
  si_t_coeff := 1;
  si_cos_phi := 1;
  si_length := 10;
  si_icalc_total := 5;
  si_limit_pct := None;
  si_k_value := 1.45;
  si_breaker_values := sample_breakers
|}.

(** The search loop on these inputs, over a catalogue of sections. *)
Definition sample_scan (sections : list R) : py (option combo * list candidate) :=
  run_search (sample_app sections sample_form []) sample_inputs.

Definition sample_compliant (sections : list R) (area breaker_value : R) : Prop :=
  compliant (sample_app sections sample_form []) "PVC" "Cu" "C" 70 2 1 230 1 1 1 10 5
    None 1.45 area breaker_value.

(** [k] is the smallest (largest) standard area of a base table. *)
Definition is_least_area (d : float_dict) (k : R) : Prop :=
  k ∈ d.*1 ∧ ∀ k', k' ∈ d.*1 → k <= k'.

Definition is_greatest_area (d : float_dict) (k : R) : Prop :=
  k ∈ d.*1 ∧ ∀ k', k' ∈ d.*1 → k' <= k.

(** ** Further functions of the engine *)


(** The application with another segment table. *)
Definition with_table (self : CableCalcApp) (table : list (gmap string string))
    : CableCalcApp := {|
  INSULATION_META := INSULATION_META self;
  STANDARD_SECTIONS := STANDARD_SECTIONS self;
  STANDARD_BREAKER_RATINGS := STANDARD_BREAKER_RATINGS self;
  DROP_LIMIT_KEYS := DROP_LIMIT_KEYS self;
  RESISTIVITY_20 := RESISTIVITY_20 self;
  TEMP_COEFF := TEMP_COEFF self;
  AMPACITY_BASE := AMPACITY_BASE self;
  AMPACITY_INSULATION_FACTORS := AMPACITY_INSULATION_FACTORS self;
  AMPACITY_LOADED_FACTORS := AMPACITY_LOADED_FACTORS self;
  GROUPING_FACTORS := GROUPING_FACTORS self;
  KT_V_TABLE := KT_V_TABLE self;
  KT_Z_TABLE := KT_Z_TABLE self;
  REACTANCE_DATA := REACTANCE_DATA self;
  _form_values := _form_values self;
  _table_data := table;
  _medium_selected_key := _medium_selected_key self
|}.

(** The record belongs to the circuit. *)
Definition on_circuit (circuit : string) (row : gmap string string) : Prop :=
  strip (get_str row "Strujni krug" "") = circuit.


#[global] Instance on_circuit_dec (circuit : string) (row : gmap string string) :
  Decision (on_circuit circuit row).
Proof. unfold on_circuit. apply _. Defined.



(** An entry of [issues] in the report on a near miss. *)
Inductive issue : Type :=
| drop_over (excess : R)
    (** the drop is above the limit by [excess] *)
| rating_below_design (short : R)
    (** the breaker rating is below the design current by [short] *)
| rating_above_capacity (excess : R)
    (** the breaker rating is above the total ampacity by [excess] *)
| tripping_over (bound : R)
    (** the tripping current is above [bound] = 1.45 Iz *).

(** The [issues] list [select_optimal_parameters] builds for an item of
    [fallback_candidates]; an empty list is reported as minimal deviations. *)
Definition candidate_issues (icalc_total : R) (limit_pct : option R) (k_value : R)
    (item : candidate) : list issue :=
  let breaker_value := cand_breaker_value item in
  let drop_val := cand_drop_val item in
  let iz_total := cand_iz_total item in
  match limit_pct with
  | Some limit => if decide (drop_val > limit) then [drop_over (drop_val - limit)] else []
  | None => []
  end
  ++ (if decide (breaker_value < icalc_total)
      then [rating_below_design (icalc_total - breaker_value)] else [])
  ++ (if decide (breaker_value > iz_total)
      then [rating_above_capacity (breaker_value - iz_total)] else [])
  ++ (if decide (breaker_value * k_value > 1.45 * iz_total)
      then [tripping_over (1.45 * iz_total)] else []).

(** What the search loop has established of a candidate when it records it:
    a positive section and a positive rating of the catalogues, the total
    ampacity and the drop of that section, and a failed check. *)
Definition near_miss (self : CableCalcApp)
    (insulation_key conductor method : string) (insulation_theta : R)
    (loaded_cores n_parallel voltage_value : Z)
    (s_coeff t_coeff cos_phi length icalc_total : R)
    (limit_pct : option R) (k_value : R)
    (breaker_values : list (string * R)) (sections : list R) (item : candidate) : Prop :=
  cand_area item ∈ sections ∧ 0 < cand_area item
  ∧ (cand_breaker_str item, cand_breaker_value item) ∈ breaker_values
  ∧ 0 < cand_breaker_value item
  ∧ 0 < cand_iz_total item
  ∧ evaluated self insulation_key conductor method insulation_theta loaded_cores n_parallel
      voltage_value s_coeff t_coeff cos_phi length icalc_total
      (cand_area item) (cand_iz_total item) (cand_drop_val item)
  ∧ combo_ok icalc_total limit_pct k_value
      (cand_iz_total item) (cand_drop_val item) (cand_breaker_value item) = false
  ∧ item = violation icalc_total limit_pct k_value (cand_area item) (cand_iz_total item)
             (cand_drop_val item) (cand_breaker_str item) (cand_breaker_value item).

(** ** Recommendations *)

(** A line of the list [_recommend] returns, before it is formatted as text:
    the action and the numbers the text shows. *)
Inductive recommendation : Type :=
| increase_section (area : R) (method : string) (iz_total drop_val : R)
| change_method (area : R) (method : string) (iz_total drop_val : R)
| switch_to_xlpe (area : R) (method : string) (iz_total drop_val : R)
| split_parallel (n_needed : Z) (area : R) (method : string) (max_total drop_new : R)
| reduce_grouping_or_raise_voltage.

(** How a call of [_recommend] ends: with its list, with the [IndexError] of
    [self.STANDARD_SECTIONS[0]], or with an exception of a callee. *)
Inductive recommend_result : Type :=
| Recommended (recs : list recommendation)
| IndexError
| Raised (e : exn).

(** The attribute [self.METHOD_PREFERENCE], which only this method reads, is
    a variable of the section; the factors [S] and [T] are [S_factor] and
    [T_factor]. *)
Section Recommend.
Context (self : CableCalcApp) (METHOD_PREFERENCE : list string).
Context (U cos_phi L : R) (conductor insulation_key : string) (insulation_theta : R).
Context (method : string) (loaded_cores : Z) (S_factor T_factor : R).
Context (limit_pct : option R) (current_area : R) (n_parallel : Z) (icalc_total : R).

(** The loop [for area_candidate in self.STANDARD_SECTIONS] that remedies 1,
    2 and 3 run, for an insulation, its temperature and a method: the first
    section that passes, with its [iz_one] and [drop_val]. *)
Fixpoint section_scan (insulation : string) (theta : R) (m : string)
    (min_section current_per_cable : R) (parallel_count : Z) (sections : list R)
    : py (option (R * R * R)) :=
  match sections with
  | [] => Return None
  | area_candidate :: rest =>
    if decide (area_candidate < min_section)
    then section_scan insulation theta m min_section current_per_cable parallel_count rest
    else
      iz_base ← _lookup_ampacity self insulation conductor m area_candidate loaded_cores;
      match iz_base with
      | None =>
        section_scan insulation theta m min_section current_per_cable parallel_count rest
      | Some iz_base =>
        if decide (iz_base = 0)
        then section_scan insulation theta m min_section current_per_cable parallel_count
               rest
        else
          let iz_one := iz_base * S_factor * T_factor in
          if decide (iz_one < current_per_cable)
          then section_scan insulation theta m min_section current_per_cable
                 parallel_count rest
          else
            drop_val ←
              _drop_pct self U cos_phi L conductor theta area_candidate m loaded_cores
                parallel_count icalc_total;
            if match limit_pct with
               | Some limit => bool_decide (drop_val > limit)
               | None => false
               end
            then section_scan insulation theta m min_section current_per_cable
                   parallel_count rest
            else Return (Some (area_candidate, iz_one, drop_val))
      end
  end.

(** The loop [for m in self.METHOD_PREFERENCE] of remedy 2. *)
Fixpoint method_scan (min_section current_per_cable : R) (parallel_count : Z)
    (methods : list string) : py (option (string * (R * R * R))) :=
  match methods with
  | [] => Return None
  | m :: rest =>
    if decide (m = method)
    then method_scan min_section current_per_cable parallel_count rest
    else
      found ←
        section_scan insulation_key insulation_theta m min_section current_per_cable
          parallel_count (STANDARD_SECTIONS self);
      match found with
      | Some best => Return (Some (m, best))
      | None => method_scan min_section current_per_cable parallel_count rest
      end
  end.

(** Remedy 4, from [if limit_pct is not None] on: the line it appends, if
    any. *)
Definition split_remedy (first min_section : R) (parallel_count : Z)
    : py (list recommendation) :=
  match limit_pct with
  | None => Return []
  | Some limit =>
    let base_area :=
      Rmax min_section (if decide (current_area = 0) then first else current_area) in
    drop_current ←
      _drop_pct self U cos_phi L conductor insulation_theta base_area method loaded_cores
        parallel_count icalc_total;
    if decide (drop_current > limit) then
      iz_base ← _lookup_ampacity self insulation_key conductor method base_area loaded_cores;
      match iz_base with
      | None => Return []
      | Some iz_base =>
        if decide (iz_base = 0) then Return []
        else
          let iz_one := iz_base * S_factor * T_factor in
          let denom := Rmax limit 1e-9 in
          ratio ← truediv (drop_current * IZR parallel_count) denom;
          let n_needed := Z.max (parallel_count + 1) (Zceil ratio) in
          if decide (iz_one > 0) then
            let max_total := iz_one * IZR n_needed in
            drop_new ←
              _drop_pct self U cos_phi L conductor insulation_theta base_area method
                loaded_cores n_needed icalc_total;
            Return [split_parallel n_needed base_area method max_total drop_new]
          else Return []
      end
    else Return []
  end.

(** The list [recs] as it stands before the last two statements. *)
Definition recommend_lines (first min_section current_per_cable : R) (parallel_count : Z)
    : py (list recommendation) :=
  best_section ←
    section_scan insulation_key insulation_theta method min_section current_per_cable
      parallel_count (STANDARD_SECTIONS self);
  let recs1 :=
    match best_section with
    | Some (area, iz_one, drop_val) =>
      [increase_section area method (iz_one * IZR parallel_count) drop_val]
    | None => []
    end in
  best_method ← method_scan min_section current_per_cable parallel_count METHOD_PREFERENCE;
  let recs2 :=
    match best_method with
    | Some (m, (area, iz_one, drop_val)) =>
      [change_method area m (iz_one * IZR parallel_count) drop_val]
    | None => []
    end in
  recs3 ←
    (if decide (insulation_key = "PVC") then
       let xlpe_theta :=
         match INSULATION_META self !! "XLPE/EPR (90°C)" with
         | Some xlpe_meta => meta_theta xlpe_meta
         | None => 90
         end in
       best_xlpe ←
         section_scan "XLPE" xlpe_theta method min_section current_per_cable parallel_count
           (STANDARD_SECTIONS self);
       Return
         match best_xlpe with
         | Some (area, iz_one, drop_val) =>
           [switch_to_xlpe area method (iz_one * IZR parallel_count) drop_val]
         | None => []
         end
     else Return []);
  recs4 ← split_remedy first min_section parallel_count;
  Return (recs1 ++ recs2 ++ recs3 ++ recs4).

Definition _recommend : recommend_result :=
  if decide (icalc_total = 0 ∨ S_factor <= 0 ∨ T_factor <= 0) then Recommended []
  else
    let parallel_count := Z.max n_parallel 1 in
    match
      (if decide (parallel_count = 0%Z) then Return icalc_total
       else truediv icalc_total (IZR parallel_count))
    with
    | Raise e => Raised e
    | Return current_per_cable =>
      match STANDARD_SECTIONS self with
      | [] => IndexError
      | first :: _ =>
        let min_section :=
          Rmax (if decide (current_area = 0) then 0 else current_area) first in
        match recommend_lines first min_section current_per_cable parallel_count with
        | Raise e => Raised e
        | Return recs =>
          Recommended
            (take 4 (match recs with
                     | [] => [reduce_grouping_or_raise_voltage]
                     | _ => recs
                     end))
        end
      end
    end.
End Recommend.

(** What remedies 1, 2 and 3 ask of a section, for an insulation, its
    temperature and a method: it is not below [min_section], it has an
    ampacity, which after derating is [iz_one] and carries the current of one
    cable, and its drop [drop_val] is within the limit, if one is set. *)
Definition section_passes (self : CableCalcApp) (U cos_phi L : R) (conductor : string)
    (loaded_cores : Z) (S_factor T_factor : R) (limit_pct : option R) (icalc_total : R)
    (insulation : string) (theta : R) (m : string)
    (min_section current_per_cable : R) (parallel_count : Z)
    (area iz_one drop_val : R) : Prop :=
  min_section <= area
  ∧ (∃ iz_base,
       _lookup_ampacity self insulation conductor m area loaded_cores = Return (Some iz_base)
       ∧ iz_base ≠ 0 ∧ iz_one = iz_base * S_factor * T_factor)
  ∧ current_per_cable <= iz_one
  ∧ _drop_pct self U cos_phi L conductor theta area m loaded_cores parallel_count
      icalc_total = Return drop_val
  ∧ ∀ limit, limit_pct = Some limit → drop_val <= limit.

(** [_recommend] on the sample installation: 5 A over one copper cable of
    10 m at 230 V in method C, PVC insulation, two loaded cores, no present
    section, with the given drop limit. *)
Definition sample_recommend (limit_pct : option R) : recommend_result :=
  _recommend (sample_app [1.5; 2.5] ∅ []) [] 230 1 10 "Cu" "PVC" 70 "C" 2 1 1 limit_pct
    0 1 5.

(** The test of remedy 1 in that call. *)
Definition sample_passes (limit_pct : option R) (area iz_one drop_val : R) : Prop :=
  section_passes (sample_app [1.5; 2.5] ∅ []) 230 1 10 "Cu" 2 1 1 limit_pct 5
    "PVC" 70 "C" (Rmax 0 1.5) (5 / IZR (Z.max 1 1)) (Z.max 1 1) area iz_one drop_val.

(** ** Result panel *)

(** The three texts of the field for the compatibility verdict:
    [status.ok], [status.fail] and [status.na]. *)
Inductive compatibility : Type := compat_ok | compat_fail | compat_na.

(** What a refresh of the result panel computes.  The values are kept as
    numbers; their formatting and the colouring of the widgets are left
    out. *)
Record intermediate_results : Type := {
  ir_loaded_cores : Z;
  ir_circuits_count : Z;
  ir_n_parallel : Z;
  ir_s_coeff : R;
  ir_t_coeff : option R;
  ir_pj : option R;
  ir_icalc_total : option R;
  ir_icalc_per_cable : option R;
  ir_r_per_km : option R;
  ir_base_ampacity : option R;
  ir_iz_one : option R;
  ir_in_range_alert : bool;
  ir_ampacity_status : status;
  ir_delta_u : option R;
  ir_drop_status : option status;
  ir_protection : protection_result;
  ir_compat_display : compatibility
}.

(** [_update_intermediate_results], from the reading of the form to the
    compatibility verdict, for a refresh that is not skipped and a medium
    key that is one of the media.  The method is one body; it is split here
    into its blocks, in the order of the source.  The total drop along the
    chain, which is shown and enters no verdict, is not part of the
    record. *)
Section Panel.
Context `{Builtins} (self : CableCalcApp).

(** The three counts, each with its default when the field is rejected. *)
Definition panel_loaded_cores : Z :=
  match int_of_str (strip (form_value self "Нагруженные жилы (nž)")) with
  | Some loaded_cores =>
    if decide (loaded_cores ≠ 2 ∧ loaded_cores ≠ 3)%Z then 3%Z else loaded_cores
  | None => 3%Z
  end.

Definition panel_circuits_count : Z :=
  match int_of_str (strip (form_value self "Кабелей в группе (для S)")) with
  | Some circuits_count => if decide (circuits_count < 1)%Z then 1%Z else circuits_count
  | None => 1%Z
  end.

Definition panel_n_parallel : Z :=
  match int_of_str (strip (form_value self "Параллельные кабели (n∥)")) with
  | Some n_parallel => if decide (n_parallel < 1)%Z then 1%Z else n_parallel
  | None => 1%Z
  end.

(** [t_coeff]: the temperature factor, when the insulation is selected, the
    temperature is a number and the factor is found and positive. *)
Definition panel_t_coeff : py (option R) :=
  match INSULATION_META self !! form_value self "Tip-IZOLACIJE",
        _try_parse_float (form_value self "Температура, °C") with
  | Some insulation_meta, Some temperature =>
    temp_factor ←
      _lookup_temperature_factor self (meta_key insulation_meta)
        (_medium_selected_key self) temperature;
    match temp_factor with
    | Some temp_factor =>
      if decide (temp_factor > 0) then Return (Some temp_factor) else Return None
    | None => Return None
    end
  | _, _ => Return None
  end.

(** The numeric fields after their range checks. *)
Definition panel_eta_coeff : option R :=
  match _try_parse_float (form_value self "η") with
  | Some eta_value =>
    if decide (eta_value <= 0 ∨ eta_value > 1) then None else Some eta_value
  | None => None
  end.

Definition panel_pj : option R :=
  match _try_parse_float (form_value self "Pi, W"),
        _try_parse_float (form_value self "Kj") with
  | Some pi, Some kj => Some (pi * kj)
  | _, _ => None
  end.

Definition panel_cos_phi : option R :=
  match _try_parse_float (form_value self "cos φ") with
  | Some cos_phi => if decide (¬ (0 < cos_phi ∧ cos_phi <= 1)) then None else Some cos_phi
  | None => None
  end.

Definition panel_area : option R :=
  match _try_parse_float (form_value self "Presek, mm²") with
  | Some area => if decide (area <= 0) then None else Some area
  | None => None
  end.

Definition panel_length : option R :=
  match _try_parse_float (form_value self "Dužina L, m") with
  | Some length => if decide (length < 0) then None else Some length
  | None => None
  end.

(** [icalc_total], [icalc_per_cable] and [phase_factor]. *)
Definition panel_icalc (loaded_cores n_parallel : Z)
    : py (option R * option R * option R) :=
  match panel_pj, panel_cos_phi, int_of_str (form_value self "U"), panel_eta_coeff with
  | Some pj, Some cos_phi, Some voltage_value, Some eta_coeff =>
    if decide (voltage_value = 0%Z) then Return (None, None, None)
    else
      phase ← phase_factor loaded_cores;
      let denominator := phase * IZR voltage_value * cos_phi in
      if decide (denominator = 0) then Return (None, None, Some phase)
      else
        pj_eta ← truediv pj eta_coeff;
        icalc_total ← truediv pj_eta denominator;
        icalc_per_cable ← truediv icalc_total (IZR (Z.max n_parallel 1));
        Return (Some icalc_total, Some icalc_per_cable, Some phase)
  | _, _, _, _ => Return (None, None, None)
  end.

(** [r_per_km] and [x_per_km]. *)
Definition panel_impedance : py (option R * option R) :=
  match panel_area, INSULATION_META self !! form_value self "Tip-IZOLACIJE" with
  | Some area, Some insulation_meta =>
    '(r_per_km, x_per_km) ←
      _calculate_line_impedance self (form_value self "Tip-PROVODNIKA")
        (meta_theta insulation_meta) area (strip (form_value self "Način polaganja"));
    Return (Some r_per_km, Some x_per_km)
  | _, _ => Return (None, None)
  end.

Definition panel_base_ampacity (loaded_cores : Z) : py (option R) :=
  match panel_area, INSULATION_META self !! form_value self "Tip-IZOLACIJE" with
  | Some area, Some insulation_meta =>
    _lookup_ampacity self (meta_key insulation_meta) (form_value self "Tip-PROVODNIKA")
      (strip (form_value self "Način polaganja")) area loaded_cores
  | _, _ => Return None
  end.

(** The verdict on the ampacity. *)
Definition ampacity_verdict (base_ampacity iz_one icalc_per_cable : option R) : status :=
  match base_ampacity with
  | None => NA
  | Some _ =>
    match iz_one, icalc_per_cable with
    | Some iz_one, Some icalc_per_cable =>
      if decide (icalc_per_cable <= iz_one) then OK else NE
    | _, _ => Dash
    end
  end.

(** [delta_u], computed in place with the formula of [_drop_pct]. *)
Definition panel_delta_u (n_parallel : Z) (icalc_total phase r_per_km x_per_km : option R)
    : py (option R) :=
  match icalc_total, phase, panel_length, panel_cos_phi, r_per_km, x_per_km,
        int_of_str (form_value self "U") with
  | Some icalc_total, Some phase, Some length, Some cos_phi,
    Some r_per_km, Some x_per_km, Some voltage_value =>
    if decide (voltage_value = 0%Z) then Return None
    else
      let divider := IZR (Z.max n_parallel 1) in
      r_per_meter ← truediv (r_per_km / 1000) divider;
      x_per_meter ← truediv (x_per_km / 1000) divider;
      sin_phi ← math_sqrt (Rmax 0 (1 - Rmin 1 cos_phi ^ 2));
      let impedance_drop := r_per_meter * cos_phi + x_per_meter * sin_phi in
      delta_u ←
        truediv (phase * icalc_total * impedance_drop * length * 100) (IZR voltage_value);
      Return (Some delta_u)
  | _, _, _, _, _, _, _ => Return None
  end.

(** The verdict on the drop; [None] when nothing is set. *)
Definition drop_verdict (delta_u limit_delta : option R) : option status :=
  match delta_u, limit_delta with
  | Some delta_u, Some limit_delta =>
    Some (if decide (delta_u <= limit_delta) then OK else NE)
  | Some _, None => Some Dash
  | None, _ => None
  end.

(** The compatibility verdict shown. *)
Definition compat_verdict (base_ampacity : option R) (ampacity_status : status)
    (drop_status : option status) (protection_status : status) : compatibility :=
  match base_ampacity with
  | None => compat_na
  | Some _ =>
    let statuses := [Some ampacity_status; drop_status; Some protection_status] in
    if forallb (λ status, bool_decide (status = Some OK)) statuses then compat_ok
    else if existsb (λ status, bool_decide (status = Some NE)) statuses then compat_fail
    else compat_na
  end.

Definition _update_intermediate_results : py intermediate_results :=
  let limit_delta := DROP_LIMIT_KEYS self !! form_value self "Ключ ΔU" in
  let loaded_cores := panel_loaded_cores in
  let circuits_count := panel_circuits_count in
  let n_parallel := panel_n_parallel in
  group_factor ← _lookup_group_factor self (effective_circuits circuits_count n_parallel);
  let s_coeff := group_factor in
  t_coeff ← panel_t_coeff;
  '(icalc_total, icalc_per_cable, phase) ← panel_icalc loaded_cores n_parallel;
  '(r_per_km, x_per_km) ← panel_impedance;
  base_ampacity ← panel_base_ampacity loaded_cores;
  let iz_one :=
    match base_ampacity, t_coeff with
    | Some base_ampacity, Some t_coeff => Some (base_ampacity * s_coeff * t_coeff)
    | _, _ => None
    end in
  let in_range_alert :=
    match icalc_total, iz_one with
    | Some icalc_total, Some iz_one =>
      bool_decide (iz_one * IZR n_parallel + 1e-9 < icalc_total)
    | _, _ => false
    end in
  let ampacity_status := ampacity_verdict base_ampacity iz_one icalc_per_cable in
  delta_u ← panel_delta_u n_parallel icalc_total phase r_per_km x_per_km;
  let drop_status := drop_verdict delta_u limit_delta in
  let protection := protection_of_form self iz_one icalc_total n_parallel in
  Return {|
    ir_loaded_cores := loaded_cores;
    ir_circuits_count := circuits_count;
    ir_n_parallel := n_parallel;
    ir_s_coeff := s_coeff;
    ir_t_coeff := t_coeff;
    ir_pj := panel_pj;
    ir_icalc_total := icalc_total;
    ir_icalc_per_cable := icalc_per_cable;
    ir_r_per_km := r_per_km;
    ir_base_ampacity := base_ampacity;
    ir_iz_one := iz_one;
    ir_in_range_alert := in_range_alert;
    ir_ampacity_status := ampacity_status;
    ir_delta_u := delta_u;
    ir_drop_status := drop_status;
    ir_protection := protection;
    ir_compat_display :=
      compat_verdict base_ampacity ampacity_status drop_status
        (protection_status protection)
  |}.
End Panel.

(** The sample form with a section, a temperature, a breaker rating and a
    multiplier filled in. *)
Definition panel_form : gmap string string :=
  <["Presek, mm²" := "1.5"]> (<["Температура, °C" := "30"]>
    (<["In, A" := "10"]> (<["k" := "1.45"]> sample_form))).

Definition panel_sample : CableCalcApp := sample_app [1.5; 2.5] panel_form [].

(** ** Writing the selected pair to the form *)

(** The application with another content of the form. *)
Definition with_form (self : CableCalcApp) (form : gmap string string) : CableCalcApp := {|
  INSULATION_META := INSULATION_META self;
  STANDARD_SECTIONS := STANDARD_SECTIONS self;
  STANDARD_BREAKER_RATINGS := STANDARD_BREAKER_RATINGS self;
  DROP_LIMIT_KEYS := DROP_LIMIT_KEYS self;
  RESISTIVITY_20 := RESISTIVITY_20 self;
  TEMP_COEFF := TEMP_COEFF self;
  AMPACITY_BASE := AMPACITY_BASE self;
  AMPACITY_INSULATION_FACTORS := AMPACITY_INSULATION_FACTORS self;
  AMPACITY_LOADED_FACTORS := AMPACITY_LOADED_FACTORS self;
  GROUPING_FACTORS := GROUPING_FACTORS self;
  KT_V_TABLE := KT_V_TABLE self;
  KT_Z_TABLE := KT_Z_TABLE self;
  REACTANCE_DATA := REACTANCE_DATA self;
  _form_values := form;
  _table_data := _table_data self;
  _medium_selected_key := _medium_selected_key self
|}.

(** The two [set] calls [select_optimal_parameters] makes when the search
    has found a pair: the section field gets [area_text], the text written
    for the area, and the breaker field gets the catalogue text of the
    rating.  The refresh of the panel that follows runs on this state. *)
Definition apply_selection (self : CableCalcApp) (area_text breaker_str : string)
    : CableCalcApp :=
  with_form self
    (<["In, A" := breaker_str]> (<["Presek, mm²" := area_text]> (_form_values self))).

(** The sample form before a search, with the temperature and the
    multiplier filled in. *)
Definition search_form : gmap string string :=
  <["Температура, °C" := "30"]> (<["k" := "1.45"]> sample_form).

Definition search_sample : CableCalcApp := sample_app [1.5; 2.5] search_form [].

(** * Properties *)

(** ** Helpers on the Python layer *)

Lemma bind_Return {A B} (f : A → py B) (a : A) : (Return a ≫= f) = f a.
Proof. reflexivity. Qed.

Lemma bind_returns {A B} (f : A → py B) (m : py A) :
  returns m → (∀ a, m = Return a → returns (f a)) → returns (m ≫= f).
Proof. intros [a ->] Hf. apply (Hf a eq_refl). Qed.

Lemma truediv_Return (x y : R) : y ≠ 0 → truediv x y = Return (x / y).
Proof. intros Hy. unfold truediv. by rewrite decide_False. Qed.

Lemma math_sqrt_Return (x : R) : 0 <= x → math_sqrt x = Return (sqrt x).
Proof. intros Hx. unfold math_sqrt. rewrite decide_False; [done | lra]. Qed.

Lemma foldl_max_ge (ks : list Z) (k : Z) : (k ≤ foldl Z.max k ks)%Z.
Proof.
  revert k. induction ks as [|x ks IH]; intros k; simpl; [lia |].
  specialize (IH (Z.max k x)). lia.
Qed.

Lemma foldl_max_upper (ks : list Z) (k x : Z) : x ∈ ks → (x ≤ foldl Z.max k ks)%Z.
Proof.
  revert k. induction ks as [|y ks IH]; intros k Hx; simpl.
  - by apply elem_of_nil in Hx.
  - apply elem_of_cons in Hx as [-> | Hx].
    + pose proof (foldl_max_ge ks (Z.max k y)). lia.
    + by apply IH.
Qed.

Lemma foldl_max_elem (ks : list Z) (k : Z) : foldl Z.max k ks ∈ k :: ks.
Proof.
  revert k. induction ks as [|y ks IH]; intros k; simpl; [set_solver |].
  specialize (IH (Z.max k y)).
  apply elem_of_cons in IH as [IH | IH].
  - rewrite IH. destruct (Z.max_spec k y) as [[_ ->] | [_ ->]]; set_solver.
  - set_solver.
Qed.

Lemma max_key_spec {V} (d : gmap Z V) (k : Z) :
  max_key d = Return k ↔ is_max_key d k.
Proof.
  unfold max_key, is_max_key.
  assert (Hkeys : ∀ x, x ∈ (map_to_list d).*1 ↔ is_Some (d !! x)).
  { intros x. rewrite list_elem_of_fmap. split.
    - intros [[x' v] [-> Hin]]. apply elem_of_map_to_list in Hin. by exists v.
    - intros [v Hv]. exists (x, v). split; [done |]. by apply elem_of_map_to_list. }
  destruct ((map_to_list d).*1) as [|k0 ks] eqn:E.
  - split; [done |]. intros [Hk _]. apply Hkeys in Hk. by apply elem_of_nil in Hk.
  - split.
    + intros [= <-]. split.
      * apply Hkeys, foldl_max_elem.
      * intros k' Hk'. apply Hkeys, elem_of_cons in Hk' as [-> | Hk'].
        -- apply foldl_max_ge.
        -- by apply foldl_max_upper.
    + intros [Hk Hmax]. f_equal. apply Z.le_antisymm.
      * apply Hmax, Hkeys, foldl_max_elem.
      * apply Hkeys, elem_of_cons in Hk as [-> | Hk].
        -- apply foldl_max_ge.
        -- by apply foldl_max_upper.
Qed.

(** ** Grouping factor *)

Lemma effective_circuits_ge_1 (circuits_count n_parallel : Z) :
  (1 ≤ circuits_count)%Z → (1 ≤ effective_circuits circuits_count n_parallel)%Z.
Proof. intros Hc. unfold effective_circuits. case_decide; lia. Qed.

Lemma lookup_group_factor_unit (self : CableCalcApp) (circuits : Z) :
  (circuits ≤ 1)%Z → _lookup_group_factor self circuits = Return 1.
Proof. intros Hc. unfold _lookup_group_factor. by rewrite decide_True. Qed.

Lemma lookup_group_factor_flat (self : CableCalcApp) (circuits kmax : Z) (vmax : R) :
  (1 < circuits)%Z → is_max_key (GROUPING_FACTORS self) kmax →
  GROUPING_FACTORS self !! kmax = Some vmax → (kmax ≤ circuits)%Z →
  _lookup_group_factor self circuits = Return vmax.
Proof.
  intros Hc Hmax Hv Hge. unfold _lookup_group_factor.
  rewrite decide_False by lia.
  apply max_key_spec in Hmax. rewrite Hmax, bind_Return.
  rewrite decide_True by lia. unfold getitem. by rewrite Hv.
Qed.

Lemma lookup_group_factor_below (self : CableCalcApp) (circuits kmax : Z) (vmax : R) :
  (1 < circuits)%Z → is_max_key (GROUPING_FACTORS self) kmax →
  GROUPING_FACTORS self !! kmax = Some vmax → (circuits < kmax)%Z →
  _lookup_group_factor self circuits
  = Return (default vmax (GROUPING_FACTORS self !! circuits)).
Proof.
  intros Hc Hmax Hv Hlt. unfold _lookup_group_factor.
  rewrite decide_False by lia.
  apply max_key_spec in Hmax. rewrite Hmax, bind_Return.
  rewrite decide_False by lia. unfold getitem. by rewrite Hv.
Qed.

(** C5, as the code has it.  For circuit and parallel counts of at least 1
    the effective count is [max(1, circuits + parallel - 1)] when
    [parallel > 1] and the circuit count otherwise, and it is at least 1.
    An effective count of exactly 1 gives 1.0 whatever the table holds.
    For an effective count above 1 and a table whose largest key is [kmax]:
    at or above [kmax] the result is the value at [kmax]; below [kmax] it is
    the value at the exact key when that key is defined, and the value at
    [kmax] when it is not. *)
Theorem group_factor_by_design (self : CableCalcApp) (circuits_count n_parallel : Z) :
  (1 ≤ circuits_count)%Z → (1 ≤ n_parallel)%Z →
  let e := effective_circuits circuits_count n_parallel in
  e = (if decide (n_parallel > 1)%Z then Z.max 1 (circuits_count + n_parallel - 1)
       else circuits_count)
  ∧ (1 ≤ e)%Z
  ∧ (e = 1%Z → group_factor self circuits_count n_parallel = Return 1)
  ∧ (∀ kmax vmax,
       (1 < e)%Z → is_max_key (GROUPING_FACTORS self) kmax →
       GROUPING_FACTORS self !! kmax = Some vmax →
       ((kmax ≤ e)%Z → group_factor self circuits_count n_parallel = Return vmax)
       ∧ (∀ v, (e < kmax)%Z → GROUPING_FACTORS self !! e = Some v →
               group_factor self circuits_count n_parallel = Return v)
       ∧ ((e < kmax)%Z → GROUPING_FACTORS self !! e = None →
               group_factor self circuits_count n_parallel = Return vmax)).
Proof.
  intros Hc Hp e. split; [reflexivity |].
  split; [by apply effective_circuits_ge_1 |].
  split.
  - intros He. apply lookup_group_factor_unit. fold e. lia.
  - intros kmax vmax He Hmax Hv. unfold group_factor. fold e. repeat split.
    + intros Hge. by apply lookup_group_factor_flat with kmax.
    + intros v Hlt Hev.
      rewrite (lookup_group_factor_below self e kmax vmax) by done. by rewrite Hev.
    + intros Hlt Hev.
      rewrite (lookup_group_factor_below self e kmax vmax) by done. by rewrite Hev.
Qed.

Lemma grouping_sample_max : is_max_key grouping_sample 2.
Proof.
  unfold grouping_sample. split.
  - exists 0.8. by simplify_map_eq.
  - intros k' [v Hv].
    destruct (decide (k' = 1%Z)) as [-> | H1]; [lia |].
    destruct (decide (k' = 2%Z)) as [-> | H2]; [lia |].
    by simplify_map_eq.
Qed.

Lemma group_factor_by_design_witness :
  let self := with_grouping empty_app grouping_sample in
  group_factor self 3 1 = Return 0.8 ∧ group_factor self 1 2 = Return 0.8
  ∧ group_factor self 1 1 = Return 1.
Proof.
  intros self.
  destruct (group_factor_by_design self 3 1) as (_ & _ & _ & H31); [lia | lia |].
  destruct (group_factor_by_design self 1 2) as (_ & _ & _ & H12); [lia | lia |].
  destruct (group_factor_by_design self 1 1) as (_ & _ & H11 & _); [lia | lia |].
  destruct (H31 2%Z 0.8) as (Hflat3 & _); [reflexivity | apply grouping_sample_max | reflexivity |].
  destruct (H12 2%Z 0.8) as (Hflat2 & _); [reflexivity | apply grouping_sample_max | reflexivity |].
  split; [| split].
  - apply Hflat3. by vm_compute.
  - apply Hflat2. by vm_compute.
  - apply H11. reflexivity.
Defined.

(** C5 as stated fails at one circuit and one cable: the key 1 is defined
    (0.9) and lies below the largest key 2, yet the code answers 1.0. *)
Lemma group_factor_exact_key_counterexample :
  let self := with_grouping empty_app grouping_sample in
  effective_circuits 1 1 = 1%Z
  ∧ is_max_key (GROUPING_FACTORS self) 2
  ∧ GROUPING_FACTORS self !! effective_circuits 1 1 = Some 0.9
  ∧ group_factor self 1 1 = Return 1
  ∧ group_factor self 1 1 ≠ Return 0.9.
Proof.
  intros self. split; [reflexivity |].
  split; [apply grouping_sample_max |].
  split; [reflexivity |].
  split; [reflexivity |].
  intros [= Heq]. lra.
Qed.

(** Deciding comparisons of concrete reals. *)
Ltac solve_real :=
  solve [ lra
        | unfold Rabs, Rmax, Rmin; repeat (destruct (Rcase_abs _) || destruct (Rle_dec _ _)); lra
        | intuition (try lra) ].

Ltac decide_real :=
  repeat match goal with
  | |- context [@decide ?P ?d] =>
    first [ rewrite (@decide_True _ P d) by solve_real
          | rewrite (@decide_False _ P d) by solve_real ]
  | |- context [@bool_decide ?P ?d] =>
    first [ rewrite (@bool_decide_eq_true_2 P d) by solve_real
          | rewrite (@bool_decide_eq_false_2 P d) by solve_real ]
  end.

(** The grouping lookup raises on an empty table as soon as more than one
    circuit is asked for; [max()] of an empty [dict] is a [ValueError]. *)
Lemma lookup_group_factor_empty (self : CableCalcApp) (circuits : Z) :
  GROUPING_FACTORS self = ∅ → (1 < circuits)%Z →
  _lookup_group_factor self circuits = Raise ValueError.
Proof.
  intros Hempty Hc. unfold _lookup_group_factor.
  rewrite decide_False by lia. rewrite Hempty.
  unfold max_key. by rewrite map_to_list_empty.
Qed.

(** ** Line impedance and voltage drop *)

Lemma calculate_line_impedance_returns (self : CableCalcApp) (conductor : string)
    (insulation_temp area : R) (laying : string) :
  returns (_calculate_line_impedance self conductor insulation_temp area laying).
Proof.
  unfold _calculate_line_impedance.
  destruct (RESISTIVITY_20 self !! conductor) as [rho_20|]; [| by eexists].
  destruct (TEMP_COEFF self !! conductor) as [alpha|]; [| by eexists].
  destruct (decide (area <= 0)) as [Ha | Ha].
  - rewrite bind_Return. by eexists.
  - rewrite truediv_Return by lra. rewrite !bind_Return. by eexists.
Qed.

Lemma divider_nonzero (n_parallel : Z) : IZR (Z.max n_parallel 1) ≠ 0.
Proof.
  assert (H : (1 ≤ Z.max n_parallel 1)%Z) by lia.
  apply IZR_le in H. lra.
Qed.

Lemma divider_positive (n_parallel : Z) : 0 < IZR (Z.max n_parallel 1).
Proof.
  assert (H : (1 ≤ Z.max n_parallel 1)%Z) by lia.
  apply IZR_le in H. lra.
Qed.

Lemma sin_phi_defined (cos_phi : R) :
  math_sqrt (Rmax 0 (1 - Rmin 1 cos_phi ^ 2))
  = Return (sqrt (Rmax 0 (1 - Rmin 1 cos_phi ^ 2))).
Proof. apply math_sqrt_Return, Rmax_l. Qed.

Lemma phase_factor_Return (loaded_cores : Z) :
  phase_factor loaded_cores = Return (if decide (loaded_cores = 2%Z) then 2 else sqrt 3).
Proof.
  unfold phase_factor. case_decide; [done |]. apply math_sqrt_Return. lra.
Qed.

Lemma phase_factor_positive (loaded_cores : Z) :
  0 < (if decide (loaded_cores = 2%Z) then 2 else sqrt 3).
Proof. case_decide; [lra |]. apply sqrt_lt_R0. lra. Qed.

(** The value [_drop_pct] computes once the impedance is known. *)
Lemma drop_pct_unfold (self : CableCalcApp) (U cos_phi L_m : R) (conductor : string)
    (insulation_theta area_mm2 : R) (method : string) (loaded_cores n_parallel : Z)
    (icalc_total r_km x_km : R) :
  _calculate_line_impedance self conductor insulation_theta area_mm2 method
  = Return (r_km, x_km) →
  _drop_pct self U cos_phi L_m conductor insulation_theta area_mm2 method loaded_cores
    n_parallel icalc_total
  = Return
      (if decide (U = 0) then 0
       else
         (if decide (loaded_cores = 2%Z) then 2 else sqrt 3) * icalc_total
         * (r_km / 1000 / IZR (Z.max n_parallel 1) * cos_phi
            + x_km / 1000 / IZR (Z.max n_parallel 1)
              * sqrt (Rmax 0 (1 - Rmin 1 cos_phi ^ 2)))
         * L_m * 100 / U).
Proof.
  intros Himp. unfold _drop_pct. rewrite Himp, bind_Return.
  rewrite !truediv_Return by apply divider_nonzero. rewrite !bind_Return.
  rewrite sin_phi_defined, bind_Return.
  rewrite phase_factor_Return, bind_Return.
  destruct (decide (U = 0)) as [HU | HU]; [done |].
  rewrite truediv_Return by done. by rewrite bind_Return.
Qed.


(** The call never raises, for any voltage. *)
Lemma drop_pct_returns (self : CableCalcApp) (U cos_phi L_m : R) (conductor : string)
    (insulation_theta area_mm2 : R) (method : string) (loaded_cores n_parallel : Z)
    (icalc_total : R) :
  returns (_drop_pct self U cos_phi L_m conductor insulation_theta area_mm2 method
             loaded_cores n_parallel icalc_total).
Proof.
  destruct (calculate_line_impedance_returns self conductor insulation_theta area_mm2 method)
    as [[r_km x_km] Himp].
  rewrite (drop_pct_unfold _ _ _ _ _ _ _ _ _ _ _ _ _ Himp). by eexists.
Qed.

Lemma drop_pct_nonneg_value (phase icalc_total r_km x_km divider cos_phi sin_phi L_m U : R) :
  0 < phase → 0 <= icalc_total → 0 <= r_km → 0 <= x_km → 0 < divider →
  0 < cos_phi → 0 <= sin_phi → 0 <= L_m → 0 < U →
  0 <= phase * icalc_total
       * (r_km / 1000 / divider * cos_phi + x_km / 1000 / divider * sin_phi)
       * L_m * 100 / U.
Proof.
  intros Hph Hi Hr Hx Hd Hc Hs HL HU.
  assert (Hrm : 0 <= r_km / 1000 / divider).
  { apply Rmult_le_pos; [lra |]. left. by apply Rinv_0_lt_compat. }
  assert (Hxm : 0 <= x_km / 1000 / divider).
  { apply Rmult_le_pos; [lra |]. left. by apply Rinv_0_lt_compat. }
  assert (Hz : 0 <= r_km / 1000 / divider * cos_phi + x_km / 1000 / divider * sin_phi).
  { apply Rplus_le_le_0_compat; apply Rmult_le_pos; lra. }
  apply Rmult_le_pos; [| left; by apply Rinv_0_lt_compat].
  apply Rmult_le_pos; [| lra].
  apply Rmult_le_pos; [| lra].
  apply Rmult_le_pos; [| done].
  apply Rmult_le_pos; lra.
Qed.

(** C7, as the code has it.  For a positive voltage, a power factor in
    (0, 1], a non-negative length, a non-negative total current and a line
    impedance whose resistance and reactance per kilometre are both
    non-negative, [_drop_pct] returns a value that is not negative. *)
Theorem drop_pct_nonneg (self : CableCalcApp) (U cos_phi L_m : R) (conductor : string)
    (insulation_theta area_mm2 : R) (method : string) (loaded_cores n_parallel : Z)
    (icalc_total r_km x_km : R) :
  0 < U → 0 < cos_phi <= 1 → 0 <= L_m → 0 <= icalc_total →
  _calculate_line_impedance self conductor insulation_theta area_mm2 method
  = Return (r_km, x_km) →
  0 <= r_km → 0 <= x_km →
  ∃ drop,
    _drop_pct self U cos_phi L_m conductor insulation_theta area_mm2 method loaded_cores
      n_parallel icalc_total = Return drop
    ∧ 0 <= drop.
Proof.
  intros HU Hc HL Hi Himp Hr Hx.
  rewrite (drop_pct_unfold _ _ _ _ _ _ _ _ _ _ _ _ _ Himp).
  eexists. split; [reflexivity |].
  rewrite decide_False by lra.
  apply drop_pct_nonneg_value; try lra.
  - apply phase_factor_positive.
  - apply divider_positive.
  - apply sqrt_pos.
Qed.

Lemma sample_impedance (sections : list R) (form : gmap string string)
    (table : list (gmap string string)) (theta area : R) :
  0 < area → area <= 95 →
  _calculate_line_impedance (sample_app sections form table) "Cu" theta area "C"
  = Return (0.0175 * (1 + 0.004 * (theta - 20)) / area * 1000, 0.08).
Proof.
  intros Ha Hb. unfold _calculate_line_impedance.
  change (RESISTIVITY_20 (sample_app sections form table) !! "Cu") with (Some 0.0175).
  change (TEMP_COEFF (sample_app sections form table) !! "Cu") with (Some 0.004).
  cbv beta iota.
  rewrite decide_False by lra.
  rewrite truediv_Return by lra. rewrite !bind_Return.
  reflexivity.
Qed.

Lemma drop_pct_nonneg_witness :
  ∃ drop,
    _drop_pct (sample_app [] ∅ []) 230 1 10 "Cu" 70 1.5 "C" 2 1 5 = Return drop
    ∧ 0 <= drop.
Proof.
  apply (drop_pct_nonneg (sample_app [] ∅ []) 230 1 10 "Cu" 70 1.5 "C" 2 1 5
           (0.0175 * (1 + 0.004 * (70 - 20)) / 1.5 * 1000) 0.08); try lra.
  apply sample_impedance; lra.
Defined.

(** C7 as stated fails when the total current is negative, an argument the
    claim leaves unconstrained: copper at 20 °C, 1 mm², 1 m, 1 V, power
    factor 1 and a current of -1 A give -3.5 %. *)
Lemma drop_pct_negative_current_counterexample :
  0 < 1 ∧ 0 < 1 <= 1 ∧ 0 <= 1
  ∧ _drop_pct (sample_app [] ∅ []) 1 1 1 "Cu" 20 1 "C" 2 1 (-1) = Return (-3.5)
  ∧ ¬ (0 <= -3.5).
Proof.
  split; [lra |]. split; [lra |]. split; [lra |]. split; [| lra].
  rewrite (drop_pct_unfold _ _ _ _ _ _ _ _ _ _ _ _ _
             (sample_impedance [] ∅ [] 20 1 ltac:(lra) ltac:(lra))).
  f_equal. decide_real.
  replace (Rmax 0 (1 - Rmin 1 1 ^ 2)) with 0 by (unfold Rmax, Rmin; repeat destruct (Rle_dec _ _); lra).
  rewrite sqrt_0. change (Z.max 1 1) with 1%Z. lra.
Qed.

(** C9.  The grouping-factor lookup is not total: with an empty grouping
    table, which is what a missing or malformed [GROUPING_FACTORS] entry
    leaves behind, asking for two circuits raises [ValueError] instead of
    answering "not found".  The ampacity and temperature lookups guard the
    empty table ([if not table: return None]); this one does not. *)
Theorem group_factor_empty_table_raises :
  GROUPING_FACTORS empty_app = ∅
  ∧ _lookup_group_factor empty_app 2 = Raise ValueError
  ∧ group_factor empty_app 2 1 = Raise ValueError
  ∧ ¬ returns (_lookup_group_factor empty_app 2).
Proof.
  split; [reflexivity |].
  assert (H : _lookup_group_factor empty_app 2 = Raise ValueError)
    by (by apply lookup_group_factor_empty).
  split; [exact H |]. split; [exact H |].
  rewrite H. intros [a Ha]. discriminate.
Qed.

(** ** Protection verdict *)

Lemma not_positive_false (x : R) : 0 < x → not_positive (Some x) = false.
Proof. intros Hx. unfold not_positive. apply bool_decide_eq_false_2. lra. Qed.

Lemma not_positive_true (x : R) : x <= 0 → not_positive (Some x) = true.
Proof. intros Hx. unfold not_positive. by apply bool_decide_eq_true_2. Qed.

Lemma protection_check_available (iz_one icalc_total in_value k_value : R) (n_parallel : Z) :
  0 < in_value → 0 < k_value →
  protection_status
    (protection_check (Some iz_one) (Some icalc_total) n_parallel (Some in_value) (Some k_value))
  = if bool_decide (icalc_total <= in_value ∧ in_value <= iz_one * IZR n_parallel)
       && bool_decide (in_value * k_value <= 1.45 * (iz_one * IZR n_parallel))
    then OK else NE.
Proof.
  intros Hi Hk. unfold protection_check.
  rewrite (not_positive_false in_value Hi), (not_positive_false k_value Hk).
  cbv beta iota zeta.
  by destruct (bool_decide _ && bool_decide _).
Qed.

Lemma protection_check_unavailable (iz_one icalc_total : option R) (n_parallel : Z)
    (in_value k_value : option R) :
  unavailable in_value ∨ unavailable k_value →
  protection_status (protection_check iz_one icalc_total n_parallel in_value k_value) = Dash.
Proof.
  intros Hun. unfold protection_check.
  assert (Hin : unavailable in_value →
                (if not_positive in_value then None else in_value) = None).
  { intros [-> | (x & -> & Hx)]; [done |]. by rewrite not_positive_true. }
  assert (Hk : unavailable k_value →
               (if not_positive k_value then None else k_value) = None).
  { intros [-> | (x & -> & Hx)]; [done |]. by rewrite not_positive_true. }
  destruct Hun as [Hun | Hun].
  - rewrite (Hin Hun). cbv beta iota zeta.
    by destruct iz_one, icalc_total.
  - rewrite (Hk Hun). cbv beta iota zeta.
    destruct (if not_positive in_value then None else in_value);
      by destruct iz_one, icalc_total.
Qed.

(** C2, as the code has it.  When the ampacity, the design current, a
    positive breaker rating and a positive multiplier are all at hand, the
    verdict is OK exactly when [Icalc ≤ In ≤ Iz_total] and
    [In·k ≤ 1.45·Iz_total], and NE otherwise.  When the breaker rating or the
    multiplier is missing or not positive, the verdict is the dash "—",
    neither OK nor NE nor "N/A".  "N/A" is the verdict when both are at hand
    but the ampacity or the design current is not. *)
Theorem protection_verdict_by_design (iz_one icalc_total : option R) (n_parallel : Z)
    (in_value k_value : option R) :
  let verdict :=
    protection_status (protection_check iz_one icalc_total n_parallel in_value k_value) in
  (∀ iz ic i k,
     iz_one = Some iz → icalc_total = Some ic → in_value = Some i → k_value = Some k →
     0 < i → 0 < k →
     (verdict = OK ↔ (ic <= i ∧ i <= iz * IZR n_parallel)
                     ∧ i * k <= 1.45 * (iz * IZR n_parallel))
     ∧ (verdict ≠ OK → verdict = NE))
  ∧ (unavailable in_value ∨ unavailable k_value → verdict = Dash)
  ∧ (∀ i k, in_value = Some i → k_value = Some k → 0 < i → 0 < k →
     iz_one = None ∨ icalc_total = None → verdict = NA).
Proof.
  intros verdict. subst verdict. split; [| split].
  - intros iz ic i k -> -> -> -> Hi Hk.
    rewrite protection_check_available by done.
    destruct (bool_decide (ic <= i ∧ i <= iz * IZR n_parallel)) eqn:E1;
      destruct (bool_decide (i * k <= 1.45 * (iz * IZR n_parallel))) eqn:E2; simpl.
    all: try apply bool_decide_eq_true_1 in E1.
    all: try apply bool_decide_eq_true_1 in E2.
    all: try apply bool_decide_eq_false_1 in E1.
    all: try apply bool_decide_eq_false_1 in E2.
    all: split; [split; [intros; try done; try discriminate | intros [? ?]; try done] | done].
  - apply protection_check_unavailable.
  - intros i k -> -> Hi Hk Hmiss. unfold protection_check.
    rewrite (not_positive_false i Hi), (not_positive_false k Hk).
    cbv beta iota zeta.
    destruct Hmiss as [-> | ->]; [done |]. by destruct iz_one.
Qed.

Lemma protection_verdict_by_design_witness :
  protection_status (protection_check (Some 19.5) (Some 5) 1 (Some 10) (Some 1.45)) = OK
  ∧ protection_status (protection_check (Some 19.5) (Some 5) 1 (Some 10) None) = Dash
  ∧ protection_status (protection_check None (Some 5) 1 (Some 10) (Some 1.45)) = NA.
Proof.
  destruct (protection_verdict_by_design (Some 19.5) (Some 5) 1 (Some 10) (Some 1.45))
    as (Hok & _ & _).
  destruct (protection_verdict_by_design (Some 19.5) (Some 5) 1 (Some 10) None)
    as (_ & Hdash & _).
  destruct (protection_verdict_by_design None (Some 5) 1 (Some 10) (Some 1.45))
    as (_ & _ & Hna).
  split; [| split].
  - destruct (Hok 19.5 5 10 1.45) as [Hiff _]; try done; try lra.
    apply Hiff. lra.
  - apply Hdash. right. by left.
  - apply (Hna 10 1.45); try done; try lra. by left.
Defined.

(** C2 as stated fails on its second half: with the breaker field empty the
    verdict is the dash "—", not "N/A". *)
Lemma protection_verdict_dash_counterexample :
  protection_status (protection_check (Some 19.5) (Some 5) 1 None (Some 1.45)) = Dash
  ∧ protection_status (protection_check (Some 19.5) (Some 5) 1 None (Some 1.45)) ≠ NA.
Proof.
  assert (H : protection_status
                (protection_check (Some 19.5) (Some 5) 1 None (Some 1.45)) = Dash).
  { apply protection_check_unavailable. left. by left. }
  split; [exact H |]. rewrite H. discriminate.
Qed.

(** ** Chain accumulator *)

Section ChainFacts.
Context `{Builtins} (self : CableCalcApp).
Context (circuit form_od form_do form_l_norm form_area_norm : string).

Abbreviation walk := (chain_walk self circuit form_od form_do form_l_norm form_area_norm).
Abbreviation found_by := (chain_row_found circuit form_od form_do form_l_norm form_area_norm).

Lemma chain_row_found_do (current : string) (row : gmap string string) :
  found_by current row = true →
  strip (get_str row "Strujni krug" "") = circuit
  ∧ strip (get_str row "DO" "") = current.
Proof.
  unfold chain_row_found.
  destruct (decide (strip (get_str row "Strujni krug" "") ≠ circuit)) as [Hc | Hc];
    [done |].
  destruct (decide (strip (get_str row "DO" "") ≠ current)) as [Hd | Hd]; [done |].
  intros _. split; by apply dec_stable.
Qed.

Lemma chain_walk_stop (fuel : nat) (visited : gset string) (current : string) (total : R) :
  current ≠ "" → current ∉ visited →
  List.find (found_by current) (_table_data self) = None →
  walk (S fuel) visited current total = Some total.
Proof.
  intros Hne Hnew Hfind. simpl. rewrite decide_True by done. by rewrite Hfind.
Qed.

Lemma chain_walk_step (fuel : nat) (visited : gset string) (current : string) (total : R)
    (found : gmap string string) (drop : R) :
  current ≠ "" → current ∉ visited →
  List.find (found_by current) (_table_data self) = Some found →
  found ≠ ∅ →
  float_of_str (replace_comma (get_str found "ΔU %" "0")) = Some drop →
  walk (S fuel) visited current total
  = walk fuel ({[current]} ∪ visited) (strip (get_str found "OD" "")) (total + drop).
Proof.
  intros Hne Hnew Hfind Hfound Hdrop. simpl.
  rewrite decide_True by done. rewrite Hfind.
  rewrite decide_False by done. by rewrite Hdrop.
Qed.

Lemma chain_ends_size : (size (chain_ends self) ≤ length (_table_data self))%nat.
Proof.
  unfold chain_ends. generalize (_table_data self). intros l.
  induction l as [|row l IH].
  - rewrite fmap_nil, list_to_set_nil, size_empty. done.
  - rewrite fmap_cons, list_to_set_cons, size_union_alt, size_singleton.
    etrans; [| apply le_n_S, IH]. simpl.
    apply le_n_S, subseteq_size.
    intros x [Hx _]%elem_of_difference. exact Hx.
Qed.

(** The walk ends before its fuel does: every step that goes on adds a new
    end point of the table to [visited]. *)
Lemma chain_walk_total (fuel : nat) (visited : gset string) (current : string) (total : R) :
  visited ⊆ chain_ends self → (size (chain_ends self) < fuel + size visited)%nat →
  is_Some (walk fuel visited current total).
Proof.
  revert visited current total.
  induction fuel as [|fuel IH]; intros visited current total Hsub Hsize.
  - apply subseteq_size in Hsub. lia.
  - simpl. case_decide as Hcond; [| by eexists].
    destruct Hcond as [Hne Hnew].
    destruct (List.find (found_by current) (_table_data self)) as [found|] eqn:Hfind;
      [| by eexists].
    case_decide; [by eexists |].
    apply find_some in Hfind as [Hin Hrow].
    apply chain_row_found_do in Hrow as [_ Hdo].
    apply IH.
    + apply union_subseteq. split; [| done].
      apply singleton_subseteq_l. unfold chain_ends.
      apply elem_of_list_to_set, list_elem_of_fmap. exists found.
      split; [done |]. by apply list_elem_of_In.
    + rewrite size_union by set_solver. rewrite size_singleton. lia.
Qed.
End ChainFacts.

(** The chain sum is defined on every table: the bound on the walk is never
    reached. *)
Lemma sum_drop_chain_total `{Builtins} (self : CableCalcApp) (circuit form_od : string) :
  is_Some (_sum_drop_chain_ending_at self circuit form_od).
Proof.
  unfold _sum_drop_chain_ending_at. case_decide; [by eexists |].
  apply chain_walk_total; [set_solver |].
  rewrite size_empty. pose proof (chain_ends_size self). lia.
Qed.

Lemma sum_drop_chain_branch `{Builtins} (self : CableCalcApp) (circuit form_od : string) :
  no_predecessor self circuit form_od →
  _sum_drop_chain_ending_at self circuit form_od = Some 0.
Proof.
  intros Hno. unfold _sum_drop_chain_ending_at. case_decide; [done |].
  simpl. case_decide as Hcond; [| done].
  destruct (List.find _ (_table_data self)) as [found|] eqn:Hfind; [| done].
  apply find_some in Hfind as [Hin Hrow].
  apply chain_row_found_do in Hrow as [Hcircuit Hdo].
  exfalso. apply (Hno found); [by apply list_elem_of_In | done | done].
Qed.

Lemma decimal_float_parts (s : string) (m : Z) (d : nat) :
  Decimal.decimal_parts s = Some (m, d) →
  Decimal.decimal_float s = Some (IZR m / 10 ^ d).
Proof. intros Hparts. unfold Decimal.decimal_float. by rewrite Hparts. Qed.

Lemma chain_row_drop (circuit od do : string) :
  float_of_str (Builtins := Decimal.decimal_builtins)
    (replace_comma (get_str (segment_row circuit od do "1,00") "ΔU %" "0"))
  = Some (100 / 10 ^ 2).
Proof.
  change (float_of_str (Builtins := Decimal.decimal_builtins)) with Decimal.decimal_float.
  replace (get_str (segment_row circuit od do "1,00") "ΔU %" "0") with "1,00".
  - by apply decimal_float_parts.
  - unfold get_str, segment_row. by simplify_map_eq.
Qed.

Lemma segment_row_nonempty (circuit od do drop : string) :
  segment_row circuit od do drop ≠ ∅.
Proof. unfold segment_row. apply insert_non_empty. Qed.

Lemma scenario_E_sum :
  _sum_drop_chain_ending_at (H := Decimal.decimal_builtins) (chain_app "D") "K1" "D" = Some 3.
Proof.
  unfold _sum_drop_chain_ending_at.
  rewrite decide_False by (intros [? | ?]; discriminate).
  cbv zeta.
  change (strip "D") with "D".
  change (length (_table_data (chain_app "D"))) with 3%nat.
  change (from_option strip "" (_form_values (chain_app "D") !! "Deonica DO")) with "E".
  change (from_option (λ s, replace_comma (strip s)) ""
            (_form_values (chain_app "D") !! "Dužina L, m")) with "10".
  change (from_option (λ s, replace_comma (strip s)) ""
            (_form_values (chain_app "D") !! "Presek, mm²")) with "2.5".
  rewrite (chain_walk_step (H := Decimal.decimal_builtins) (chain_app "D")
             "K1" "D" "E" "10" "2.5" 3 ∅ "D" 0 (segment_row "K1" "C" "D" "1,00")
             (100 / 10 ^ 2));
    [| done | apply (bool_decide_unpack _); reflexivity | reflexivity
     | apply segment_row_nonempty | apply chain_row_drop].
  change (strip (get_str (segment_row "K1" "C" "D" "1,00") "OD" "")) with "C".
  rewrite (chain_walk_step (H := Decimal.decimal_builtins) (chain_app "D")
             "K1" "D" "E" "10" "2.5" 2 _ "C" _ (segment_row "K1" "B" "C" "1,00")
             (100 / 10 ^ 2));
    [| done | apply (bool_decide_unpack _); reflexivity | reflexivity
     | apply segment_row_nonempty | apply chain_row_drop].
  change (strip (get_str (segment_row "K1" "B" "C" "1,00") "OD" "")) with "B".
  rewrite (chain_walk_step (H := Decimal.decimal_builtins) (chain_app "D")
             "K1" "D" "E" "10" "2.5" 1 _ "B" _ (segment_row "K1" "A" "B" "1,00")
             (100 / 10 ^ 2));
    [| done | apply (bool_decide_unpack _); reflexivity | reflexivity
     | apply segment_row_nonempty | apply chain_row_drop].
  change (strip (get_str (segment_row "K1" "A" "B" "1,00") "OD" "")) with "A".
  rewrite chain_walk_stop;
    [| done | apply (bool_decide_unpack _); reflexivity | reflexivity].
  f_equal. simpl. lra.
Qed.

(** C3.  Scenario E: with the three records A→B→C→D of circuit K1 in the
    table, each with a stored drop of 1 %, the chain sum for a segment that
    starts at D is 3.  And on any table, for a segment whose start is the end
    of no record of its circuit, the chain sum is 0. *)
Theorem chain_sum_scenario_E :
  _sum_drop_chain_ending_at (H := Decimal.decimal_builtins) (chain_app "D") "K1" "D" = Some 3
  ∧ ∀ (B : Builtins) (self : CableCalcApp) (circuit form_od : string),
      no_predecessor self circuit form_od →
      _sum_drop_chain_ending_at self circuit form_od = Some 0.
Proof.
  split; [apply scenario_E_sum |].
  intros B self circuit form_od. apply sum_drop_chain_branch.
Qed.

Lemma chain_sum_scenario_E_witness :
  no_predecessor (chain_app "X") "K1" "X"
  ∧ _sum_drop_chain_ending_at (H := Decimal.decimal_builtins) (chain_app "X") "K1" "X" = Some 0.
Proof.
  assert (Hno : no_predecessor (chain_app "X") "K1" "X").
  { intros row Hrow _. change (_table_data (chain_app "X")) with chain_table in Hrow.
    unfold chain_table in Hrow.
    repeat (apply elem_of_cons in Hrow as [-> | Hrow]);
      [by vm_compute .. | by apply elem_of_nil in Hrow]. }
  split; [exact Hno |].
  destruct chain_sum_scenario_E as [_ Hbranch].
  by apply Hbranch.
Defined.

(** ** Sorted keys *)

Lemma sorted_head_least {A} (Rel : relation A) (l : list A) (x y : A) :
  StronglySorted Rel l → head l = Some x → y ∈ l → y = x ∨ Rel x y.
Proof.
  intros Hsorted Hhead Hy. destruct l as [|x' l']; [done |].
  injection Hhead as ->. apply StronglySorted_inv in Hsorted as [_ Hall].
  apply elem_of_cons in Hy as [-> | Hy]; [by left |].
  right. rewrite Forall_forall in Hall. by apply Hall.
Qed.

Lemma sorted_last_greatest {A} (Rel : relation A) (l : list A) (x y : A) :
  StronglySorted Rel l → last l = Some x → y ∈ l → y = x ∨ Rel y x.
Proof.
  intros Hsorted Hlast Hy. apply last_Some in Hlast as [l' ->].
  apply elem_of_app in Hy as [Hy | Hy].
  - right. apply (StronglySorted_app_1_elem_of Rel l' [x]); [done | done |].
    apply list_elem_of_singleton. done.
  - left. by apply list_elem_of_singleton in Hy.
Qed.

Lemma sorted_keys_elem {V} (d : gmap Z V) (k : Z) :
  k ∈ sorted_keys d ↔ is_Some (d !! k).
Proof.
  unfold sorted_keys. rewrite merge_sort_Permutation, list_elem_of_fmap. split.
  - intros [[k' v] [-> Hin]]. apply elem_of_map_to_list in Hin. by exists v.
  - intros [v Hv]. exists (k, v). split; [done |]. by apply elem_of_map_to_list.
Qed.

Lemma sorted_keys_sorted {V} (d : gmap Z V) : StronglySorted Z.le (sorted_keys d).
Proof. apply StronglySorted_merge_sort; apply _. Qed.

Lemma sorted_keys_head {V} (d : gmap Z V) (k : Z) :
  head (sorted_keys d) = Some k → is_min_key d k.
Proof.
  intros Hhead. split.
  - apply sorted_keys_elem. by apply head_Some_elem_of.
  - intros k' Hk'. apply sorted_keys_elem in Hk'.
    destruct (sorted_head_least Z.le _ k k' (sorted_keys_sorted d) Hhead Hk'); lia.
Qed.

Lemma sorted_keys_last {V} (d : gmap Z V) (k : Z) :
  last (sorted_keys d) = Some k → is_max_key d k.
Proof.
  intros Hlast. split.
  - apply sorted_keys_elem. by apply last_Some_elem_of.
  - intros k' Hk'. apply sorted_keys_elem in Hk'.
    destruct (sorted_last_greatest Z.le _ k k' (sorted_keys_sorted d) Hlast Hk'); lia.
Qed.

Lemma is_min_key_unique {V} (d : gmap Z V) (k k' : Z) :
  is_min_key d k → is_min_key d k' → k = k'.
Proof. intros [Hk Hmin] [Hk' Hmin']. apply Z.le_antisymm; auto. Qed.

Lemma is_max_key_unique {V} (d : gmap Z V) (k k' : Z) :
  is_max_key d k → is_max_key d k' → k = k'.
Proof. intros [Hk Hmax] [Hk' Hmax']. apply Z.le_antisymm; auto. Qed.

Lemma sorted_keys_ends {V} (d : gmap Z V) (kmin kmax : Z) :
  is_min_key d kmin → is_max_key d kmax →
  head (sorted_keys d) = Some kmin ∧ last (sorted_keys d) = Some kmax.
Proof.
  intros Hmin Hmax.
  assert (Hin : kmin ∈ sorted_keys d) by (apply sorted_keys_elem, Hmin).
  destruct (sorted_keys d) as [|k0 l] eqn:E; [by apply elem_of_nil in Hin |].
  split.
  - simpl. f_equal. apply (is_min_key_unique d); [| done].
    apply sorted_keys_head. by rewrite E.
  - destruct (last (k0 :: l)) as [kn|] eqn:El.
    + f_equal. apply (is_max_key_unique d); [| done].
      apply sorted_keys_last. by rewrite E.
    + by apply last_None in El.
Qed.

(** ** Temperature factor *)

Lemma isclose_false_ne (a b rel_tol abs_tol : R) :
  isclose a b rel_tol abs_tol = false → a ≠ b.
Proof.
  unfold isclose. intros Hclose ->.
  rewrite bool_decide_eq_true_2 in Hclose by done. discriminate.
Qed.

Lemma getitem_Some `{Countable K} {V} (d : gmap K V) (k : K) :
  is_Some (d !! k) → ∃ v, d !! k = Some v ∧ getitem d k = Return v.
Proof. intros [v Hv]. exists v. unfold getitem. by rewrite Hv. Qed.

(** Between the first and the last point of a list there is a pair of
    neighbours around the temperature, and the loop stops at the first one. *)
Lemma temperature_scan_finds (table : gmap Z R) (temperature : R) (l : list Z) (x0 : Z) :
  (∀ k, k ∈ x0 :: l → is_Some (table !! k)) →
  l ≠ [] → IZR x0 <= temperature →
  (∀ xn, last (x0 :: l) = Some xn → temperature <= IZR xn) →
  ∃ v, temperature_scan table temperature (zip (x0 :: l) l) = Return (Some v).
Proof.
  revert x0. induction l as [|x1 l' IH]; intros x0 Hkeys Hne Hlow Hhigh; [done |].
  simpl. destruct (decide (IZR x0 <= temperature ∧ temperature <= IZR x1)) as [Hin | Hout].
  - destruct (getitem_Some table x0) as (lv & _ & ->);
      [apply Hkeys; by apply elem_of_cons; left |].
    destruct (getitem_Some table x1) as (uv & _ & ->);
      [apply Hkeys; apply elem_of_cons; right; by apply elem_of_cons; left |].
    rewrite !bind_Return.
    destruct (isclose (IZR x1) (IZR x0) 1e-9 0) eqn:Hclose; [by eexists |].
    apply isclose_false_ne in Hclose.
    rewrite truediv_Return by lra. rewrite bind_Return. by eexists.
  - assert (Hgt : IZR x1 < temperature).
    { apply Rnot_le_lt. intros Hle. apply Hout. by split. }
    destruct l' as [|x2 l''].
    + exfalso. specialize (Hhigh x1 eq_refl). lra.
    + apply IH.
      * intros k Hk. apply Hkeys. by apply elem_of_cons; right.
      * done.
      * lra.
      * intros xn Hxn. apply Hhigh. by rewrite last_cons_cons.
Qed.

Lemma float_lookup_int (table : gmap Z R) (k : Z) :
  float_lookup table (IZR k) = table !! k.
Proof. unfold float_lookup. rewrite ZfloorZ. by rewrite decide_True. Qed.

Lemma temperature_factor_in_exact (table : gmap Z R) (k : Z) (v : R) :
  table !! k = Some v → temperature_factor_in table (IZR k) = Return (Some v).
Proof.
  intros Hk. unfold temperature_factor_in.
  destruct (head (sorted_keys table)) as [first|] eqn:Hhead.
  - destruct (last (sorted_keys table)) as [final|] eqn:Hlast.
    + apply sorted_keys_head in Hhead as [_ Hmin].
      apply sorted_keys_last in Hlast as [_ Hmax].
      assert (H1 : (first ≤ k)%Z) by (apply Hmin; by exists v).
      assert (H2 : (k ≤ final)%Z) by (apply Hmax; by exists v).
      apply IZR_le in H1, H2.
      rewrite decide_False by lra.
      by rewrite float_lookup_int, Hk.
    + apply last_None in Hlast. by rewrite Hlast in Hhead.
  - apply head_None in Hhead.
    assert (Hin : k ∈ sorted_keys table) by (apply sorted_keys_elem; by exists v).
    rewrite Hhead in Hin. by apply elem_of_nil in Hin.
Qed.

Lemma temperature_factor_in_range (table : gmap Z R) (kmin kmax : Z) (temperature : R) :
  is_min_key table kmin → is_max_key table kmax →
  ∃ result,
    temperature_factor_in table temperature = Return result
    ∧ (result = None ↔ temperature < IZR kmin ∨ temperature > IZR kmax).
Proof.
  intros Hmin Hmax. unfold temperature_factor_in.
  destruct (sorted_keys_ends table kmin kmax Hmin Hmax) as [Hhead Hlast].
  rewrite Hhead, Hlast.
  destruct (decide (temperature < IZR kmin ∨ temperature > IZR kmax)) as [Hout | Hin].
  - exists None. by split.
  - destruct (float_lookup table temperature) as [value|] eqn:Hfl.
    + exists (Some value). split; [done |]. split; [done | by intros ?].
    + destruct (sorted_keys table) as [|x0 l] eqn:E; [done |].
      injection Hhead as ->.
      assert (Hlow : IZR kmin <= temperature).
      { apply Rnot_lt_le. intros ?. apply Hin. by left. }
      assert (Hhigh : temperature <= IZR kmax).
      { apply Rnot_gt_le. intros ?. apply Hin. by right. }
      assert (Hkeys : ∀ k, k ∈ kmin :: l → is_Some (table !! k)).
      { intros k Hk. apply sorted_keys_elem. by rewrite E. }
      destruct l as [|x1 l'].
      * exfalso. injection Hlast as <-.
        assert (temperature = IZR kmin) as -> by lra.
        rewrite float_lookup_int in Hfl.
        destruct Hmin as [[v Hv] _]. by rewrite Hv in Hfl.
      * destruct (temperature_scan_finds table temperature (x1 :: l') kmin)
          as [v Hv]; [done | done | done | |].
        -- intros xn Hxn. rewrite Hlast in Hxn. by injection Hxn as <-.
        -- exists (Some v). split; [exact Hv |]. split; [done | by intros ?].
Qed.

(** C4.  Let the table selected by the medium ([KT_Z_TABLE] for soil,
    [KT_V_TABLE] otherwise) exist for the insulation and be non-empty, with
    smallest breakpoint [kmin] and largest breakpoint [kmax].  Then
    [_lookup_temperature_factor] returns, and it returns [None] exactly when
    the temperature is strictly below [kmin] or strictly above [kmax]; at a
    breakpoint it returns the tabulated value itself. *)
Theorem temperature_factor_range (self : CableCalcApp) (insulation_key medium : string)
    (table : gmap Z R) (kmin kmax : Z) :
  temperature_table self insulation_key medium = Some table →
  is_min_key table kmin → is_max_key table kmax →
  (∀ temperature, ∃ result,
     _lookup_temperature_factor self insulation_key medium temperature = Return result
     ∧ (result = None ↔ temperature < IZR kmin ∨ temperature > IZR kmax))
  ∧ (∀ k v, table !! k = Some v →
     _lookup_temperature_factor self insulation_key medium (IZR k) = Return (Some v)).
Proof.
  intros Htable Hmin Hmax.
  assert (Hne : table ≠ ∅).
  { intros ->. destruct Hmin as [[v Hv] _]. by rewrite lookup_empty in Hv. }
  unfold _lookup_temperature_factor. rewrite Htable. cbv beta iota.
  destruct (decide (table = ∅)) as [Hempty | _]; [done |]. split.
  - intros temperature. by apply temperature_factor_in_range.
  - apply temperature_factor_in_exact.
Qed.

Lemma kt_sample_keys (k : Z) :
  is_Some (kt_sample !! k) → k = 20%Z ∨ k = 30%Z ∨ k = 40%Z.
Proof.
  intros [v Hv]. unfold kt_sample in Hv.
  destruct (decide (k = 20%Z)) as [-> | H20]; [by left |].
  destruct (decide (k = 30%Z)) as [-> | H30]; [by right; left |].
  destruct (decide (k = 40%Z)) as [-> | H40]; [by right; right |].
  by simplify_map_eq.
Qed.

Lemma kt_sample_min : is_min_key kt_sample 20.
Proof.
  split; [by eexists |].
  intros k Hk. destruct (kt_sample_keys k Hk) as [-> | [-> | ->]]; lia.
Qed.

Lemma kt_sample_max : is_max_key kt_sample 40.
Proof.
  split; [by eexists |].
  intros k Hk. destruct (kt_sample_keys k Hk) as [-> | [-> | ->]]; lia.
Qed.

Lemma temperature_factor_range_witness :
  _lookup_temperature_factor (sample_app [] ∅ []) "PVC" "air" 50 = Return None
  ∧ _lookup_temperature_factor (sample_app [] ∅ []) "PVC" "air" 30 = Return (Some 1).
Proof.
  destruct (temperature_factor_range (sample_app [] ∅ []) "PVC" "air" kt_sample 20 40)
    as [Hrange Hexact]; [reflexivity | apply kt_sample_min | apply kt_sample_max |].
  split.
  - destruct (Hrange 50) as (result & -> & Hnone). f_equal. apply Hnone. right. lra.
  - apply (Hexact 30%Z 1). reflexivity.
Defined.

(** ** Ampacity *)

#[local] Instance Rle_total : Total Rle.
Proof. intros x y. destruct (Rle_dec x y); [by left | right; lra]. Qed.

#[local] Instance Rle_trans : Transitive Rle.
Proof. intros x y z. apply Rle_trans. Qed.

#[local] Instance Rle_antisymm : AntiSymm eq Rle.
Proof. intros x y. apply Rle_antisym. Qed.

Lemma fd_sorted_elem (d : float_dict) (k : R) : k ∈ fd_sorted d ↔ k ∈ d.*1.
Proof. unfold fd_sorted. by rewrite merge_sort_Permutation, elem_of_remove_dups. Qed.

Lemma fd_sorted_sorted (d : float_dict) : StronglySorted Rle (fd_sorted d).
Proof. apply StronglySorted_merge_sort; apply _. Qed.

Lemma fd_sorted_NoDup (d : float_dict) : NoDup (fd_sorted d).
Proof. unfold fd_sorted. rewrite merge_sort_Permutation. apply NoDup_remove_dups. Qed.

Lemma fd_get_key (d : float_dict) (k : R) : k ∈ d.*1 → is_Some (fd_get d k).
Proof.
  induction d as [|[k' v] d IH]; intros Hk; [by apply elem_of_nil in Hk |].
  simpl. destruct (decide (k' = k)); [by eexists |].
  apply IH. rewrite fmap_cons in Hk. apply elem_of_cons in Hk as [Hk | Hk]; [| done].
  simpl in Hk. congruence.
Qed.

Lemma fd_getitem_key (d : float_dict) (k : R) :
  k ∈ fd_sorted d → ∃ v, fd_get d k = Some v ∧ fd_getitem d k = Return v.
Proof.
  intros Hk. apply fd_sorted_elem, fd_get_key in Hk as [v Hv].
  exists v. unfold fd_getitem. by rewrite Hv.
Qed.

Lemma fd_getitem_Some (d : float_dict) (k v : R) :
  fd_get d k = Some v → fd_getitem d k = Return v.
Proof. intros Hv. unfold fd_getitem. by rewrite Hv. Qed.

(** A list that is sorted, free of repetitions and holds exactly the keys is
    what [sorted(d)] returns. *)
Lemma fd_sorted_unique (d : float_dict) (l : list R) :
  StronglySorted Rle l → NoDup l → (∀ k, k ∈ l ↔ k ∈ d.*1) → fd_sorted d = l.
Proof.
  intros Hsorted Hnodup Hkeys.
  apply (StronglySorted_unique Rle _ _ (fd_sorted_sorted d) Hsorted).
  apply NoDup_Permutation; [apply fd_sorted_NoDup | done |].
  intros k. by rewrite fd_sorted_elem, Hkeys.
Qed.

Lemma zip_tail_elem {A} (l : list A) (a b : A) :
  (a, b) ∈ zip l (tail l) → a ∈ l ∧ b ∈ l.
Proof.
  intros Hin. split.
  - by apply elem_of_zip_l in Hin.
  - apply elem_of_zip_r in Hin. destruct l as [|x l]; [done |].
    apply elem_of_cons. by right.
Qed.

(** The neighbours of a list split at a pair of neighbours. *)
Lemma zip_tail_app {A} (l1 l2 : list A) (a b : A) :
  zip (l1 ++ a :: b :: l2) (tail (l1 ++ a :: b :: l2))
  = zip (l1 ++ [a]) (tail (l1 ++ [a])) ++ (a, b) :: zip (b :: l2) l2.
Proof.
  induction l1 as [|x l1 IH]; [done |].
  destruct l1 as [|y l1]; [done |].
  simpl in *. f_equal. exact IH.
Qed.


Lemma interpolation_between (v1 v2 ratio : R) :
  0 <= ratio <= 1 → Rmin v1 v2 <= v1 + ratio * (v2 - v1) <= Rmax v1 v2.
Proof.
  intros Hr. unfold Rmin, Rmax. destruct (Rle_dec v1 v2); nra.
Qed.

Lemma between_left (v1 v2 : R) : Rmin v1 v2 <= v1 <= Rmax v1 v2.
Proof. split; [apply Rmin_l | apply Rmax_l]. Qed.

Lemma between_right (v1 v2 : R) : Rmin v1 v2 <= v2 <= Rmax v1 v2.
Proof. split; [apply Rmin_r | apply Rmax_r]. Qed.



Ltac solve_sorted :=
  repeat match goal with
         | |- StronglySorted _ _ => constructor
         | |- Forall _ _ => constructor
         end; lra.

Ltac solve_nodup :=
  repeat match goal with
         | |- NoDup (_ :: _) => apply NoDup_cons_2
         | |- NoDup [] => apply NoDup_nil_2
         | |- _ ∉ _ => rewrite ?elem_of_cons, elem_of_nil; intros ?; intuition lra
         end.

Lemma base_sample_sorted : fd_sorted base_sample = [1.5; 2.5].
Proof. apply fd_sorted_unique; [solve_sorted | solve_nodup | done]. Qed.




(** The ampacity lookup never raises: every key it reads comes from the
    table, and the interpolation divides only by a non-zero difference. *)
Lemma ampacity_scan_returns (base_table : float_dict) (area : R) (pairs : list (R * R)) :
  (∀ lower upper, (lower, upper) ∈ pairs →
     lower ∈ fd_sorted base_table ∧ upper ∈ fd_sorted base_table) →
  returns (ampacity_scan base_table area pairs).
Proof.
  induction pairs as [|[lower upper] pairs IH]; intros Hkeys; [by eexists |].
  destruct (Hkeys lower upper) as [Hlower Hupper]; [by apply elem_of_cons; left |].
  destruct (fd_getitem_key _ _ Hlower) as (lower_val & _ & Hlv).
  destruct (fd_getitem_key _ _ Hupper) as (upper_val & _ & Huv).
  simpl. destruct (isclose area lower 1e-6 1e-3).
  { rewrite Hlv, bind_Return. by eexists. }
  destruct (decide (lower <= area ∧ area <= upper)) as [Hin | Hout].
  - rewrite Hlv, Huv, !bind_Return.
    destruct (isclose upper lower 1e-9 0) eqn:Hclose; [by eexists |].
    apply isclose_false_ne in Hclose.
    rewrite truediv_Return by lra. rewrite bind_Return. by eexists.
  - apply IH. intros lo up Hin. apply Hkeys. apply elem_of_cons. by right.
Qed.

Lemma ampacity_base_value_returns (base_table : float_dict) (area : R) :
  returns (ampacity_base_value base_table area).
Proof.
  unfold ampacity_base_value. cbv zeta.
  destruct (head (fd_sorted base_table)) as [first|] eqn:Hhead; [| by eexists].
  destruct (last (fd_sorted base_table)) as [final|] eqn:Hlast; [| by eexists].
  apply head_Some_elem_of in Hhead. apply last_Some_elem_of in Hlast.
  destruct (fd_getitem_key _ _ Hhead) as (v_first & _ & Hvf).
  destruct (fd_getitem_key _ _ Hlast) as (v_final & _ & Hvl).
  destruct (decide (area <= first)); [rewrite Hvf, bind_Return; by eexists |].
  destruct (decide (area >= final)); [rewrite Hvl, bind_Return; by eexists |].
  apply ampacity_scan_returns. intros lower upper Hin. by apply zip_tail_elem.
Qed.

Lemma lookup_ampacity_returns (self : CableCalcApp) (insulation_key conductor laying : string)
    (area : R) (loaded_cores : Z) :
  returns (_lookup_ampacity self insulation_key conductor laying area loaded_cores).
Proof.
  unfold _lookup_ampacity.
  destruct (AMPACITY_BASE self !! laying) as [[|entry base_table]|]; try by eexists.
  destruct (default ∅ (AMPACITY_INSULATION_FACTORS self !! insulation_key) !! conductor)
    as [insulation_factors|]; [| by eexists].
  destruct (AMPACITY_LOADED_FACTORS self !! laying) as [load_factors|]; [| by eexists].
  destruct (insulation_factors !! laying) as [multiplier|]; [| by eexists].
  destruct (load_factors !! loaded_cores) as [load_multiplier|]; [| by eexists].
  destruct (ampacity_base_value_returns (entry :: base_table) area) as [[base_value|] ->];
    rewrite bind_Return; by eexists.
Qed.

(** So does the temperature lookup. *)
Lemma temperature_scan_returns (table : gmap Z R) (temperature : R) (pairs : list (Z * Z)) :
  (∀ lower upper, (lower, upper) ∈ pairs →
     is_Some (table !! lower) ∧ is_Some (table !! upper)) →
  returns (temperature_scan table temperature pairs).
Proof.
  induction pairs as [|[lower upper] pairs IH]; intros Hkeys; [by eexists |].
  destruct (Hkeys lower upper) as [Hlower Hupper]; [by apply elem_of_cons; left |].
  destruct (getitem_Some _ _ Hlower) as (lower_val & _ & Hlv).
  destruct (getitem_Some _ _ Hupper) as (upper_val & _ & Huv).
  simpl. destruct (decide (IZR lower <= temperature ∧ temperature <= IZR upper)).
  - rewrite Hlv, Huv, !bind_Return.
    destruct (isclose (IZR upper) (IZR lower) 1e-9 0) eqn:Hclose; [by eexists |].
    apply isclose_false_ne in Hclose.
    rewrite truediv_Return by lra. rewrite bind_Return. by eexists.
  - apply IH. intros lo up Hin. apply Hkeys. apply elem_of_cons. by right.
Qed.

Lemma lookup_temperature_factor_returns (self : CableCalcApp)
    (insulation_key medium : string) (temperature : R) :
  returns (_lookup_temperature_factor self insulation_key medium temperature).
Proof.
  unfold _lookup_temperature_factor.
  destruct (temperature_table self insulation_key medium) as [table|]; [| by eexists].
  destruct (decide (table = ∅)); [by eexists |].
  unfold temperature_factor_in. cbv zeta.
  destruct (head (sorted_keys table)); [| by eexists].
  destruct (last (sorted_keys table)); [| by eexists].
  destruct (decide _); [by eexists |].
  destruct (float_lookup table temperature); [by eexists |].
  apply temperature_scan_returns. intros lower upper Hin.
  apply zip_tail_elem in Hin as [Hl Hu]. by rewrite <- !sorted_keys_elem.
Qed.

(** ** Optimal-parameter search *)

Section SearchFacts.
Context (self : CableCalcApp).
Context (insulation_key conductor method : string) (insulation_theta : R).
Context (loaded_cores n_parallel voltage_value : Z).
Context (s_coeff t_coeff cos_phi length icalc_total : R).
Context (limit_pct : option R) (k_value : R).
Context (breaker_values : list (string * R)).

Abbreviation ok := (combo_ok icalc_total limit_pct k_value).
Abbreviation breakers_scan := (scan_breakers icalc_total limit_pct k_value).
Abbreviation sections_scan :=
  (scan_sections self insulation_key conductor method insulation_theta loaded_cores
     n_parallel voltage_value s_coeff t_coeff cos_phi length icalc_total limit_pct k_value
     breaker_values).
Abbreviation evaluated_at :=
  (evaluated self insulation_key conductor method insulation_theta loaded_cores
     n_parallel voltage_value s_coeff t_coeff cos_phi length icalc_total).
Abbreviation compliant_at :=
  (compliant self insulation_key conductor method insulation_theta loaded_cores
     n_parallel voltage_value s_coeff t_coeff cos_phi length icalc_total limit_pct k_value).

Lemma combo_ok_bounds (iz_total drop_val breaker_value : R) :
  ok iz_total drop_val breaker_value = true →
  icalc_total <= breaker_value ∧ breaker_value <= iz_total.
Proof.
  unfold combo_ok. intros Hok.
  apply andb_true_iff in Hok as [Hok _]. apply andb_true_iff in Hok as [Hok _].
  by apply bool_decide_eq_true_1 in Hok.
Qed.

(** The inner loop stops at the first positive rating that passes. *)
Lemma scan_breakers_spec (area iz_total drop_val : R) (breakers : list (string * R))
    (fallback : list candidate) :
  (∃ before breaker_str breaker_value after fallback',
     breakers = before ++ (breaker_str, breaker_value) :: after
     ∧ ok iz_total drop_val breaker_value = true
     ∧ 0 < breaker_value
     ∧ (∀ s v, (s, v) ∈ before → ¬ (0 < v ∧ ok iz_total drop_val v = true))
     ∧ breakers_scan area iz_total drop_val breakers fallback
       = (Some (area, breaker_str, iz_total, drop_val), fallback'))
  ∨ ((∀ s v, (s, v) ∈ breakers → ¬ (0 < v ∧ ok iz_total drop_val v = true))
     ∧ ∃ fallback', breakers_scan area iz_total drop_val breakers fallback = (None, fallback')).
Proof.
  revert fallback. induction breakers as [|[breaker_str breaker_value] rest IH];
    intros fallback.
  { right. split; [| by eexists]. intros s v Hin. by apply elem_of_nil in Hin. }
  simpl. destruct (decide (breaker_value <= 0)) as [Hneg | Hpos].
  - destruct (IH fallback) as [(before & bs & bv & after & fb & -> & Hok & Hbv & Hbefore & Hscan)
                              | [Hnone [fb Hscan]]].
    + left. exists ((breaker_str, breaker_value) :: before), bs, bv, after, fb.
      repeat split; try done.
      intros s v Hin [Hv Hokv]. apply elem_of_cons in Hin as [[= -> ->] | Hin]; [lra |].
      by apply (Hbefore s v).
    + right. split; [| by exists fb].
      intros s v Hin [Hv Hokv]. apply elem_of_cons in Hin as [[= -> ->] | Hin]; [lra |].
      by apply (Hnone s v).
  - destruct (ok iz_total drop_val breaker_value) eqn:Hok.
    + left. exists [], breaker_str, breaker_value, rest, fallback.
      repeat split; try done; [lra |].
      intros s v Hin. by apply elem_of_nil in Hin.
    + destruct (IH (fallback ++ [violation icalc_total limit_pct k_value area iz_total
                                   drop_val breaker_str breaker_value]))
        as [(before & bs & bv & after & fb & -> & Hokb & Hbv & Hbefore & Hscan)
           | [Hnone [fb Hscan]]].
      * left. exists ((breaker_str, breaker_value) :: before), bs, bv, after, fb.
        repeat split; try done.
        intros s v Hin [Hv Hokv]. apply elem_of_cons in Hin as [[= -> ->] | Hin];
          [congruence |].
        by apply (Hbefore s v).
      * right. split; [| by exists fb].
        intros s v Hin [Hv Hokv]. apply elem_of_cons in Hin as [[= -> ->] | Hin];
          [congruence |].
        by apply (Hnone s v).
Qed.

Lemma evaluated_functional (area iz1 d1 iz2 d2 : R) :
  evaluated_at area iz1 d1 → evaluated_at area iz2 d2 → iz1 = iz2 ∧ d1 = d2.
Proof.
  intros (b1 & Hb1 & -> & Hd1) (b2 & Hb2 & -> & Hd2).
  rewrite Hb1 in Hb2. rewrite Hd1 in Hd2. injection Hb2 as ->. by injection Hd2 as ->.
Qed.
Lemma compliant_needs_capacity (area breaker_value iz_total drop_val : R) :
  0 < icalc_total → evaluated_at area iz_total drop_val →
  compliant_at area breaker_value →
  ok iz_total drop_val breaker_value = true ∧ 0 < breaker_value ∧ 0 < iz_total.
Proof.
  intros Hicalc Heval (iz' & d' & Heval' & Hok).
  destruct (evaluated_functional _ _ _ _ _ Heval Heval') as [<- <-].
  split; [done |]. apply combo_ok_bounds in Hok. lra.
Qed.

(** The outer loop stops at the first positive section that has a compliant
    breaker, and there at the first such breaker. *)
Lemma scan_sections_spec (sections : list R) (fallback : list candidate) :
  0 < icalc_total →
  (∃ before area after bbefore breaker_str breaker_value bafter iz_total drop_val fallback',
     sections = before ++ area :: after
     ∧ breaker_values = bbefore ++ (breaker_str, breaker_value) :: bafter
     ∧ 0 < area
     ∧ evaluated_at area iz_total drop_val
     ∧ ok iz_total drop_val breaker_value = true
     ∧ (∀ s v, (s, v) ∈ bbefore → ¬ compliant_at area v)
     ∧ (∀ a s v, a ∈ before → 0 < a → (s, v) ∈ breaker_values → ¬ compliant_at a v)
     ∧ sections_scan sections fallback
       = Return (Some (area, breaker_str, iz_total, drop_val), fallback'))
  ∨ ((∀ a s v, a ∈ sections → 0 < a → (s, v) ∈ breaker_values → ¬ compliant_at a v)
     ∧ ∃ fallback', sections_scan sections fallback = Return (None, fallback')).
Proof.
  intros Hicalc. revert fallback.
  induction sections as [|area rest IH]; intros fallback.
  { right. split; [| by eexists]. intros a s v Hin. by apply elem_of_nil in Hin. }
  (* what remains to be shown once the section [area] is known to have no
     compliant breaker *)
  assert (Hskip : ∀ fallback1,
    (∀ s v, (s, v) ∈ breaker_values → 0 < area → ¬ compliant_at area v) →
    (∃ before area0 after bbefore breaker_str breaker_value bafter iz_total drop_val fallback',
       area :: rest = before ++ area0 :: after
       ∧ breaker_values = bbefore ++ (breaker_str, breaker_value) :: bafter
       ∧ 0 < area0
       ∧ evaluated_at area0 iz_total drop_val
       ∧ ok iz_total drop_val breaker_value = true
       ∧ (∀ s v, (s, v) ∈ bbefore → ¬ compliant_at area0 v)
       ∧ (∀ a s v, a ∈ before → 0 < a → (s, v) ∈ breaker_values → ¬ compliant_at a v)
       ∧ sections_scan rest fallback1
         = Return (Some (area0, breaker_str, iz_total, drop_val), fallback'))
    ∨ ((∀ a s v, a ∈ area :: rest → 0 < a → (s, v) ∈ breaker_values → ¬ compliant_at a v)
       ∧ ∃ fallback', sections_scan rest fallback1 = Return (None, fallback'))).
  { intros fallback1 Hnone.
    destruct (IH fallback1)
      as [(before & a0 & after & bb & bs & bv & ba & iz & d & fb
           & -> & Hbr & Ha0 & Hev & Hok & Hbb & Hbefore & Hscan)
         | [Hrest [fb Hscan]]].
    - left. exists (area :: before), a0, after, bb, bs, bv, ba, iz, d, fb.
      repeat split; try done.
      intros a s v Hin Ha Hsv. apply elem_of_cons in Hin as [-> | Hin].
      + by apply (Hnone s v).
      + by apply (Hbefore a s v).
    - right. split; [| by exists fb].
      intros a s v Hin Ha Hsv. apply elem_of_cons in Hin as [-> | Hin].
      + by apply (Hnone s v).
      + by apply (Hrest a s v). }
  simpl. destruct (decide (area <= 0)) as [Hneg | Hpos].
  { apply Hskip. intros s v _ Ha. lra. }
  destruct (lookup_ampacity_returns self insulation_key conductor method area loaded_cores)
    as [[iz_base|] Hlookup]; rewrite Hlookup, bind_Return.
  2: { apply Hskip. intros s v _ _ (iz & d & (b & Hb & _) & _). congruence. }
  destruct (drop_pct_returns self (IZR voltage_value) cos_phi length conductor
              insulation_theta area method loaded_cores n_parallel icalc_total)
    as [drop_val Hdrop].
  assert (Heval : evaluated_at area
                    (iz_base * s_coeff * t_coeff * IZR (Z.max n_parallel 1)) drop_val).
  { exists iz_base. by repeat split. }
  destruct (decide (iz_base = 0)) as [Hzero | Hnonzero].
  { apply Hskip. intros s v _ _ Hc.
    destruct (compliant_needs_capacity _ _ _ _ Hicalc Heval Hc) as (_ & _ & Hiz).
    rewrite Hzero in Hiz. lra. }
  destruct (decide (iz_base * s_coeff * t_coeff * IZR (Z.max n_parallel 1) <= 0))
    as [Hlow | Hcap].
  { apply Hskip. intros s v _ _ Hc.
    destruct (compliant_needs_capacity _ _ _ _ Hicalc Heval Hc) as (_ & _ & Hiz). lra. }
  rewrite Hdrop, bind_Return.
  destruct (scan_breakers_spec area
              (iz_base * s_coeff * t_coeff * IZR (Z.max n_parallel 1)) drop_val
              breaker_values fallback)
    as [(bb & bs & bv & ba & fb & Hbr & Hok & Hbv & Hbb & Hscan) | [Hnone [fb Hscan]]];
    rewrite Hscan.
  - left.
    exists [], area, rest, bb, bs, bv, ba,
      (iz_base * s_coeff * t_coeff * IZR (Z.max n_parallel 1)), drop_val, fb.
    repeat split; try done; [lra | |].
    + intros s v Hin Hc.
      destruct (compliant_needs_capacity _ _ _ _ Hicalc Heval Hc) as (Hokv & Hv & _).
      by apply (Hbb s v).
    + intros a s v Hin. by apply elem_of_nil in Hin.
  - apply Hskip. intros s v Hin _ Hc.
    destruct (compliant_needs_capacity _ _ _ _ Hicalc Heval Hc) as (Hokv & Hv & _).
    by apply (Hnone s v).
Qed.
End SearchFacts.

(** C1, as the code has it.  Let the design current be positive, as the
    checks before the search make sure, and let some catalogue section with
    a positive area comply with some catalogue breaker.  Then the search
    returns a pair: the first positive section, in catalogue order, that has
    a compliant breaker, and for it the first compliant breaker, in catalogue
    order.  When the catalogue lists the sections in ascending order, this
    is the smallest positive area that has a compliant breaker.  The search
    is a function of its inputs, so it returns the same pair when run again. *)
Theorem search_first_compliant (self : CableCalcApp)
    (insulation_key conductor method : string) (insulation_theta : R)
    (loaded_cores n_parallel voltage_value : Z)
    (s_coeff t_coeff cos_phi length icalc_total : R)
    (limit_pct : option R) (k_value : R)
    (breaker_values : list (string * R)) (sections : list R) :
  let search :=
    scan_sections self insulation_key conductor method insulation_theta loaded_cores
      n_parallel voltage_value s_coeff t_coeff cos_phi length icalc_total limit_pct
      k_value breaker_values sections [] in
  let complies :=
    compliant self insulation_key conductor method insulation_theta loaded_cores
      n_parallel voltage_value s_coeff t_coeff cos_phi length icalc_total limit_pct
      k_value in
  0 < icalc_total →
  (∃ a s v, a ∈ sections ∧ 0 < a ∧ (s, v) ∈ breaker_values ∧ complies a v) →
  ∃ before area after bbefore breaker_str breaker_value bafter iz_total drop_val fallback,
    search = Return (Some (area, breaker_str, iz_total, drop_val), fallback)
    ∧ sections = before ++ area :: after
    ∧ breaker_values = bbefore ++ (breaker_str, breaker_value) :: bafter
    ∧ 0 < area
    ∧ complies area breaker_value
    ∧ (∀ a s v, a ∈ before → 0 < a → (s, v) ∈ breaker_values → ¬ complies a v)
    ∧ (∀ s v, (s, v) ∈ bbefore → ¬ complies area v)
    ∧ (StronglySorted Rle sections →
       ∀ a s v, a ∈ sections → 0 < a → (s, v) ∈ breaker_values → complies a v →
                area <= a)
    ∧ (∀ result, search = Return result →
       result = (Some (area, breaker_str, iz_total, drop_val), fallback)).
Proof.
  intros search complies Hicalc (a0 & s0 & v0 & Ha0 & Hpos0 & Hv0 & Hc0).
  destruct (scan_sections_spec self insulation_key conductor method insulation_theta
              loaded_cores n_parallel voltage_value s_coeff t_coeff cos_phi length
              icalc_total limit_pct k_value breaker_values sections [] Hicalc)
    as [(before & area & after & bb & bs & bv & ba & iz & d & fb
         & Hsec & Hbr & Harea & Hev & Hok & Hbb & Hbefore & Hscan)
       | [Hnone _]].
  2: { exfalso. by apply (Hnone a0 s0 v0). }
  exists before, area, after, bb, bs, bv, ba, iz, d, fb.
  split; [exact Hscan |]. split; [exact Hsec |]. split; [exact Hbr |].
  split; [exact Harea |].
  split; [by exists iz, d |].
  split; [exact Hbefore |]. split; [exact Hbb |].
  split.
  - intros Hsorted a s v Ha Hapos Hsv Hc.
    rewrite Hsec in Ha, Hsorted.
    apply elem_of_app in Ha as [Ha | Ha]; [exfalso; by apply (Hbefore a s v) |].
    apply StronglySorted_app_1_r in Hsorted.
    apply elem_of_cons in Ha as [-> | Ha]; [lra |].
    apply StronglySorted_inv in Hsorted as [_ Hall].
    rewrite Forall_forall in Hall. by apply Hall.
  - intros result Hresult. unfold search in Hresult. rewrite Hscan in Hresult.
    by injection Hresult as <-.
Qed.

(** *** The search on the sample installation *)

Lemma sample_base_low : ampacity_base_value base_sample 1.5 = Return (Some 19.5).
Proof.
  unfold ampacity_base_value. rewrite base_sample_sorted. simpl.
  rewrite (decide_True (P := 1.5 <= 1.5)) by lra.
  unfold fd_getitem, base_sample. simpl. by rewrite decide_True by lra.
Qed.

Lemma sample_base_high : ampacity_base_value base_sample 2.5 = Return (Some 27).
Proof.
  unfold ampacity_base_value. rewrite base_sample_sorted. simpl.
  rewrite (decide_False (P := 2.5 <= 1.5)) by lra.
  rewrite (decide_True (P := 2.5 >= 2.5)) by lra.
  unfold fd_getitem, base_sample. simpl.
  rewrite decide_False by lra. by rewrite decide_True by lra.
Qed.

Lemma sample_lookup_ampacity (sections : list R) (form : gmap string string)
    (table : list (gmap string string)) (area base_value : R) :
  ampacity_base_value base_sample area = Return (Some base_value) →
  _lookup_ampacity (sample_app sections form table) "PVC" "Cu" "C" area 2
  = Return (Some (base_value * 1 * 1)).
Proof.
  intros Hbase. unfold _lookup_ampacity.
  change (AMPACITY_BASE (sample_app sections form table) !! "C") with (Some base_sample).
  unfold base_sample at 1. cbv beta iota. fold base_sample.
  change (default ∅ (AMPACITY_INSULATION_FACTORS (sample_app sections form table) !! "PVC")
            !! "Cu")
    with (Some ({[ "C" := 1 ]} : gmap string R)).
  change (AMPACITY_LOADED_FACTORS (sample_app sections form table) !! "C")
    with (Some (<[2%Z := 1]> {[ 3%Z := 0.9 ]} : gmap Z R)).
  cbv beta iota.
  change (({[ "C" := 1 ]} : gmap string R) !! "C") with (Some 1).
  change ((<[2%Z := 1]> {[ 3%Z := 0.9 ]} : gmap Z R) !! 2%Z) with (Some 1).
  cbv beta iota.
  by rewrite Hbase, bind_Return.
Qed.

Lemma sample_complies (sections : list R) (area base_value breaker_value : R) :
  ampacity_base_value base_sample area = Return (Some base_value) →
  5 <= breaker_value → breaker_value <= base_value →
  sample_compliant sections area breaker_value.
Proof.
  intros Hbase Hlow Hhigh. unfold sample_compliant, compliant.
  destruct (drop_pct_returns (sample_app sections sample_form []) (IZR 230) 1 10 "Cu" 70
              area "C" 2 1 5) as [drop_val Hdrop].
  exists (base_value * 1 * 1 * 1 * 1 * IZR (Z.max 1 1)), drop_val. split.
  - exists (base_value * 1 * 1). split; [by apply sample_lookup_ampacity |].
    split; [reflexivity | exact Hdrop].
  - unfold combo_ok. change (Z.max 1 1) with 1%Z.
    rewrite !bool_decide_eq_true_2; [done | lra | lra].
Qed.

Lemma sample_breakers_10 : ("10", 10) ∈ sample_breakers.
Proof. unfold sample_breakers. by apply elem_of_cons; left. Qed.

Lemma search_first_compliant_witness :
  0 < 5
  ∧ sample_compliant [1.5; 2.5] 1.5 10
  ∧ ∃ area breaker_str iz_total drop_val fallback,
      sample_scan [1.5; 2.5]
      = Return (Some (area, breaker_str, iz_total, drop_val), fallback)
      ∧ area <= 1.5.
Proof.
  assert (Hc : sample_compliant [1.5; 2.5] 1.5 10).
  { apply (sample_complies _ 1.5 19.5); [apply sample_base_low | lra | lra]. }
  split; [lra |]. split; [exact Hc |].
  destruct (search_first_compliant (sample_app [1.5; 2.5] sample_form []) "PVC" "Cu" "C" 70 2 1 230
              1 1 1 10 5 None 1.45 sample_breakers [1.5; 2.5])
    as (before & area & after & bb & bs & bv & ba & iz & d & fb
        & Hscan & _ & _ & _ & _ & _ & _ & Hsmallest & _).
  - lra.
  - exists 1.5, "10", 10. split; [by apply elem_of_cons; left |].
    split; [lra |]. split; [apply sample_breakers_10 | exact Hc].
  - exists area, bs, iz, d, fb. split; [exact Hscan |].
    apply (Hsmallest ltac:(solve_sorted) 1.5 "10" 10);
      [by apply elem_of_cons; left | lra | apply sample_breakers_10 | exact Hc].
Defined.

(** C1 as stated fails on a catalogue that is not ascending: with the
    sections listed as 2.5, 1.5 both comply with the 10 A breaker, and the
    search returns 2.5 mm², not the smaller 1.5 mm². *)
Lemma search_unsorted_catalogue_counterexample :
  sample_compliant [2.5; 1.5] 1.5 10
  ∧ sample_compliant [2.5; 1.5] 2.5 10
  ∧ 1.5 < 2.5
  ∧ ∃ iz_total drop_val fallback,
      sample_scan [2.5; 1.5] = Return (Some (2.5, "10", iz_total, drop_val), fallback).
Proof.
  assert (Hlow : sample_compliant [2.5; 1.5] 1.5 10).
  { apply (sample_complies _ 1.5 19.5); [apply sample_base_low | lra | lra]. }
  assert (Hhigh : sample_compliant [2.5; 1.5] 2.5 10).
  { apply (sample_complies _ 2.5 27); [apply sample_base_high | lra | lra]. }
  split; [exact Hlow |]. split; [exact Hhigh |]. split; [lra |].
  destruct (scan_sections_spec (sample_app [2.5; 1.5] sample_form []) "PVC" "Cu" "C" 70 2 1 230
              1 1 1 10 5 None 1.45 sample_breakers [2.5; 1.5] [] ltac:(lra))
    as [(before & area & after & bb & bs & bv & ba & iz & d & fb
         & Hsec & Hbr & _ & _ & _ & Hbb & Hbefore & Hscan)
       | [Hnone _]].
  - destruct before as [|b before].
    + injection Hsec as <- _.
      destruct bb as [|b0 bb].
      * unfold sample_breakers in Hbr. injection Hbr as <- <- _.
        by exists iz, d, fb.
      * exfalso. unfold sample_breakers in Hbr. injection Hbr as <- _.
        apply (Hbb "10" 10); [by apply elem_of_cons; left | exact Hhigh].
    + exfalso. injection Hsec as <- _.
      apply (Hbefore 2.5 "10" 10);
        [by apply elem_of_cons; left | lra | apply sample_breakers_10 | exact Hhigh].
  - exfalso.
    apply (Hnone 2.5 "10" 10);
      [by apply elem_of_cons; left | lra | apply sample_breakers_10 | exact Hhigh].
Qed.

(** ** Checks before the search *)





Section PrepareSteps.
Context `{Builtins} (self : CableCalcApp).
Context (Hinsulation : is_Some (INSULATION_META self !! form_value self "Tip-IZOLACIJE")).
Context (Hcounts : (_validate_counts self).2 = None).

Abbreviation parse_field field := (_parse_float (form_value self field) field).





End PrepareSteps.

Lemma bind_Raise {A B} (f : A → py B) (e : exn) : (Raise e ≫= f) = Raise e.
Proof. reflexivity. Qed.



(** What the search inputs hold once the checks have passed. *)
Lemma prepare_search_inputs `{Builtins} (self : CableCalcApp) (inputs : search_inputs) :
  prepare_search self = Return (inr inputs) →
  si_k_value inputs = k_or_default self
  ∧ 0 < si_icalc_total inputs
  ∧ (_try_parse_float (form_value self "Температура, °C") = None → si_t_coeff inputs = 1)
  ∧ si_breaker_values inputs = parse_breakers (STANDARD_BREAKER_RATINGS self).
Proof.
  intros Hprep. unfold prepare_search in Hprep.
  destruct (INSULATION_META self !! form_value self "Tip-IZOLACIJE") as [meta|];
    [| discriminate].
  destruct (_validate_counts self) as [[[loaded_cores circuits_count] n_parallel] [err|]];
    [discriminate |].
  destruct (_parse_float (form_value self "Pi, W") "Pi, W") as [s1 [pi|]]; [| discriminate].
  destruct (_parse_float (form_value self "Kj") "Kj") as [s2 [kj|]]; [| discriminate].
  destruct (_parse_float (form_value self "η") "η") as [s3 [eta|]]; [| discriminate].
  destruct (decide (¬ (0 < eta ∧ eta <= 1))) as [| Heta]; [discriminate |].
  apply dec_stable in Heta.
  destruct (_parse_float (form_value self "cos φ") "cos φ") as [s4 [cos_phi|]];
    [| discriminate].
  destruct (decide (¬ (0 < cos_phi ∧ cos_phi <= 1))); [discriminate |].
  destruct (_parse_float (form_value self "Dužina L, m") "Dužina L, m")
    as [s5 [length|]]; [| discriminate].
  destruct (decide (length < 0)); [discriminate |].
  destruct (int_of_str (form_value self "U")) as [voltage_value|]; [| discriminate].
  destruct (_try_parse_float (form_value self "Температура, °C")) as [temperature|].
  - destruct (_lookup_temperature_factor self (meta_key meta) (_medium_selected_key self)
                temperature) as [[temp_factor|]|e];
      rewrite ?bind_Return, ?bind_Raise in Hprep; try discriminate.
    destruct (decide (temp_factor <= 0)); rewrite bind_Return in Hprep; [discriminate |].
    destruct (_lookup_group_factor self (effective_circuits circuits_count n_parallel))
      as [s_coeff|e]; rewrite ?bind_Return, ?bind_Raise in Hprep; [| discriminate].
    rewrite phase_factor_Return, bind_Return in Hprep.
    destruct (decide _) as [| Hden] in Hprep; [discriminate |].
    rewrite (truediv_Return _ eta) in Hprep by lra. rewrite bind_Return in Hprep.
    rewrite truediv_Return in Hprep by exact Hden. rewrite bind_Return in Hprep.
    destruct (decide _) as [| Hicalc] in Hprep; [discriminate |].
    destruct (parse_breakers (STANDARD_BREAKER_RATINGS self)) eqn:Ebr; [discriminate |].
    injection Hprep as <-. simpl. repeat split; [lra | done].
  - rewrite bind_Return in Hprep.
    destruct (_lookup_group_factor self (effective_circuits circuits_count n_parallel))
      as [s_coeff|e]; rewrite ?bind_Return, ?bind_Raise in Hprep; [| discriminate].
    rewrite phase_factor_Return, bind_Return in Hprep.
    destruct (decide _) as [| Hden] in Hprep; [discriminate |].
    rewrite (truediv_Return _ eta) in Hprep by lra. rewrite bind_Return in Hprep.
    rewrite truediv_Return in Hprep by exact Hden. rewrite bind_Return in Hprep.
    destruct (decide _) as [| Hicalc] in Hprep; [discriminate |].
    destruct (parse_breakers (STANDARD_BREAKER_RATINGS self)) eqn:Ebr; [discriminate |].
    injection Hprep as <-. simpl. repeat split; lra.
Qed.



(** *** The checks on the sample form *)

Section SampleForm.
#[local] Existing Instance Decimal.decimal_builtins.

Lemma parse_float_decimal (value field : string) (m : Z) (d : nat) (x : R) :
  strip value ≠ "" →
  Decimal.decimal_parts (replace_comma (strip value)) = Some (m, d) →
  IZR m / 10 ^ d = x →
  _parse_float value field = ([], Some x).
Proof.
  intros Hne Hparts <-. unfold _parse_float.
  rewrite decide_False by done.
  change (float_of_str (replace_comma (strip value)))
    with (Decimal.decimal_float (replace_comma (strip value))).
  by rewrite (decimal_float_parts _ _ _ Hparts).
Qed.

Lemma sample_counts : _validate_counts sample_filled = (2, 1, 1, None)%Z.
Proof. by vm_compute. Qed.

Lemma sample_pi : _parse_float (form_value sample_filled "Pi, W") "Pi, W" = ([], Some 2300).
Proof. apply (parse_float_decimal _ _ 2300 0); [by vm_compute | by vm_compute | simpl; lra]. Qed.

Lemma sample_kj : _parse_float (form_value sample_filled "Kj") "Kj" = ([], Some 1).
Proof. apply (parse_float_decimal _ _ 1 0); [by vm_compute | by vm_compute | simpl; lra]. Qed.

Lemma sample_eta : _parse_float (form_value sample_filled "η") "η" = ([], Some 1).
Proof. apply (parse_float_decimal _ _ 1 0); [by vm_compute | by vm_compute | simpl; lra]. Qed.

Lemma sample_cos : _parse_float (form_value sample_filled "cos φ") "cos φ" = ([], Some 1).
Proof. apply (parse_float_decimal _ _ 1 0); [by vm_compute | by vm_compute | simpl; lra]. Qed.

Lemma sample_length :
  _parse_float (form_value sample_filled "Dužina L, m") "Dužina L, m" = ([], Some 10).
Proof. apply (parse_float_decimal _ _ 10 0); [by vm_compute | by vm_compute | simpl; lra]. Qed.

Lemma sample_k_empty : _try_parse_float (form_value sample_filled "k") = None.
Proof.
  unfold _try_parse_float. apply decide_True.
  by vm_compute.
Qed.

Lemma sample_temperature_empty :
  _try_parse_float (form_value sample_filled "Температура, °C") = None.
Proof.
  unfold _try_parse_float. apply decide_True.
  by vm_compute.
Qed.
End SampleForm.

Section SampleSearch.
#[local] Existing Instance Decimal.decimal_builtins.

Lemma parse_breakers_cons (item : string) (rest : list string) (m : Z) (d : nat) (x : R) :
  strip item ≠ "" →
  Decimal.decimal_parts (replace_comma (strip item)) = Some (m, d) →
  IZR m / 10 ^ d = x →
  parse_breakers (item :: rest) = (strip item, x) :: parse_breakers rest.
Proof.
  intros Hne Hparts <-. simpl.
  rewrite decide_False by done.
  change (float_of_str (replace_comma (strip item)))
    with (Decimal.decimal_float (replace_comma (strip item))).
  by rewrite (decimal_float_parts _ _ _ Hparts).
Qed.

Lemma sample_parse_breakers :
  parse_breakers (STANDARD_BREAKER_RATINGS sample_filled) = sample_breakers.
Proof.
  change (STANDARD_BREAKER_RATINGS sample_filled) with ["10"; "16"].
  rewrite (parse_breakers_cons "10" _ 10 0 10); [| done | reflexivity | simpl; lra].
  rewrite (parse_breakers_cons "16" _ 16 0 16); [| done | reflexivity | simpl; lra].
  reflexivity.
Qed.

(** The checks pass on the sample form although the field of the multiplier
    is empty, and the search gets the multiplier 1.45. *)
Lemma sample_prepared : prepare_search sample_filled = Return (inr sample_inputs).
Proof.
  unfold prepare_search.
  change (INSULATION_META sample_filled !! form_value sample_filled "Tip-IZOLACIJE")
    with (Some {| meta_key := "PVC"; meta_theta := 70 |}).
  cbv beta iota zeta.
  rewrite sample_counts, sample_pi, sample_kj, sample_eta. cbv beta iota.
  rewrite decide_False by (intros Hn; apply Hn; lra).
  rewrite sample_cos. cbv beta iota.
  rewrite decide_False by (intros Hn; apply Hn; lra).
  rewrite sample_length. cbv beta iota. rewrite decide_False by lra.
  change (int_of_str (form_value sample_filled "U")) with (Some 230%Z).
  cbv beta iota.
  rewrite sample_temperature_empty, bind_Return.
  rewrite (lookup_group_factor_unit sample_filled (effective_circuits 1 1))
    by (by vm_compute).
  rewrite bind_Return.
  rewrite phase_factor_Return, bind_Return.
  rewrite (decide_True (P := (2 = 2)%Z)) by done.
  assert (Hden : 2 * 230 * 1 ≠ 0) by lra.
  rewrite (decide_False (P := 2 * 230 * 1 = 0)) by exact Hden.
  rewrite truediv_Return by lra. rewrite bind_Return.
  rewrite truediv_Return by exact Hden. rewrite bind_Return.
  replace (2300 * 1 / 1 / (2 * 230 * 1)) with 5 by (field; lra).
  rewrite (decide_False (P := 5 <= 0)) by lra.
  rewrite sample_k_empty, sample_parse_breakers.
  unfold sample_breakers at 1. cbv beta iota.
  reflexivity.
Qed.
End SampleSearch.


Section SampleOutcome.
#[local] Existing Instance Decimal.decimal_builtins.

Lemma sample_scan_selects :
  ∃ iz_total drop_val fallback,
    sample_scan [1.5; 2.5] = Return (Some (1.5, "10", iz_total, drop_val), fallback).
Proof.
  assert (Hlow : sample_compliant [1.5; 2.5] 1.5 10).
  { apply (sample_complies _ 1.5 19.5); [apply sample_base_low | lra | lra]. }
  destruct (scan_sections_spec (sample_app [1.5; 2.5] sample_form []) "PVC" "Cu" "C" 70 2 1
              230 1 1 1 10 5 None 1.45 sample_breakers [1.5; 2.5] [] ltac:(lra))
    as [(before & area & after & bb & bs & bv & ba & iz & d & fb
         & Hsec & Hbr & _ & _ & _ & Hbb & Hbefore & Hscan)
       | [Hnone _]].
  - destruct before as [|b before].
    + injection Hsec as <- _.
      destruct bb as [|b0 bb].
      * unfold sample_breakers in Hbr. injection Hbr as <- <- _.
        by exists iz, d, fb.
      * exfalso. unfold sample_breakers in Hbr. injection Hbr as <- _.
        apply (Hbb "10" 10); [by apply elem_of_cons; left | exact Hlow].
    + exfalso. injection Hsec as <- _.
      apply (Hbefore 1.5 "10" 10);
        [by apply elem_of_cons; left | lra | apply sample_breakers_10 | exact Hlow].
  - exfalso.
    apply (Hnone 1.5 "10" 10);
      [by apply elem_of_cons; left | lra | apply sample_breakers_10 | exact Hlow].
Qed.


End SampleOutcome.

(** * Further properties of the engine *)

(** ** Lookups *)

(** X1.  The ampacity lookup never raises, whatever the tables hold: a
    missing table, factor or key gives [None], every key read comes from the
    table itself, and the interpolation divides by a difference that is not
    zero. *)
Theorem ampacity_lookup_never_raises (self : CableCalcApp)
    (insulation_key conductor laying : string) (area : R) (loaded_cores : Z) :
  ∃ result,
    _lookup_ampacity self insulation_key conductor laying area loaded_cores = Return result.
Proof. apply lookup_ampacity_returns. Qed.

Lemma fd_sorted_head_least (d : float_dict) (k : R) :
  is_least_area d k → head (fd_sorted d) = Some k.
Proof.
  intros [Hin Hleast].
  apply fd_sorted_elem in Hin as Hin'.
  destruct (fd_sorted d) as [|first l] eqn:E; [by apply elem_of_nil in Hin' |].
  simpl. f_equal. apply Rle_antisym.
  - pose proof (fd_sorted_sorted d) as Hsorted. rewrite E in Hsorted.
    destruct (sorted_head_least Rle (first :: l) first k Hsorted eq_refl Hin'); lra.
  - apply Hleast, fd_sorted_elem. rewrite E. by apply elem_of_cons; left.
Qed.

Lemma fd_sorted_last_greatest (d : float_dict) (k : R) :
  is_greatest_area d k → last (fd_sorted d) = Some k.
Proof.
  intros [Hin Hgreatest].
  apply fd_sorted_elem in Hin as Hin'.
  destruct (last (fd_sorted d)) as [final|] eqn:E.
  - f_equal. apply Rle_antisym.
    + apply Hgreatest, fd_sorted_elem. by apply last_Some_elem_of.
    + destruct (sorted_last_greatest Rle _ final k (fd_sorted_sorted d) E Hin'); lra.
  - apply last_None in E. rewrite E in Hin'. by apply elem_of_nil in Hin'.
Qed.

(** X2.  Boundary clamp of the base ampacity: at or below the smallest
    standard area of the table the base value is the table value at the
    smallest area, and at or above the largest it is the value at the
    largest; nothing is extrapolated. *)
Theorem ampacity_boundary_clamp (base_table : float_dict) (kmin kmax vmin vmax : R) :
  is_least_area base_table kmin → is_greatest_area base_table kmax →
  fd_get base_table kmin = Some vmin → fd_get base_table kmax = Some vmax →
  (∀ area, area <= kmin → ampacity_base_value base_table area = Return (Some vmin))
  ∧ (∀ area, kmax <= area → ampacity_base_value base_table area = Return (Some vmax)).
Proof.
  intros Hmin Hmax Hvmin Hvmax.
  pose proof (fd_sorted_head_least _ _ Hmin) as Hhead.
  pose proof (fd_sorted_last_greatest _ _ Hmax) as Hlast.
  assert (Hle : kmin <= kmax) by (apply Hmin, Hmax).
  split; intros area Harea; unfold ampacity_base_value; cbv zeta; rewrite Hhead, Hlast.
  - rewrite decide_True by done.
    by rewrite (fd_getitem_Some _ _ _ Hvmin), bind_Return.
  - destruct (decide (area <= kmin)) as [Hlow | Hhigh].
    + assert (kmin = kmax) as Heq by lra.
      rewrite Heq, Hvmax in Hvmin. injection Hvmin as <-.
      rewrite <- Heq in Hvmax.
      by rewrite (fd_getitem_Some _ _ _ Hvmax), bind_Return.
    + rewrite decide_True by lra.
      by rewrite (fd_getitem_Some _ _ _ Hvmax), bind_Return.
Qed.

Lemma base_sample_least : is_least_area base_sample 1.5.
Proof.
  split; [by apply elem_of_cons; left |].
  intros k Hk. unfold base_sample in Hk. simpl in Hk.
  repeat (apply elem_of_cons in Hk as [-> | Hk]; [lra |]). by apply elem_of_nil in Hk.
Qed.

Lemma base_sample_greatest : is_greatest_area base_sample 2.5.
Proof.
  split; [apply elem_of_cons; right; by apply elem_of_cons; left |].
  intros k Hk. unfold base_sample in Hk. simpl in Hk.
  repeat (apply elem_of_cons in Hk as [-> | Hk]; [lra |]). by apply elem_of_nil in Hk.
Qed.

Lemma ampacity_boundary_clamp_witness :
  ampacity_base_value base_sample 1 = Return (Some 19.5)
  ∧ ampacity_base_value base_sample 4 = Return (Some 27).
Proof.
  destruct (ampacity_boundary_clamp base_sample 1.5 2.5 19.5 27) as [Hlow Hhigh].
  - apply base_sample_least.
  - apply base_sample_greatest.
  - unfold base_sample. simpl. by rewrite decide_True by lra.
  - unfold base_sample. simpl. rewrite decide_False by lra. by rewrite decide_True by lra.
  - split; [apply Hlow | apply Hhigh]; lra.
Defined.

(** X3.  The temperature-factor lookup never raises: a missing or empty
    table and a temperature out of range give [None], and the interpolation
    reads only keys of the table and divides by a difference that is not
    zero. *)
Theorem temperature_lookup_never_raises (self : CableCalcApp)
    (insulation_key medium : string) (temperature : R) :
  ∃ result,
    _lookup_temperature_factor self insulation_key medium temperature = Return result.
Proof. apply lookup_temperature_factor_returns. Qed.

Lemma temperature_scan_skip (table : gmap Z R) (temperature : R)
    (skipped rest : list (Z * Z)) :
  (∀ lower upper, (lower, upper) ∈ skipped →
     ¬ (IZR lower <= temperature ∧ temperature <= IZR upper)) →
  temperature_scan table temperature (skipped ++ rest)
  = temperature_scan table temperature rest.
Proof.
  induction skipped as [|[lower upper] skipped IH]; intros Hout; [done |].
  simpl. rewrite decide_False by (apply Hout; by apply elem_of_cons; left).
  apply IH. intros lo up Hin. apply Hout. apply elem_of_cons. by right.
Qed.

(** X4.  Between two neighbouring breakpoints of the selected temperature
    table the factor returned lies between the two tabulated factors,
    inclusive: the interpolation never leaves the interval of its end
    values. *)
Theorem temperature_between_neighbours (self : CableCalcApp)
    (insulation_key medium : string) (table : gmap Z R)
    (l1 l2 : list Z) (k1 k2 : Z) (v1 v2 temperature : R) :
  temperature_table self insulation_key medium = Some table →
  sorted_keys table = l1 ++ k1 :: k2 :: l2 →
  table !! k1 = Some v1 → table !! k2 = Some v2 →
  IZR k1 <= temperature <= IZR k2 →
  ∃ factor,
    _lookup_temperature_factor self insulation_key medium temperature = Return (Some factor)
    ∧ Rmin v1 v2 <= factor <= Rmax v1 v2.
Proof.
  intros Htable Hkeys Hv1 Hv2 [Hlow Hhigh].
  pose proof (sorted_keys_sorted table) as Hsorted.
  assert (Hin1 : k1 ∈ sorted_keys table).
  { rewrite Hkeys. apply elem_of_app. right. by apply elem_of_cons; left. }
  assert (Hin2 : k2 ∈ sorted_keys table).
  { rewrite Hkeys. apply elem_of_app. right.
    apply elem_of_cons. right. by apply elem_of_cons; left. }
  assert (Hne : table ≠ ∅).
  { intros ->. by rewrite lookup_empty in Hv1. }
  unfold _lookup_temperature_factor. rewrite Htable. cbv beta iota.
  rewrite decide_False by done.
  unfold temperature_factor_in. cbv zeta.
  destruct (head (sorted_keys table)) as [first|] eqn:Hhead;
    [| apply head_None in Hhead; rewrite Hhead in Hin1; by apply elem_of_nil in Hin1].
  destruct (last (sorted_keys table)) as [final|] eqn:Hlast;
    [| apply last_None in Hlast; rewrite Hlast in Hin1; by apply elem_of_nil in Hin1].
  assert (Hfirst : (first ≤ k1)%Z).
  { destruct (sorted_head_least Z.le _ first k1 Hsorted Hhead Hin1); lia. }
  assert (Hfinal : (k2 ≤ final)%Z).
  { destruct (sorted_last_greatest Z.le _ final k2 Hsorted Hlast Hin2); lia. }
  apply IZR_le in Hfirst, Hfinal.
  rewrite decide_False by lra.
  assert (Hsorted1 : StronglySorted Z.le (l1 ++ [k1])).
  { rewrite Hkeys in Hsorted.
    replace (l1 ++ k1 :: k2 :: l2) with ((l1 ++ [k1]) ++ k2 :: l2) in Hsorted
      by (by rewrite <- app_assoc).
    by apply StronglySorted_app_1_l in Hsorted. }
  assert (Hbelow : ∀ k, k ∈ l1 ++ [k1] → (k ≤ k1)%Z).
  { intros k Hk.
    destruct (sorted_last_greatest Z.le _ k1 k Hsorted1 (last_snoc k1 l1) Hk); lia. }
  assert (Habove : ∀ k, k ∈ k2 :: l2 → (k2 ≤ k)%Z).
  { intros k Hk. rewrite Hkeys in Hsorted.
    replace (l1 ++ k1 :: k2 :: l2) with ((l1 ++ [k1]) ++ k2 :: l2) in Hsorted
      by (by rewrite <- app_assoc).
    apply StronglySorted_app_1_r in Hsorted.
    destruct (sorted_head_least Z.le _ k2 k Hsorted eq_refl Hk); lia. }
  destruct (float_lookup table temperature) as [value|] eqn:Hfl.
  - exists value. split; [done |].
    unfold float_lookup in Hfl.
    destruct (decide (IZR (Zfloor temperature) = temperature)) as [Hint |]; [| done].
    assert (Hkf : Zfloor temperature ∈ sorted_keys table)
      by (apply sorted_keys_elem; by exists value).
    rewrite <- Hint in Hlow, Hhigh. apply le_IZR in Hlow, Hhigh.
    rewrite Hkeys in Hkf.
    replace (l1 ++ k1 :: k2 :: l2) with ((l1 ++ [k1]) ++ k2 :: l2) in Hkf
      by (by rewrite <- app_assoc).
    apply elem_of_app in Hkf as [Hkf | Hkf].
    + apply Hbelow in Hkf. assert (Zfloor temperature = k1) as Heq by lia.
      rewrite Heq, Hv1 in Hfl. injection Hfl as <-. apply between_left.
    + apply Habove in Hkf. assert (Zfloor temperature = k2) as Heq by lia.
      rewrite Heq, Hv2 in Hfl. injection Hfl as <-. apply between_right.
  - rewrite Hkeys, zip_tail_app, temperature_scan_skip.
    + simpl. rewrite decide_True by done.
      unfold getitem. rewrite Hv1, Hv2, !bind_Return.
      destruct (isclose (IZR k2) (IZR k1) 1e-9 0) eqn:Hclose.
      { exists v1. split; [done | apply between_left]. }
      apply isclose_false_ne in Hclose.
      rewrite truediv_Return by lra. rewrite bind_Return.
      eexists. split; [done |]. apply interpolation_between.
      assert (Hpos : 0 < IZR k2 - IZR k1) by lra.
      split.
      * apply Rmult_le_pos; [lra |]. left. by apply Rinv_0_lt_compat.
      * apply (Rmult_le_reg_r (IZR k2 - IZR k1)); [done |].
        unfold Rdiv. rewrite Rmult_assoc, Rinv_l by lra. lra.
    + intros lower upper Hin [Hlo Hup].
      apply zip_tail_elem in Hin as [_ Hupper].
      apply Hbelow, IZR_le in Hupper.
      assert (temperature = IZR k1) as Heq by lra.
      rewrite Heq, float_lookup_int, Hv1 in Hfl. discriminate.
Qed.

Lemma kt_sample_sorted : sorted_keys kt_sample = [20; 30; 40]%Z.
Proof.
  apply (StronglySorted_unique Z.le _ _ (sorted_keys_sorted kt_sample)).
  - repeat constructor; lia.
  - apply NoDup_Permutation.
    + unfold sorted_keys. rewrite merge_sort_Permutation. apply NoDup_fst_map_to_list.
    + repeat constructor; rewrite ?elem_of_cons, ?elem_of_nil; lia.
    + intros k. rewrite sorted_keys_elem. split.
      * intros Hk. destruct (kt_sample_keys k Hk) as [-> | [-> | ->]];
          rewrite !elem_of_cons; tauto.
      * rewrite !elem_of_cons, elem_of_nil. intros [-> | [-> | [-> | []]]]; by eexists.
Qed.

Lemma temperature_between_neighbours_witness :
  ∃ factor,
    _lookup_temperature_factor (sample_app [] ∅ []) "PVC" "air" 35 = Return (Some factor)
    ∧ Rmin 1 0.87 <= factor <= Rmax 1 0.87.
Proof.
  apply (temperature_between_neighbours (sample_app [] ∅ []) "PVC" "air" kt_sample
           [20%Z] [] 30 40).
  - reflexivity.
  - apply kt_sample_sorted.
  - reflexivity.
  - reflexivity.
  - lra.
Defined.

Lemma max_key_nonempty {V} (d : gmap Z V) :
  d ≠ ∅ → ∃ k, max_key d = Return k ∧ is_Some (d !! k).
Proof.
  intros Hne. unfold max_key.
  destruct (map_to_list d) as [|[k0 v0] l] eqn:E.
  - by apply map_to_list_empty_iff in E.
  - simpl. eexists. split; [reflexivity |].
    assert (Hspec : max_key d = Return (foldl Z.max k0 l.*1)).
    { unfold max_key. by rewrite E. }
    by apply max_key_spec in Hspec as [Hk _].
Qed.

(** X5.  The grouping-factor lookup raises in exactly one situation: the
    grouping table is empty and more than one circuit is asked for; the
    exception is then a [ValueError].  In every other case it returns a
    factor. *)
Theorem group_factor_raises_iff_empty (self : CableCalcApp) (circuits : Z) :
  ((∃ e, _lookup_group_factor self circuits = Raise e)
   ↔ GROUPING_FACTORS self = ∅ ∧ (1 < circuits)%Z)
  ∧ (∀ e, _lookup_group_factor self circuits = Raise e → e = ValueError).
Proof.
  assert (Hreturns : ¬ (GROUPING_FACTORS self = ∅ ∧ (1 < circuits)%Z) →
                     ∃ factor, _lookup_group_factor self circuits = Return factor).
  { intros Hnot. unfold _lookup_group_factor.
    destruct (decide (circuits ≤ 1)%Z) as [Hc | Hc]; [by eexists |].
    assert (Hne : GROUPING_FACTORS self ≠ ∅) by (intros Hempty; apply Hnot; split; [done | lia]).
    destruct (max_key_nonempty _ Hne) as (kmax & -> & [vmax Hvmax]).
    rewrite bind_Return. unfold getitem. rewrite Hvmax.
    destruct (decide (circuits >= kmax)%Z); [by eexists |].
    rewrite bind_Return. by eexists. }
  split; [split |].
  - intros [e He].
    destruct (decide (GROUPING_FACTORS self = ∅ ∧ (1 < circuits)%Z)) as [| Hnot]; [done |].
    destruct (Hreturns Hnot) as [factor Hfactor]. congruence.
  - intros [Hempty Hc]. exists ValueError. by apply lookup_group_factor_empty.
  - intros e He.
    destruct (decide (GROUPING_FACTORS self = ∅ ∧ (1 < circuits)%Z)) as [[Hempty Hc] | Hnot].
    + rewrite (lookup_group_factor_empty self circuits Hempty Hc) in He. congruence.
    + destruct (Hreturns Hnot) as [factor Hfactor]. congruence.
Qed.

(** ** Voltage drop *)



(** ** Chain walk and circuit total *)

Section ChainMore.
Context `{Builtins}.

Lemma chain_walk_more_fuel (self : CableCalcApp)
    (circuit form_od form_do form_l_norm form_area_norm : string)
    (fuel : nat) (visited : gset string) (current : string) (total result : R) :
  chain_walk self circuit form_od form_do form_l_norm form_area_norm fuel visited current total
  = Some result →
  chain_walk self circuit form_od form_do form_l_norm form_area_norm (S fuel) visited current
    total = Some result.
Proof.
  revert visited current total.
  induction fuel as [|fuel IH]; intros visited current total Hwalk; [done |].
  simpl in Hwalk. simpl.
  destruct (decide (current ≠ "" ∧ current ∉ visited)); [| done].
  destruct (List.find _ (_table_data self)) as [found|]; [| done].
  destruct (decide (found = ∅)); [done |].
  by apply IH in Hwalk.
Qed.

Lemma chain_walk_fuel_le (self : CableCalcApp)
    (circuit form_od form_do form_l_norm form_area_norm : string)
    (fuel fuel' : nat) (visited : gset string) (current : string) (total result : R) :
  (fuel ≤ fuel')%nat →
  chain_walk self circuit form_od form_do form_l_norm form_area_norm fuel visited current total
  = Some result →
  chain_walk self circuit form_od form_do form_l_norm form_area_norm fuel' visited current
    total = Some result.
Proof.
  intros Hle Hwalk. induction Hle as [|fuel' Hle IH]; [done |].
  by apply chain_walk_more_fuel.
Qed.

(** X8.  The backward walk over the segment table always ends, also on a
    table whose records form a cycle: one iteration per record plus one is
    enough, and a larger bound on the number of iterations gives the same
    sum. *)
Theorem chain_walk_ends (self : CableCalcApp) (circuit form_od : string) :
  ∃ total,
    _sum_drop_chain_ending_at self circuit form_od = Some total
    ∧ ∀ fuel form_do form_l_norm form_area_norm,
        (S (length (_table_data self)) ≤ fuel)%nat →
        chain_walk self circuit form_od form_do form_l_norm form_area_norm
          (S (length (_table_data self))) ∅ (strip form_od) 0
        = chain_walk self circuit form_od form_do form_l_norm form_area_norm
            fuel ∅ (strip form_od) 0.
Proof.
  destruct (sum_drop_chain_total self circuit form_od) as [total Htotal].
  exists total. split; [exact Htotal |].
  intros fuel form_do form_l_norm form_area_norm Hfuel.
  destruct (chain_walk_total self circuit form_od form_do form_l_norm form_area_norm
              (S (length (_table_data self))) ∅ (strip form_od) 0) as [r Hr].
  - intros x Hx. by apply not_elem_of_empty in Hx.
  - rewrite size_empty. pose proof (chain_ends_size self). lia.
  - rewrite Hr. symmetry. by apply (chain_walk_fuel_le _ _ _ _ _ _ _ _ _ _ _ _ Hfuel).
Qed.
Lemma find_filter {A} (f : A → bool) (P : A → Prop) `{!∀ x, Decision (P x)} (l : list A) :
  (∀ x, f x = true → P x) → List.find f (filter P l) = List.find f l.
Proof.
  intros Himp. induction l as [|x l IH]; [done |].
  rewrite filter_cons. destruct (decide (P x)) as [Hx | Hx]; simpl.
  - destruct (f x); [done | exact IH].
  - destruct (f x) eqn:Hfx; [| exact IH]. by apply Himp in Hfx.
Qed.

Lemma chain_walk_filter (self : CableCalcApp)
    (circuit form_od form_do form_l_norm form_area_norm : string)
    (fuel : nat) (visited : gset string) (current : string) (total : R) :
  chain_walk (with_table self (filter (on_circuit circuit) (_table_data self)))
    circuit form_od form_do form_l_norm form_area_norm fuel visited current total
  = chain_walk self circuit form_od form_do form_l_norm form_area_norm fuel visited current
      total.
Proof.
  revert visited current total.
  induction fuel as [|fuel IH]; intros visited current total; [done |].
  simpl. destruct (decide (current ≠ "" ∧ current ∉ visited)); [| done].
  rewrite find_filter.
  - destruct (List.find _ (_table_data self)) as [found|]; [| done].
    destruct (decide (found = ∅)); [done |]. apply IH.
  - intros row Hrow. by apply chain_row_found_do in Hrow as [Hc _].
Qed.

(** X9.  The chain sum of a circuit reads the records of that circuit only:
    on the table with all records of other circuits removed it is the same. *)
Theorem chain_sum_ignores_other_circuits (self : CableCalcApp) (circuit form_od : string) :
  _sum_drop_chain_ending_at
    (with_table self (filter (on_circuit circuit) (_table_data self))) circuit form_od
  = _sum_drop_chain_ending_at self circuit form_od.
Proof.
  destruct (sum_drop_chain_total
              (with_table self (filter (on_circuit circuit) (_table_data self)))
              circuit form_od) as [total Htotal].
  rewrite Htotal. symmetry. revert Htotal.
  unfold _sum_drop_chain_ending_at.
  destruct (decide (circuit = "" ∨ form_od = "")); [done |].
  cbv zeta.
  change (_form_values (with_table self (filter (on_circuit circuit) (_table_data self))))
    with (_form_values self).
  change (_table_data (with_table self (filter (on_circuit circuit) (_table_data self))))
    with (filter (on_circuit circuit) (_table_data self)).
  rewrite chain_walk_filter. apply chain_walk_fuel_le.
  apply le_n_S, length_filter.
Qed.








End ChainMore.


(** ** Search loop *)

Section SearchMore.
Context (self : CableCalcApp).
Context (insulation_key conductor method : string) (insulation_theta : R).
Context (loaded_cores n_parallel voltage_value : Z).
Context (s_coeff t_coeff cos_phi length icalc_total : R).
Context (limit_pct : option R) (k_value : R).
Context (breaker_values : list (string * R)).

Lemma scan_breakers_records (P : candidate → Prop) (area iz_total drop_val : R)
    (breakers : list (string * R)) (fallback : list candidate) :
  (∀ item, item ∈ fallback → P item) →
  (∀ s v, (s, v) ∈ breakers → 0 < v →
     combo_ok icalc_total limit_pct k_value iz_total drop_val v = false →
     P (violation icalc_total limit_pct k_value area iz_total drop_val s v)) →
  ∀ item,
    item ∈ (scan_breakers icalc_total limit_pct k_value area iz_total drop_val breakers
              fallback).2 →
    P item.
Proof.
  revert fallback.
  induction breakers as [|[breaker_str breaker_value] rest IH]; intros fallback Hold Hnew;
    [exact Hold |].
  assert (Hrest : ∀ s v, (s, v) ∈ rest → 0 < v →
            combo_ok icalc_total limit_pct k_value iz_total drop_val v = false →
            P (violation icalc_total limit_pct k_value area iz_total drop_val s v)).
  { intros s v Hin. apply Hnew. by right. }
  simpl. destruct (decide (breaker_value <= 0)) as [Hneg | Hpos]; [by apply IH |].
  destruct (combo_ok icalc_total limit_pct k_value iz_total drop_val breaker_value) eqn:Hok;
    [exact Hold |].
  apply IH; [| exact Hrest].
  intros item [Hitem | Hitem%list_elem_of_singleton]%elem_of_app; [by apply Hold |].
  subst item. apply Hnew; [by left | lra | exact Hok].
Qed.

Lemma scan_sections_records (P : candidate → Prop) (sections : list R)
    (fallback : list candidate) :
  (∀ item, item ∈ fallback → P item) →
  (∀ a iz_total drop_val s v,
     a ∈ sections → 0 < a →
     evaluated self insulation_key conductor method insulation_theta loaded_cores
       n_parallel voltage_value s_coeff t_coeff cos_phi length icalc_total
       a iz_total drop_val →
     0 < iz_total → (s, v) ∈ breaker_values → 0 < v →
     combo_ok icalc_total limit_pct k_value iz_total drop_val v = false →
     P (violation icalc_total limit_pct k_value a iz_total drop_val s v)) →
  ∃ result fallback',
    scan_sections self insulation_key conductor method insulation_theta loaded_cores
      n_parallel voltage_value s_coeff t_coeff cos_phi length icalc_total limit_pct k_value
      breaker_values sections fallback
    = Return (result, fallback')
    ∧ ∀ item, item ∈ fallback' → P item.
Proof.
  revert fallback.
  induction sections as [|area rest IH]; intros fallback Hold Hnew.
  { by exists None, fallback. }
  assert (Hrest : ∀ fallback1, (∀ item, item ∈ fallback1 → P item) →
            ∃ result fallback',
              scan_sections self insulation_key conductor method insulation_theta
                loaded_cores n_parallel voltage_value s_coeff t_coeff cos_phi length
                icalc_total limit_pct k_value breaker_values rest fallback1
              = Return (result, fallback')
              ∧ ∀ item, item ∈ fallback' → P item).
  { intros fallback1 Hold1. apply IH; [exact Hold1 |].
    intros a iz d s v Hin. apply Hnew. by right. }
  simpl. destruct (decide (area <= 0)) as [Hneg | Hpos]; [by apply Hrest |].
  destruct (lookup_ampacity_returns self insulation_key conductor method area loaded_cores)
    as [[iz_base|] Hlookup]; rewrite Hlookup, bind_Return; [| by apply Hrest].
  destruct (decide (iz_base = 0)); [by apply Hrest |].
  destruct (decide (iz_base * s_coeff * t_coeff * IZR (Z.max n_parallel 1) <= 0))
    as [Hlow | Hcap]; [by apply Hrest |].
  destruct (drop_pct_returns self (IZR voltage_value) cos_phi length conductor
              insulation_theta area method loaded_cores n_parallel icalc_total)
    as [drop_val Hdrop].
  rewrite Hdrop, bind_Return.
  pose proof (scan_breakers_records P area
                (iz_base * s_coeff * t_coeff * IZR (Z.max n_parallel 1)) drop_val
                breaker_values fallback Hold) as Hinner.
  destruct (scan_breakers icalc_total limit_pct k_value area
              (iz_base * s_coeff * t_coeff * IZR (Z.max n_parallel 1)) drop_val
              breaker_values fallback) as [[success_combo|] fallback1].
  - exists (Some success_combo), fallback1. split; [done |].
    apply Hinner. intros s v Hin Hv Hok.
    apply Hnew; try done; [by left | lra | | lra].
    exists iz_base. by repeat split.
  - apply Hrest. apply Hinner. intros s v Hin Hv Hok.
    apply Hnew; try done; [by left | lra | | lra].
    exists iz_base. by repeat split.
Qed.

(** X11.  With a positive design current the search loop never raises, and
    it ends without a pair exactly when no catalogue section of positive
    area complies with any catalogue breaker. *)
Theorem search_none_iff_no_compliant (sections : list R) :
  0 < icalc_total →
  ∃ result fallback,
    scan_sections self insulation_key conductor method insulation_theta loaded_cores
      n_parallel voltage_value s_coeff t_coeff cos_phi length icalc_total limit_pct k_value
      breaker_values sections []
    = Return (result, fallback)
    ∧ (result = None
       ↔ ∀ a s v, a ∈ sections → 0 < a → (s, v) ∈ breaker_values →
           ¬ compliant self insulation_key conductor method insulation_theta loaded_cores
               n_parallel voltage_value s_coeff t_coeff cos_phi length icalc_total
               limit_pct k_value a v).
Proof.
  intros Hicalc.
  destruct (scan_sections_spec self insulation_key conductor method insulation_theta
              loaded_cores n_parallel voltage_value s_coeff t_coeff cos_phi length
              icalc_total limit_pct k_value breaker_values sections [] Hicalc)
    as [(before & area & after & bb & bs & bv & ba & iz & d & fb
         & Hsec & Hbr & Harea & Hev & Hok & _ & _ & Hscan)
       | [Hnone [fb Hscan]]].
  - exists (Some (area, bs, iz, d)), fb. split; [exact Hscan |]. split; [done |].
    intros Hnone. exfalso. apply (Hnone area bs bv).
    + rewrite Hsec. apply elem_of_app. right. by left.
    + exact Harea.
    + rewrite Hbr. apply elem_of_app. right. by left.
    + by exists iz, d.
  - exists None, fb. by split.
Qed.

(** X12.  The search loop never raises, and every candidate it records for
    the report on a failed search is a near miss: a positive section and a
    positive rating of the catalogues, carried with the total ampacity and
    the drop of that section, that fails at least one of the three checks. *)
Theorem search_records_near_misses (sections : list R) :
  ∃ result fallback,
    scan_sections self insulation_key conductor method insulation_theta loaded_cores
      n_parallel voltage_value s_coeff t_coeff cos_phi length icalc_total limit_pct k_value
      breaker_values sections []
    = Return (result, fallback)
    ∧ ∀ item, item ∈ fallback →
        near_miss self insulation_key conductor method insulation_theta loaded_cores
          n_parallel voltage_value s_coeff t_coeff cos_phi length icalc_total limit_pct
          k_value breaker_values sections item.
Proof.
  apply scan_sections_records.
  - intros item Hitem. by apply elem_of_nil in Hitem.
  - intros a iz d s v Ha Hpos Hev Hiz Hsv Hv Hok. by repeat split.
Qed.

Lemma near_miss_issue (item : candidate) :
  0 < cand_breaker_value item →
  combo_ok icalc_total limit_pct k_value
    (cand_iz_total item) (cand_drop_val item) (cand_breaker_value item) = false →
  candidate_issues icalc_total limit_pct k_value item ≠ [].
Proof.
  intros Hv Hok. unfold candidate_issues. cbv zeta.
  unfold combo_ok in Hok. cbv zeta in Hok.
  destruct (decide (cand_breaker_value item < icalc_total)) as [| Hlow];
    [by destruct limit_pct as [limit|]; [destruct (decide _) |] |].
  destruct (decide (cand_breaker_value item > cand_iz_total item)) as [| Hhigh];
    [by destruct limit_pct as [limit|]; [destruct (decide _) |] |].
  destruct (decide (cand_breaker_value item * k_value > 1.45 * cand_iz_total item))
    as [| Htrip]; [by destruct limit_pct as [limit|]; [destruct (decide _) |] |].
  rewrite bool_decide_eq_true_2 in Hok by lra.
  rewrite (bool_decide_eq_true_2 (cand_breaker_value item * k_value
                                  <= 1.45 * cand_iz_total item)) in Hok by lra.
  destruct limit_pct as [limit|]; [| done].
  destruct (decide (cand_drop_val item > limit)) as [| Hdrop]; [done |].
  rewrite bool_decide_eq_true_2 in Hok by lra. done.
Qed.

Lemma violation_metric (area iz_total drop_val : R) (s : string) (v : R) :
  combo_ok icalc_total limit_pct k_value iz_total drop_val v = false →
  0 <= cand_metric (violation icalc_total limit_pct k_value area iz_total drop_val s v)
  ∧ (limit_pct ≠ Some 0 →
     0 < cand_metric (violation icalc_total limit_pct k_value area iz_total drop_val s v)).
Proof.
  intros Hok. unfold violation. cbv zeta. simpl.
  pose proof (Rmax_l 0 (icalc_total - v)) as H1.
  pose proof (Rmax_r 0 (icalc_total - v)) as H1'.
  pose proof (Rmax_l 0 (v - iz_total)) as H2.
  pose proof (Rmax_r 0 (v - iz_total)) as H2'.
  pose proof (Rmax_l 0 (icalc_total - iz_total)) as H3.
  pose proof (Rmax_l 0 (v * k_value - 1.45 * iz_total)) as H5.
  pose proof (Rmax_r 0 (v * k_value - 1.45 * iz_total)) as H5'.
  assert (H4 : 0 <= match limit_pct with
                    | Some limit =>
                      Rmax 0 (drop_val - (if decide (limit = 0) then drop_val else limit))
                    | None => 0
                    end).
  { destruct limit_pct; [apply Rmax_l | lra]. }
  split; [lra |].
  intros Hlimit. unfold combo_ok in Hok. cbv zeta in Hok.
  destruct (decide (v < icalc_total)); [lra |].
  destruct (decide (v > iz_total)); [lra |].
  destruct (decide (v * k_value > 1.45 * iz_total)); [lra |].
  rewrite bool_decide_eq_true_2 in Hok by lra.
  rewrite (bool_decide_eq_true_2 (v * k_value <= 1.45 * iz_total)) in Hok by lra.
  destruct limit_pct as [limit|]; [| done].
  destruct (decide (drop_val <= limit)) as [| Hdrop];
    [by rewrite bool_decide_eq_true_2 in Hok |].
  destruct (decide (limit = 0)) as [-> | _]; [done |].
  pose proof (Rmax_r 0 (drop_val - limit)). lra.
Qed.

(** X13.  Every candidate the search loop records has at least one issue to
    show in the report, so the text for minimal deviations is never used;
    its ranking measure is never negative, and it is positive unless the
    selected drop limit is exactly zero. *)
Theorem near_miss_has_issue (sections : list R) :
  ∃ result fallback,
    scan_sections self insulation_key conductor method insulation_theta loaded_cores
      n_parallel voltage_value s_coeff t_coeff cos_phi length icalc_total limit_pct k_value
      breaker_values sections []
    = Return (result, fallback)
    ∧ ∀ item, item ∈ fallback →
        candidate_issues icalc_total limit_pct k_value item ≠ []
        ∧ 0 <= cand_metric item
        ∧ (limit_pct ≠ Some 0 → 0 < cand_metric item).
Proof.
  apply scan_sections_records.
  - intros item Hitem. by apply elem_of_nil in Hitem.
  - intros a iz d s v Ha Hpos Hev Hiz Hsv Hv Hok. split.
    + by apply near_miss_issue.
    + by apply violation_metric.
Qed.
End SearchMore.

Lemma search_none_iff_no_compliant_witness :
  ∃ result fallback,
    sample_scan [1.5; 2.5] = Return (result, fallback)
    ∧ (result = None
       ↔ ∀ a s v, a ∈ [1.5; 2.5] → 0 < a → (s, v) ∈ sample_breakers →
           ¬ sample_compliant [1.5; 2.5] a v).
Proof.
  apply (search_none_iff_no_compliant (sample_app [1.5; 2.5] sample_form []) "PVC" "Cu" "C"
           70 2 1 230 1 1 1 10 5 None 1.45 sample_breakers [1.5; 2.5]).
  lra.
Defined.

(** ** Input checks of the search *)

Section InputChecks.
Context `{Builtins}.

Lemma replace_comma_empty (s : string) : replace_comma s = "" ↔ s = "".
Proof. destruct s; simpl; split; intros Heq; (done || discriminate). Qed.

(** X14.  The two number parsers agree: the strict one, which shows an
    error box, returns the same value as the silent one on every text, and
    it shows a box exactly when there is no value. *)
Theorem parsers_agree (value field_name : string) :
  (_parse_float value field_name).2 = _try_parse_float value
  ∧ ((_parse_float value field_name).1 = [] ↔ is_Some (_try_parse_float value)).
Proof.
  unfold _parse_float, _try_parse_float. cbv zeta.
  destruct (decide (strip value = "")) as [Hempty | Hfull].
  - rewrite decide_True by (by apply replace_comma_empty). simpl.
    split; [done |]. split; [done | by intros [x Hx]].
  - rewrite decide_False by (by rewrite replace_comma_empty).
    destruct (float_of_str (replace_comma (strip value))) as [x|]; simpl.
    + split; [done |]. split; [by eexists | done].
    + split; [done |]. split; [done | by intros [x Hx]].
Qed.

Lemma validate_counts_ranges (self : CableCalcApp)
    (loaded_cores circuits_count n_parallel : Z) (count_err : option string) :
  _validate_counts self = (loaded_cores, circuits_count, n_parallel, count_err) →
  ((loaded_cores = 2 ∨ loaded_cores = 3) ∧ 1 ≤ circuits_count ∧ 1 ≤ n_parallel)%Z.
Proof.
  unfold _validate_counts.
  destruct (int_of_str (strip (form_value self "Нагруженные жилы (nž)"))) as [lc|];
    [| intros [= <- <- <- <-]; lia].
  destruct (decide (lc ≠ 2 ∧ lc ≠ 3)%Z) as [| Hlc]; [intros [= <- <- <- <-]; lia |].
  assert (lc = 2 ∨ lc = 3)%Z by lia.
  destruct (int_of_str (strip (form_value self "Кабелей в группе (для S)"))) as [cc|];
    [| intros [= <- <- <- <-]; lia].
  destruct (decide (cc < 1)%Z); [intros [= <- <- <- <-]; lia |].
  destruct (int_of_str (strip (form_value self "Параллельные кабели (n∥)"))) as [np|];
    [| intros [= <- <- <- <-]; lia].
  destruct (decide (np < 1)%Z); intros [= <- <- <- <-]; lia.
Qed.

(** X15.  Whatever the three count fields hold, [_validate_counts] hands
    back counts the engine can compute with: 2 or 3 loaded cores, at least
    one circuit and at least one parallel cable; a field that is rejected is
    replaced by its default together with every field read after it.  When
    no error is reported the three counts are the numbers in the fields. *)
Theorem validate_counts_in_range (self : CableCalcApp) :
  ∃ loaded_cores circuits_count n_parallel count_err,
    _validate_counts self = (loaded_cores, circuits_count, n_parallel, count_err)
    ∧ ((loaded_cores = 2 ∨ loaded_cores = 3) ∧ 1 ≤ circuits_count ∧ 1 ≤ n_parallel)%Z
    ∧ (count_err = None →
       int_of_str (strip (form_value self "Нагруженные жилы (nž)")) = Some loaded_cores
       ∧ int_of_str (strip (form_value self "Кабелей в группе (для S)"))
         = Some circuits_count
       ∧ int_of_str (strip (form_value self "Параллельные кабели (n∥)"))
         = Some n_parallel).
Proof.
  destruct (_validate_counts self) as [[[lc cc] np] err] eqn:Hcounts.
  exists lc, cc, np, err. split; [done |].
  split; [by apply (validate_counts_ranges self lc cc np err) |].
  intros ->. revert Hcounts. unfold _validate_counts.
  destruct (int_of_str (strip (form_value self "Нагруженные жилы (nž)"))) as [lc'|];
    [| discriminate].
  destruct (decide (lc' ≠ 2 ∧ lc' ≠ 3)%Z); [discriminate |].
  destruct (int_of_str (strip (form_value self "Кабелей в группе (для S)"))) as [cc'|];
    [| discriminate].
  destruct (decide (cc' < 1)%Z); [discriminate |].
  destruct (int_of_str (strip (form_value self "Параллельные кабели (n∥)"))) as [np'|];
    [| discriminate].
  destruct (decide (np' < 1)%Z); [discriminate |].
  by intros [= <- <- <-].
Qed.




Lemma prepare_search_ranges (self : CableCalcApp) (inputs : search_inputs) :
  prepare_search self = Return (inr inputs) →
  ((si_loaded_cores inputs = 2 ∨ si_loaded_cores inputs = 3) ∧ 1 ≤ si_n_parallel inputs)%Z
  ∧ si_voltage_value inputs ≠ 0%Z
  ∧ 0 < si_cos_phi inputs <= 1
  ∧ 0 <= si_length inputs
  ∧ 0 < si_icalc_total inputs
  ∧ 0 < si_t_coeff inputs
  ∧ 0 < si_k_value inputs
  ∧ si_breaker_values inputs ≠ [].
Proof.
  intros Hprep. unfold prepare_search in Hprep.
  destruct (INSULATION_META self !! form_value self "Tip-IZOLACIJE") as [meta|];
    [| discriminate].
  destruct (_validate_counts self) as [[[loaded_cores circuits_count] n_parallel] err]
    eqn:Hcounts.
  apply validate_counts_ranges in Hcounts as (Hlc & _ & Hnp).
  destruct err as [err|]; [discriminate |].
  destruct (_parse_float (form_value self "Pi, W") "Pi, W") as [s1 [pi|]]; [| discriminate].
  destruct (_parse_float (form_value self "Kj") "Kj") as [s2 [kj|]]; [| discriminate].
  destruct (_parse_float (form_value self "η") "η") as [s3 [eta|]]; [| discriminate].
  destruct (decide (¬ (0 < eta ∧ eta <= 1))) as [| Heta]; [discriminate |].
  apply dec_stable in Heta.
  destruct (_parse_float (form_value self "cos φ") "cos φ") as [s4 [cos_phi|]];
    [| discriminate].
  destruct (decide (¬ (0 < cos_phi ∧ cos_phi <= 1))) as [| Hcos]; [discriminate |].
  apply dec_stable in Hcos.
  destruct (_parse_float (form_value self "Dužina L, m") "Dužina L, m")
    as [s5 [length|]]; [| discriminate].
  destruct (decide (length < 0)) as [| Hlength]; [discriminate |].
  destruct (int_of_str (form_value self "U")) as [voltage_value|]; [| discriminate].
  assert (Hk : 0 < match _try_parse_float (form_value self "k") with
                   | None => 1.45
                   | Some k_value => if decide (k_value <= 0) then 1.45 else k_value
                   end).
  { destruct (_try_parse_float (form_value self "k")) as [k|]; [| lra].
    destruct (decide (k <= 0)); lra. }
  assert (Hfinish : ∀ t_coeff, 0 < t_coeff →
    (s_coeff ← _lookup_group_factor self (effective_circuits circuits_count n_parallel);
     let pj := pi * kj in
     phase ← phase_factor loaded_cores;
     let denominator := phase * IZR voltage_value * cos_phi in
     if decide (denominator = 0) then Return (inl [error_text "error.division_zero"])
     else
     pj_eta ← truediv pj eta;
     icalc_total ← truediv pj_eta denominator;
     if decide (icalc_total <= 0) then Return (inl [error_text "error.icalc_positive"])
     else
     let limit_pct := DROP_LIMIT_KEYS self !! form_value self "Ключ ΔU" in
     let k_value :=
       match _try_parse_float (form_value self "k") with
       | None => 1.45
       | Some k_value => if decide (k_value <= 0) then 1.45 else k_value
       end in
     let breaker_values := parse_breakers (STANDARD_BREAKER_RATINGS self) in
     match breaker_values with
     | [] => Return (inl [error_text "error.breaker_ratings_required"])
     | _ =>
       Return (inr {|
         si_insulation_key := meta_key meta;
         si_conductor := form_value self "Tip-PROVODNIKA";
         si_method := strip (form_value self "Način polaganja");
         si_insulation_theta := meta_theta meta;
         si_loaded_cores := loaded_cores;
         si_n_parallel := n_parallel;
         si_voltage_value := voltage_value;
         si_s_coeff := s_coeff;
         si_t_coeff := t_coeff;
         si_cos_phi := cos_phi;
         si_length := length;
         si_icalc_total := icalc_total;
         si_limit_pct := limit_pct;
         si_k_value := k_value;
         si_breaker_values := breaker_values |})
     end) = Return (inr inputs) →
    ((si_loaded_cores inputs = 2 ∨ si_loaded_cores inputs = 3)
     ∧ 1 ≤ si_n_parallel inputs)%Z
    ∧ si_voltage_value inputs ≠ 0%Z
    ∧ 0 < si_cos_phi inputs <= 1
    ∧ 0 <= si_length inputs
    ∧ 0 < si_icalc_total inputs
    ∧ 0 < si_t_coeff inputs
    ∧ 0 < si_k_value inputs
    ∧ si_breaker_values inputs ≠ []).
  { intros t_coeff Ht Hrest.
    destruct (_lookup_group_factor self (effective_circuits circuits_count n_parallel))
      as [s_coeff|e]; rewrite ?bind_Return, ?bind_Raise in Hrest; [| discriminate].
    rewrite phase_factor_Return, bind_Return in Hrest. cbv zeta in Hrest.
    destruct (decide (_ = 0)) as [| Hden] in Hrest; [discriminate |].
    rewrite (truediv_Return _ eta) in Hrest by lra. rewrite bind_Return in Hrest.
    rewrite truediv_Return in Hrest by exact Hden. rewrite bind_Return in Hrest.
    destruct (decide (_ <= 0)) as [| Hicalc] in Hrest; [discriminate |].
    destruct (parse_breakers (STANDARD_BREAKER_RATINGS self)) eqn:Ebr; [discriminate |].
    injection Hrest as <-. simpl.
    repeat split; try done; try lra.
    intros ->. apply Hden. simpl. lra. }
  destruct (_try_parse_float (form_value self "Температура, °C")) as [temperature|].
  - destruct (_lookup_temperature_factor self (meta_key meta) (_medium_selected_key self)
                temperature) as [[temp_factor|]|e];
      rewrite ?bind_Return, ?bind_Raise in Hprep; try discriminate.
    destruct (decide (temp_factor <= 0)); rewrite bind_Return in Hprep; [discriminate |].
    apply (Hfinish temp_factor); [lra | exact Hprep].
  - rewrite bind_Return in Hprep. apply (Hfinish 1); [lra | exact Hprep].
Qed.

(** X17.  What the search loop can rely on once the checks have passed: 2
    or 3 loaded cores, at least one parallel cable, a voltage that is not
    zero, a power factor in (0, 1], a length that is not negative, a positive
    design current, positive temperature factor and multiplier, and at least
    one breaker rating. *)
Theorem prepared_inputs_in_range (self : CableCalcApp) (inputs : search_inputs) :
  prepare_search self = Return (inr inputs) →
  ((si_loaded_cores inputs = 2 ∨ si_loaded_cores inputs = 3) ∧ 1 ≤ si_n_parallel inputs)%Z
  ∧ si_voltage_value inputs ≠ 0%Z
  ∧ 0 < si_cos_phi inputs <= 1
  ∧ 0 <= si_length inputs
  ∧ 0 < si_icalc_total inputs
  ∧ 0 < si_t_coeff inputs
  ∧ 0 < si_k_value inputs
  ∧ si_breaker_values inputs ≠ [].
Proof. apply prepare_search_ranges. Qed.
End InputChecks.

Section InputChecksSample.
#[local] Existing Instance Decimal.decimal_builtins.

Lemma prepared_inputs_in_range_witness :
  ((si_loaded_cores sample_inputs = 2 ∨ si_loaded_cores sample_inputs = 3)
   ∧ 1 ≤ si_n_parallel sample_inputs)%Z
  ∧ si_voltage_value sample_inputs ≠ 0%Z
  ∧ 0 < si_cos_phi sample_inputs <= 1
  ∧ 0 <= si_length sample_inputs
  ∧ 0 < si_icalc_total sample_inputs
  ∧ 0 < si_t_coeff sample_inputs
  ∧ 0 < si_k_value sample_inputs
  ∧ si_breaker_values sample_inputs ≠ [].
Proof. exact (prepared_inputs_in_range sample_filled sample_inputs sample_prepared). Defined.
End InputChecksSample.

(** ** Recommendations *)

Section RecommendFacts.
Context (self : CableCalcApp) (METHOD_PREFERENCE : list string).
Context (U cos_phi L : R) (conductor insulation_key : string) (insulation_theta : R).
Context (method : string) (loaded_cores : Z) (S_factor T_factor : R).
Context (limit_pct : option R) (current_area : R) (n_parallel : Z) (icalc_total : R).

Abbreviation passes :=
  (section_passes self U cos_phi L conductor loaded_cores S_factor T_factor limit_pct
     icalc_total).
Abbreviation sections_loop :=
  (section_scan self U cos_phi L conductor loaded_cores S_factor T_factor limit_pct
     icalc_total).

(** The loop over the sections returns the first section that passes. *)
Lemma section_scan_spec (insulation : string) (theta : R) (m : string)
    (min_section current_per_cable : R) (parallel_count : Z) (sections : list R) :
  (∃ before area after iz_one drop_val,
     sections = before ++ area :: after
     ∧ passes insulation theta m min_section current_per_cable parallel_count
         area iz_one drop_val
     ∧ (∀ a iz d, a ∈ before →
          ¬ passes insulation theta m min_section current_per_cable parallel_count a iz d)
     ∧ sections_loop insulation theta m min_section current_per_cable parallel_count
         sections
       = Return (Some (area, iz_one, drop_val)))
  ∨ ((∀ a iz d, a ∈ sections →
        ¬ passes insulation theta m min_section current_per_cable parallel_count a iz d)
     ∧ sections_loop insulation theta m min_section current_per_cable parallel_count
         sections
       = Return None).
Proof.
  induction sections as [|area rest IH].
  { right. split; [| done]. intros a iz d Hin. by apply elem_of_nil in Hin. }
  assert (Hskip :
    (∀ iz d, ¬ passes insulation theta m min_section current_per_cable parallel_count
                 area iz d) →
    (∃ before area0 after iz_one drop_val,
       area :: rest = before ++ area0 :: after
       ∧ passes insulation theta m min_section current_per_cable parallel_count
           area0 iz_one drop_val
       ∧ (∀ a iz d, a ∈ before →
            ¬ passes insulation theta m min_section current_per_cable parallel_count
                a iz d)
       ∧ sections_loop insulation theta m min_section current_per_cable parallel_count
           rest
         = Return (Some (area0, iz_one, drop_val)))
    ∨ ((∀ a iz d, a ∈ area :: rest →
          ¬ passes insulation theta m min_section current_per_cable parallel_count a iz d)
       ∧ sections_loop insulation theta m min_section current_per_cable parallel_count
           rest
         = Return None)).
  { intros Hnot.
    destruct IH as [(before & a0 & after & iz & d & -> & Hpass & Hbefore & Hscan)
                   | [Hnone Hscan]].
    - left. exists (area :: before), a0, after, iz, d.
      split; [done |]. split; [exact Hpass |]. split; [| exact Hscan].
      intros a iz' d' Hin. apply elem_of_cons in Hin as [-> | Hin];
        [apply Hnot | by apply Hbefore].
    - right. split; [| done].
      intros a iz' d' Hin. apply elem_of_cons in Hin as [-> | Hin];
        [apply Hnot | by apply Hnone]. }
  simpl. destruct (decide (area < min_section)) as [Hsmall | Hmin].
  { apply Hskip. intros iz d (Hge & _). lra. }
  destruct (lookup_ampacity_returns self insulation conductor m area loaded_cores)
    as [[iz_base|] Hlookup]; rewrite Hlookup, bind_Return.
  2: { apply Hskip. intros iz d (_ & (b & Hb & _) & _). congruence. }
  destruct (decide (iz_base = 0)) as [Hzero | Hnonzero].
  { apply Hskip. intros iz d (_ & (b & Hb & Hb0 & _) & _).
    rewrite Hlookup in Hb. injection Hb as <-. done. }
  destruct (decide (iz_base * S_factor * T_factor < current_per_cable)) as [Hlow | Hcap].
  { apply Hskip. intros iz d (_ & (b & Hb & _ & ->) & Hcarry & _).
    rewrite Hlookup in Hb. injection Hb as <-. lra. }
  destruct (drop_pct_returns self U cos_phi L conductor theta area m loaded_cores
              parallel_count icalc_total) as [drop_val Hdrop].
  rewrite Hdrop, bind_Return.
  destruct limit_pct as [limit|] eqn:Hlimit.
  - destruct (bool_decide (drop_val > limit)) eqn:Hover.
    + apply bool_decide_eq_true_1 in Hover.
      apply Hskip. intros iz d (_ & _ & _ & Hd & Hwithin).
      rewrite Hdrop in Hd. injection Hd as <-.
      specialize (Hwithin limit eq_refl). lra.
    + apply bool_decide_eq_false_1 in Hover.
      left. exists [], area, rest, (iz_base * S_factor * T_factor), drop_val.
      split; [done |]. split; [| split; [| done]].
      * split; [lra |]. split; [by exists iz_base |]. split; [lra |].
        split; [done |]. intros l [= <-]. lra.
      * intros a iz d Hin. by apply elem_of_nil in Hin.
  - left. exists [], area, rest, (iz_base * S_factor * T_factor), drop_val.
    split; [done |]. split; [| split; [| done]].
    + split; [lra |]. split; [by exists iz_base |]. split; [lra |].
      split; [done |]. intros l Hl. discriminate.
    + intros a iz d Hin. by apply elem_of_nil in Hin.
Qed.

Lemma method_scan_spec (min_section current_per_cable : R) (parallel_count : Z)
    (methods : list string) :
  ∃ found,
    method_scan self U cos_phi L conductor insulation_key insulation_theta method
      loaded_cores S_factor T_factor limit_pct icalc_total min_section current_per_cable
      parallel_count methods
    = Return found
    ∧ ∀ m area iz_one drop_val, found = Some (m, (area, iz_one, drop_val)) →
        m ∈ methods ∧ m ≠ method ∧ area ∈ STANDARD_SECTIONS self
        ∧ passes insulation_key insulation_theta m min_section current_per_cable
            parallel_count area iz_one drop_val.
Proof.
  induction methods as [|m rest IH].
  { exists None. by split. }
  assert (Hrest : ∃ found,
    method_scan self U cos_phi L conductor insulation_key insulation_theta method
      loaded_cores S_factor T_factor limit_pct icalc_total min_section current_per_cable
      parallel_count rest
    = Return found
    ∧ ∀ m0 area iz_one drop_val, found = Some (m0, (area, iz_one, drop_val)) →
        m0 ∈ m :: rest ∧ m0 ≠ method ∧ area ∈ STANDARD_SECTIONS self
        ∧ passes insulation_key insulation_theta m0 min_section current_per_cable
            parallel_count area iz_one drop_val).
  { destruct IH as (found & Hscan & Hfound). exists found. split; [done |].
    intros m0 area iz d Heq. destruct (Hfound m0 area iz d Heq) as (Hin & Hrest).
    split; [by right | exact Hrest]. }
  simpl. destruct (decide (m = method)) as [Hsame | Hother]; [exact Hrest |].
  destruct (section_scan_spec insulation_key insulation_theta m min_section
              current_per_cable parallel_count (STANDARD_SECTIONS self))
    as [(before & area & after & iz & d & Hsec & Hpass & _ & ->) | [_ ->]];
    rewrite bind_Return; [| exact Hrest].
  exists (Some (m, (area, iz, d))). split; [done |].
  intros m0 area0 iz0 d0 [= <- <- <- <-].
  split; [by left |]. split; [done |]. split; [| exact Hpass].
  rewrite Hsec. apply elem_of_app. right. by left.
Qed.

(** The drop with [n] cables in parallel, from the drop with [k]. *)
Lemma drop_pct_parallel (theta area : R) (m : string) (k n : Z) (drop_k : R) :
  (1 ≤ k)%Z → (1 ≤ n)%Z →
  _drop_pct self U cos_phi L conductor theta area m loaded_cores k icalc_total
  = Return drop_k →
  _drop_pct self U cos_phi L conductor theta area m loaded_cores n icalc_total
  = Return (drop_k * IZR k / IZR n).
Proof.
  intros Hk Hn.
  destruct (calculate_line_impedance_returns self conductor theta area m)
    as [[r_km x_km] Himp].
  rewrite !(drop_pct_unfold _ _ _ _ _ _ _ _ _ _ _ _ _ Himp).
  replace (Z.max k 1) with k by lia. replace (Z.max n 1) with n by lia.
  assert (0 < IZR k) by (apply IZR_lt; lia).
  assert (0 < IZR n) by (apply IZR_lt; lia).
  generalize (sqrt (Rmax 0 (1 - Rmin 1 cos_phi ^ 2))). intros sin_phi.
  generalize (if decide (loaded_cores = 2%Z) then 2 else sqrt 3). intros phase.
  intros Heq. injection Heq as <-. f_equal.
  destruct (decide (U = 0)); [field; lra |].
  field; repeat split; (lra || assumption).
Qed.

Lemma split_remedy_spec (first min_section : R) (parallel_count : Z) :
  (1 ≤ parallel_count)%Z →
  ∃ recs4,
    split_remedy self U cos_phi L conductor insulation_key insulation_theta method
      loaded_cores S_factor T_factor limit_pct current_area icalc_total first min_section
      parallel_count
    = Return recs4
    ∧ ((recs4 = []
        ∧ ∀ limit drop_current iz_base,
            limit_pct = Some limit →
            _drop_pct self U cos_phi L conductor insulation_theta
              (Rmax min_section
                 (if decide (current_area = 0) then first else current_area))
              method loaded_cores parallel_count icalc_total
            = Return drop_current →
            limit < drop_current →
            _lookup_ampacity self insulation_key conductor method
              (Rmax min_section
                 (if decide (current_area = 0) then first else current_area))
              loaded_cores
            = Return (Some iz_base) →
            ¬ 0 < iz_base * S_factor * T_factor)
       ∨ ∃ limit n_needed iz_one drop_current drop_new,
           recs4 = [split_parallel n_needed
                      (Rmax min_section
                         (if decide (current_area = 0) then first else current_area))
                      method (iz_one * IZR n_needed) drop_new]
           ∧ limit_pct = Some limit
           ∧ (parallel_count < n_needed)%Z
           ∧ _drop_pct self U cos_phi L conductor insulation_theta
               (Rmax min_section
                  (if decide (current_area = 0) then first else current_area))
               method loaded_cores parallel_count icalc_total
             = Return drop_current
           ∧ limit < drop_current
           ∧ _drop_pct self U cos_phi L conductor insulation_theta
               (Rmax min_section
                  (if decide (current_area = 0) then first else current_area))
               method loaded_cores n_needed icalc_total
             = Return drop_new
           ∧ drop_new <= Rmax limit 1e-9
           ∧ 0 < iz_one).
Proof.
  intros Hpc. unfold split_remedy.
  destruct limit_pct as [limit|];
    [| exists []; split; [done |]; left; split; [done |]; intros; discriminate].
  cbv zeta.
  set (base_area := Rmax min_section
                      (if decide (current_area = 0) then first else current_area)).
  destruct (drop_pct_returns self U cos_phi L conductor insulation_theta base_area method
              loaded_cores parallel_count icalc_total) as [drop_current Hdrop].
  rewrite Hdrop, bind_Return.
  destruct (decide (drop_current > limit)) as [Hover | Hwithin].
  2: { exists []. split; [done |]. left. split; [done |].
       intros l dc b [= <-] [= <-] Hlt. lra. }
  destruct (lookup_ampacity_returns self insulation_key conductor method base_area
              loaded_cores) as [[iz_base|] Hlookup]; rewrite Hlookup, bind_Return.
  2: { exists []. split; [done |]. left. split; [done |].
       intros l dc b _ _ _ Hb. discriminate. }
  destruct (decide (iz_base = 0)) as [Hzero |].
  { exists []. split; [done |]. left. split; [done |].
    intros l dc b _ _ _ [= <-]. rewrite Hzero. lra. }
  assert (Hdenom : 0 < Rmax limit 1e-9).
  { pose proof (Rmax_r limit 1e-9). lra. }
  rewrite truediv_Return by lra. rewrite bind_Return.
  destruct (decide (iz_base * S_factor * T_factor > 0)) as [Hiz | Hiz].
  2: { exists []. split; [done |]. left. split; [done |].
       intros l dc b _ _ _ [= <-]. lra. }
  set (ratio := drop_current * IZR parallel_count / Rmax limit 1e-9).
  set (n_needed := Z.max (parallel_count + 1) (Zceil ratio)).
  assert (Hn : (parallel_count < n_needed)%Z) by (unfold n_needed; lia).
  rewrite (drop_pct_parallel insulation_theta base_area method parallel_count n_needed
             drop_current Hpc ltac:(lia) Hdrop).
  rewrite bind_Return. eexists. split; [reflexivity |]. right.
  exists limit, n_needed, (iz_base * S_factor * T_factor), drop_current,
    (drop_current * IZR parallel_count / IZR n_needed).
  repeat split; try done; try lra.
  - apply (drop_pct_parallel insulation_theta base_area method parallel_count n_needed
             drop_current Hpc ltac:(lia) Hdrop).
  - assert (Hpos : 0 < IZR n_needed) by (apply IZR_lt; lia).
    assert (Hceil : ratio <= IZR n_needed).
    { pose proof (Zceil_bound ratio) as [_ Hb].
      assert (Hle : (Zceil ratio ≤ n_needed)%Z) by (unfold n_needed; lia).
      apply IZR_le in Hle. lra. }
    unfold ratio in Hceil.
    apply (Rmult_le_compat_r (Rmax limit 1e-9)) in Hceil; [| lra].
    replace (drop_current * IZR parallel_count / Rmax limit 1e-9 * Rmax limit 1e-9)
      with (drop_current * IZR parallel_count) in Hceil by (field; lra).
    apply (Rmult_le_reg_r (IZR n_needed)); [exact Hpos |].
    replace (drop_current * IZR parallel_count / IZR n_needed * IZR n_needed)
      with (drop_current * IZR parallel_count) by (field; lra).
    lra.
Qed.
Abbreviation xlpe_theta :=
  (match INSULATION_META self !! "XLPE/EPR (90°C)" with
   | Some xlpe_meta => meta_theta xlpe_meta
   | None => 90
   end).

(** What the four remedies leave in [recs]. *)
Lemma recommend_lines_spec (first min_section current_per_cable : R)
    (parallel_count : Z) :
  (1 ≤ parallel_count)%Z →
  ∃ recs1 recs2 recs3 recs4,
    recommend_lines self METHOD_PREFERENCE U cos_phi L conductor insulation_key
      insulation_theta method loaded_cores S_factor T_factor limit_pct current_area
      icalc_total first min_section current_per_cable parallel_count
    = Return (recs1 ++ recs2 ++ recs3 ++ recs4)
    ∧ ((recs1 = []
        ∧ ∀ a iz d, a ∈ STANDARD_SECTIONS self →
            ¬ passes insulation_key insulation_theta method min_section
                current_per_cable parallel_count a iz d)
       ∨ ∃ before area after iz_one drop_val,
           recs1 = [increase_section area method (iz_one * IZR parallel_count) drop_val]
           ∧ STANDARD_SECTIONS self = before ++ area :: after
           ∧ passes insulation_key insulation_theta method min_section current_per_cable
               parallel_count area iz_one drop_val
           ∧ ∀ a iz d, a ∈ before →
               ¬ passes insulation_key insulation_theta method min_section
                   current_per_cable parallel_count a iz d)
    ∧ (recs2 = []
       ∨ ∃ m area iz_one drop_val,
           recs2 = [change_method area m (iz_one * IZR parallel_count) drop_val]
           ∧ m ∈ METHOD_PREFERENCE ∧ m ≠ method ∧ area ∈ STANDARD_SECTIONS self
           ∧ passes insulation_key insulation_theta m min_section current_per_cable
               parallel_count area iz_one drop_val)
    ∧ (recs3 = []
       ∨ ∃ area iz_one drop_val,
           recs3 = [switch_to_xlpe area method (iz_one * IZR parallel_count) drop_val]
           ∧ insulation_key = "PVC" ∧ area ∈ STANDARD_SECTIONS self
           ∧ passes "XLPE" xlpe_theta method min_section current_per_cable
               parallel_count area iz_one drop_val)
    ∧ ((recs4 = []
        ∧ ∀ limit drop_current iz_base,
            limit_pct = Some limit →
            _drop_pct self U cos_phi L conductor insulation_theta
              (Rmax min_section
                 (if decide (current_area = 0) then first else current_area))
              method loaded_cores parallel_count icalc_total
            = Return drop_current →
            limit < drop_current →
            _lookup_ampacity self insulation_key conductor method
              (Rmax min_section
                 (if decide (current_area = 0) then first else current_area))
              loaded_cores
            = Return (Some iz_base) →
            ¬ 0 < iz_base * S_factor * T_factor)
       ∨ ∃ limit n_needed iz_one drop_current drop_new,
           recs4 = [split_parallel n_needed
                      (Rmax min_section
                         (if decide (current_area = 0) then first else current_area))
                      method (iz_one * IZR n_needed) drop_new]
           ∧ limit_pct = Some limit
           ∧ (parallel_count < n_needed)%Z
           ∧ _drop_pct self U cos_phi L conductor insulation_theta
               (Rmax min_section
                  (if decide (current_area = 0) then first else current_area))
               method loaded_cores parallel_count icalc_total
             = Return drop_current
           ∧ limit < drop_current
           ∧ _drop_pct self U cos_phi L conductor insulation_theta
               (Rmax min_section
                  (if decide (current_area = 0) then first else current_area))
               method loaded_cores n_needed icalc_total
             = Return drop_new
           ∧ drop_new <= Rmax limit 1e-9
           ∧ 0 < iz_one).
Proof.
  intros Hpc. unfold recommend_lines.
  destruct (split_remedy_spec first min_section parallel_count Hpc)
    as (recs4 & Hsplit & Hrecs4).
  destruct (method_scan_spec min_section current_per_cable parallel_count
              METHOD_PREFERENCE) as (found & Hmethod & Hfound).
  assert (Hrecs2 : ∃ recs2,
    match found with
    | Some (m, (area, iz_one, drop_val)) =>
      [change_method area m (iz_one * IZR parallel_count) drop_val]
    | None => []
    end = recs2
    ∧ (recs2 = []
       ∨ ∃ m area iz_one drop_val,
           recs2 = [change_method area m (iz_one * IZR parallel_count) drop_val]
           ∧ m ∈ METHOD_PREFERENCE ∧ m ≠ method ∧ area ∈ STANDARD_SECTIONS self
           ∧ passes insulation_key insulation_theta m min_section current_per_cable
               parallel_count area iz_one drop_val)).
  { destruct found as [[m [[area iz] d]]|]; (eexists; split; [reflexivity |]);
      [| by left].
    right. exists m, area, iz, d. split; [done |]. by apply Hfound. }
  destruct Hrecs2 as (recs2 & Heq2 & Hrecs2).
  assert (Hrecs3 : ∃ recs3,
    (if decide (insulation_key = "PVC") then
       best_xlpe ←
         sections_loop "XLPE" xlpe_theta method min_section current_per_cable
           parallel_count (STANDARD_SECTIONS self);
       Return
         match best_xlpe with
         | Some (area, iz_one, drop_val) =>
           [switch_to_xlpe area method (iz_one * IZR parallel_count) drop_val]
         | None => []
         end
     else Return []) = Return recs3
    ∧ (recs3 = []
       ∨ ∃ area iz_one drop_val,
           recs3 = [switch_to_xlpe area method (iz_one * IZR parallel_count) drop_val]
           ∧ insulation_key = "PVC" ∧ area ∈ STANDARD_SECTIONS self
           ∧ passes "XLPE" xlpe_theta method min_section current_per_cable
               parallel_count area iz_one drop_val)).
  { destruct (decide (insulation_key = "PVC")) as [Hpvc |]; [| exists []; by split; [| left]].
    destruct (section_scan_spec "XLPE" xlpe_theta method min_section current_per_cable
                parallel_count (STANDARD_SECTIONS self))
      as [(before & area & after & iz & d & Hsec & Hpass & _ & ->) | [_ ->]];
      rewrite bind_Return; (eexists; split; [reflexivity |]); [| by left].
    right. exists area, iz, d. split; [done |]. split; [done |]. split; [| exact Hpass].
    rewrite Hsec. apply elem_of_app. right. by left. }
  destruct Hrecs3 as (recs3 & Heq3 & Hrecs3).
  destruct (section_scan_spec insulation_key insulation_theta method min_section
              current_per_cable parallel_count (STANDARD_SECTIONS self))
    as [(before & area & after & iz & d & Hsec & Hpass & Hbefore & ->) | [Hnone ->]];
    rewrite bind_Return, Hmethod, bind_Return; cbv zeta; rewrite Heq2.
  - exists [increase_section area method (iz * IZR parallel_count) d], recs2, recs3, recs4.
    split.
    + rewrite Heq3, bind_Return, Hsplit, bind_Return. done.
    + split; [| done]. right. by exists before, area, after, iz, d.
  - exists [], recs2, recs3, recs4. split.
    + rewrite Heq3, bind_Return, Hsplit, bind_Return. done.
    + split; [| done]. by left.
Qed.
Abbreviation recommend :=
  (_recommend self METHOD_PREFERENCE U cos_phi L conductor insulation_key insulation_theta
     method loaded_cores S_factor T_factor limit_pct current_area n_parallel icalc_total).
Abbreviation guard := (icalc_total = 0 ∨ S_factor <= 0 ∨ T_factor <= 0).
Abbreviation per_cable := (icalc_total / IZR (Z.max n_parallel 1)).

Lemma min_section_value (first : R) :
  Rmax (if decide (current_area = 0) then 0 else current_area) first
  = Rmax current_area first.
Proof. by destruct (decide (current_area = 0)) as [-> |]. Qed.

Lemma base_area_value (first : R) :
  Rmax (Rmax current_area first) (if decide (current_area = 0) then first else current_area)
  = Rmax current_area first.
Proof.
  destruct (decide (current_area = 0)).
  - apply Rmax_left, Rmax_r.
  - apply Rmax_left, Rmax_l.
Qed.

(** From the list of the four remedies to the list returned. *)
Lemma recommend_unfold (first : R) (rest : list R) (recs : list recommendation) :
  ¬ guard → STANDARD_SECTIONS self = first :: rest →
  recommend_lines self METHOD_PREFERENCE U cos_phi L conductor insulation_key
    insulation_theta method loaded_cores S_factor T_factor limit_pct current_area
    icalc_total first (Rmax current_area first) per_cable (Z.max n_parallel 1)
  = Return recs →
  (length recs ≤ 4)%nat →
  recommend
  = Recommended (match recs with
                 | [] => [reduce_grouping_or_raise_voltage]
                 | _ => recs
                 end).
Proof.
  intros Hguard Hsections Hlines Hlen. unfold _recommend.
  rewrite decide_False by exact Hguard. cbv zeta.
  rewrite decide_False by lia.
  rewrite truediv_Return by apply divider_nonzero.
  rewrite Hsections, min_section_value, Hlines. f_equal.
  destruct recs as [|line recs]; [done |]. by apply take_ge.
Qed.

Lemma recommend_guarded : guard → recommend = Recommended [].
Proof. intros Hguard. unfold _recommend. by rewrite decide_True. Qed.

Lemma recommend_index : ¬ guard → STANDARD_SECTIONS self = [] → recommend = IndexError.
Proof.
  intros Hguard Hempty. unfold _recommend.
  rewrite decide_False by exact Hguard. cbv zeta.
  rewrite decide_False by lia.
  rewrite truediv_Return by apply divider_nonzero. by rewrite Hempty.
Qed.

(** X18.  How [_recommend] ends.  With a zero design current or a factor
    S or T that is not positive it returns the empty list.  Otherwise, on an
    empty catalogue of sections it fails with the [IndexError] of
    [STANDARD_SECTIONS[0]], and on any other catalogue it returns between
    one and four lines, so the final slice to four lines never cuts a line
    off.  No callee raises. *)
Theorem recommend_outcomes :
  let result :=
    _recommend self METHOD_PREFERENCE U cos_phi L conductor insulation_key
      insulation_theta method loaded_cores S_factor T_factor limit_pct current_area
      n_parallel icalc_total in
  let skipped := icalc_total = 0 ∨ S_factor <= 0 ∨ T_factor <= 0 in
  (skipped ∧ result = Recommended [])
  ∨ (¬ skipped ∧ STANDARD_SECTIONS self = [] ∧ result = IndexError)
  ∨ (¬ skipped ∧ STANDARD_SECTIONS self ≠ []
     ∧ ∃ recs, result = Recommended recs ∧ (1 ≤ length recs ≤ 4)%nat).
Proof.
  cbv zeta.
  destruct (decide guard) as [Hguard | Hguard];
    [left; split; [done | by apply recommend_guarded] |].
  right.
  destruct (STANDARD_SECTIONS self) as [|first rest] eqn:Hcatalogue.
  - left. split; [done |]. split; [done |]. by apply recommend_index.
  - right. split; [done |]. split; [done |].
    destruct (recommend_lines_spec first (Rmax current_area first) per_cable
                (Z.max n_parallel 1) ltac:(lia))
      as (r1 & r2 & r3 & r4 & Hlines & H1 & H2 & H3 & H4).
    assert (Hl1 : (length r1 ≤ 1)%nat).
    { destruct H1 as [[-> _] | (? & ? & ? & ? & ? & -> & _)]; simpl; lia. }
    assert (Hl2 : (length r2 ≤ 1)%nat).
    { destruct H2 as [-> | (? & ? & ? & ? & -> & _)]; simpl; lia. }
    assert (Hl3 : (length r3 ≤ 1)%nat).
    { destruct H3 as [-> | (? & ? & ? & -> & _)]; simpl; lia. }
    assert (Hl4 : (length r4 ≤ 1)%nat).
    { destruct H4 as [[-> _] | (? & ? & ? & ? & ? & -> & _)]; simpl; lia. }
    assert (Hlen : (length (r1 ++ r2 ++ r3 ++ r4) ≤ 4)%nat).
    { rewrite !length_app. lia. }
    eexists.
    split; [apply (recommend_unfold first rest _ Hguard Hcatalogue Hlines Hlen) |].
    destruct (r1 ++ r2 ++ r3 ++ r4) as [|line recs]; simpl in *; lia.
Qed.

(** What is known of the list returned on a catalogue that is not empty. *)
Lemma recommend_spec (first : R) (rest : list R) :
  ¬ guard → STANDARD_SECTIONS self = first :: rest →
  ∃ recs1 recs2 recs3 recs4,
    recommend
    = Recommended (match recs1 ++ recs2 ++ recs3 ++ recs4 with
                   | [] => [reduce_grouping_or_raise_voltage]
                   | _ => recs1 ++ recs2 ++ recs3 ++ recs4
                   end)
    ∧ ((recs1 = []
        ∧ ∀ a iz d, a ∈ STANDARD_SECTIONS self →
            ¬ passes insulation_key insulation_theta method (Rmax current_area first)
                per_cable (Z.max n_parallel 1) a iz d)
       ∨ ∃ before area after iz_one drop_val,
           recs1 = [increase_section area method (iz_one * IZR (Z.max n_parallel 1))
                      drop_val]
           ∧ STANDARD_SECTIONS self = before ++ area :: after
           ∧ passes insulation_key insulation_theta method (Rmax current_area first)
               per_cable (Z.max n_parallel 1) area iz_one drop_val
           ∧ ∀ a iz d, a ∈ before →
               ¬ passes insulation_key insulation_theta method (Rmax current_area first)
                   per_cable (Z.max n_parallel 1) a iz d)
    ∧ (recs2 = []
       ∨ ∃ m area iz_one drop_val,
           recs2 = [change_method area m (iz_one * IZR (Z.max n_parallel 1)) drop_val]
           ∧ m ∈ METHOD_PREFERENCE ∧ m ≠ method ∧ area ∈ STANDARD_SECTIONS self
           ∧ passes insulation_key insulation_theta m (Rmax current_area first)
               per_cable (Z.max n_parallel 1) area iz_one drop_val)
    ∧ (recs3 = []
       ∨ ∃ area iz_one drop_val,
           recs3 = [switch_to_xlpe area method (iz_one * IZR (Z.max n_parallel 1))
                      drop_val]
           ∧ insulation_key = "PVC" ∧ area ∈ STANDARD_SECTIONS self
           ∧ passes "XLPE" xlpe_theta method (Rmax current_area first)
               per_cable (Z.max n_parallel 1) area iz_one drop_val)
    ∧ ((recs4 = []
        ∧ ∀ limit drop_current iz_base,
            limit_pct = Some limit →
            _drop_pct self U cos_phi L conductor insulation_theta
              (Rmax current_area first) method loaded_cores (Z.max n_parallel 1)
              icalc_total
            = Return drop_current →
            limit < drop_current →
            _lookup_ampacity self insulation_key conductor method
              (Rmax current_area first) loaded_cores
            = Return (Some iz_base) →
            ¬ 0 < iz_base * S_factor * T_factor)
       ∨ ∃ limit n_needed iz_one drop_current drop_new,
           recs4 = [split_parallel n_needed (Rmax current_area first) method
                      (iz_one * IZR n_needed) drop_new]
           ∧ limit_pct = Some limit
           ∧ (Z.max n_parallel 1 < n_needed)%Z
           ∧ _drop_pct self U cos_phi L conductor insulation_theta
               (Rmax current_area first) method loaded_cores (Z.max n_parallel 1)
               icalc_total
             = Return drop_current
           ∧ limit < drop_current
           ∧ _drop_pct self U cos_phi L conductor insulation_theta
               (Rmax current_area first) method loaded_cores n_needed icalc_total
             = Return drop_new
           ∧ drop_new <= Rmax limit 1e-9
           ∧ 0 < iz_one).
Proof.
  intros Hguard Hcatalogue.
  destruct (recommend_lines_spec first (Rmax current_area first) per_cable
              (Z.max n_parallel 1) ltac:(lia))
    as (r1 & r2 & r3 & r4 & Hlines & H1 & H2 & H3 & H4).
  rewrite base_area_value in H4.
  assert (Hl1 : (length r1 ≤ 1)%nat).
  { destruct H1 as [[-> _] | (? & ? & ? & ? & ? & -> & _)]; simpl; lia. }
  assert (Hl2 : (length r2 ≤ 1)%nat).
  { destruct H2 as [-> | (? & ? & ? & ? & -> & _)]; simpl; lia. }
  assert (Hl3 : (length r3 ≤ 1)%nat).
  { destruct H3 as [-> | (? & ? & ? & -> & _)]; simpl; lia. }
  assert (Hl4 : (length r4 ≤ 1)%nat).
  { destruct H4 as [[-> _] | (? & ? & ? & ? & ? & -> & _)]; simpl; lia. }
  assert (Hlen : (length (r1 ++ r2 ++ r3 ++ r4) ≤ 4)%nat).
  { rewrite !length_app. lia. }
  exists r1, r2, r3, r4.
  split; [apply (recommend_unfold first rest _ Hguard Hcatalogue Hlines Hlen) |].
  done.
Qed.

Lemma passes_suffices (insulation : string) (theta : R) (m : string) (first : R)
    (area iz_one drop_val : R) :
  passes insulation theta m (Rmax current_area first) per_cable (Z.max n_parallel 1)
    area iz_one drop_val →
  current_area <= area ∧ first <= area
  ∧ icalc_total <= iz_one * IZR (Z.max n_parallel 1)
  ∧ _drop_pct self U cos_phi L conductor theta area m loaded_cores (Z.max n_parallel 1)
      icalc_total = Return drop_val
  ∧ ∀ limit, limit_pct = Some limit → drop_val <= limit.
Proof.
  intros (Hmin & _ & Hcarry & Hdrop & Hlimit).
  pose proof (Rmax_l current_area first). pose proof (Rmax_r current_area first).
  pose proof (divider_positive n_parallel) as Hpos.
  split; [lra |]. split; [lra |]. split; [| by split].
  apply (Rmult_le_compat_r (IZR (Z.max n_parallel 1))) in Hcarry; [| lra].
  replace (icalc_total / IZR (Z.max n_parallel 1) * IZR (Z.max n_parallel 1))
    with icalc_total in Hcarry by (field; lra).
  exact Hcarry.
Qed.

(** X19.  A section that [_recommend] proposes under remedy 1, 2 or 3 does
    what the remedy is for: it is a section of the catalogue, not smaller
    than the present one, its total ampacity over the parallel cables carries
    the design current, and its drop, computed for that section and method,
    is within the limit, when one is set. *)
Theorem recommended_section_suffices (recs : list recommendation) (line : recommendation)
    (area : R) (m : string) (iz_total drop_val : R) :
  _recommend self METHOD_PREFERENCE U cos_phi L conductor insulation_key insulation_theta
    method loaded_cores S_factor T_factor limit_pct current_area n_parallel icalc_total
  = Recommended recs →
  line ∈ recs →
  line = increase_section area m iz_total drop_val
  ∨ line = change_method area m iz_total drop_val
  ∨ line = switch_to_xlpe area m iz_total drop_val →
  area ∈ STANDARD_SECTIONS self
  ∧ current_area <= area
  ∧ icalc_total <= iz_total
  ∧ (∃ theta,
       _drop_pct self U cos_phi L conductor theta area m loaded_cores (Z.max n_parallel 1)
         icalc_total = Return drop_val)
  ∧ ∀ limit, limit_pct = Some limit → drop_val <= limit.
Proof.
  intros Hrecs Hin Hshape.
  destruct (decide guard) as [Hguard | Hguard].
  { rewrite (recommend_guarded Hguard) in Hrecs. injection Hrecs as <-.
    by apply elem_of_nil in Hin. }
  destruct (STANDARD_SECTIONS self) as [|first rest] eqn:Hcatalogue.
  { rewrite (recommend_index Hguard Hcatalogue) in Hrecs. discriminate. }
  rewrite <- ?Hcatalogue.
  destruct (recommend_spec first rest Hguard Hcatalogue)
    as (r1 & r2 & r3 & r4 & Heq & H1 & H2 & H3 & H4).
  rewrite Heq in Hrecs. injection Hrecs as <-.
  assert (Hcases : line = reduce_grouping_or_raise_voltage
                   ∨ line ∈ r1 ∨ line ∈ r2 ∨ line ∈ r3 ∨ line ∈ r4).
  { destruct (r1 ++ r2 ++ r3 ++ r4) as [|x l] eqn:Hl.
    - left. by apply list_elem_of_singleton in Hin.
    - right. rewrite <- Hl in Hin. by rewrite !elem_of_app in Hin. }
  destruct Hcases as [-> | [Hr | [Hr | [Hr | Hr]]]].
  - destruct Hshape as [? | [? | ?]]; discriminate.
  - destruct H1 as [[-> _] | (before & a & after & iz & d & -> & Hsec & Hpass & _)];
      [by apply elem_of_nil in Hr |].
    apply list_elem_of_singleton in Hr. subst line.
    destruct Hshape as [Hs | [Hs | Hs]]; try discriminate.
    injection Hs as <- <- <- <-.
    destruct (passes_suffices _ _ _ _ _ _ _ Hpass) as (Hca & _ & Hiz & Hdrop & Hlimit).
    split; [rewrite Hsec; apply elem_of_app; right; by left |].
    split; [done |]. split; [done |]. split; [by eexists | done].
  - destruct H2 as [-> | (m' & a & iz & d & -> & _ & _ & Ha & Hpass)];
      [by apply elem_of_nil in Hr |].
    apply list_elem_of_singleton in Hr. subst line.
    destruct Hshape as [Hs | [Hs | Hs]]; try discriminate.
    injection Hs as <- <- <- <-.
    destruct (passes_suffices _ _ _ _ _ _ _ Hpass) as (Hca & _ & Hiz & Hdrop & Hlimit).
    split; [done |]. split; [done |]. split; [done |]. split; [by eexists | done].
  - destruct H3 as [-> | (a & iz & d & -> & _ & Ha & Hpass)];
      [by apply elem_of_nil in Hr |].
    apply list_elem_of_singleton in Hr. subst line.
    destruct Hshape as [Hs | [Hs | Hs]]; try discriminate.
    injection Hs as <- <- <- <-.
    destruct (passes_suffices _ _ _ _ _ _ _ Hpass) as (Hca & _ & Hiz & Hdrop & Hlimit).
    split; [done |]. split; [done |]. split; [done |]. split; [by eexists | done].
  - destruct H4 as [[-> _] | (limit & n & iz & dc & dn & -> & _)];
      [by apply elem_of_nil in Hr |].
    apply list_elem_of_singleton in Hr. subst line.
    destruct Hshape as [? | [? | ?]]; discriminate.
Qed.

(** X20.  The split into parallel cables that remedy 4 proposes is made
    only when a drop limit is set; it has more cables than the present run
    and at least two, and the drop it shows, computed for that number of
    cables, does not exceed [max(limit, 1e-9)], so it is within any limit of
    at least 1e-9. *)
Theorem recommended_split_meets_limit (recs : list recommendation) (n_needed : Z)
    (area : R) (m : string) (max_total drop_new : R) :
  _recommend self METHOD_PREFERENCE U cos_phi L conductor insulation_key insulation_theta
    method loaded_cores S_factor T_factor limit_pct current_area n_parallel icalc_total
  = Recommended recs →
  split_parallel n_needed area m max_total drop_new ∈ recs →
  ∃ limit,
    limit_pct = Some limit
    ∧ (n_parallel < n_needed ∧ 2 ≤ n_needed)%Z
    ∧ m = method
    ∧ _drop_pct self U cos_phi L conductor insulation_theta area method loaded_cores
        n_needed icalc_total = Return drop_new
    ∧ drop_new <= Rmax limit 1e-9
    ∧ (1e-9 <= limit → drop_new <= limit)
    ∧ 0 < max_total.
Proof.
  intros Hrecs Hin.
  destruct (decide guard) as [Hguard | Hguard].
  { rewrite (recommend_guarded Hguard) in Hrecs. injection Hrecs as <-.
    by apply elem_of_nil in Hin. }
  destruct (STANDARD_SECTIONS self) as [|first rest] eqn:Hcatalogue.
  { rewrite (recommend_index Hguard Hcatalogue) in Hrecs. discriminate. }
  rewrite <- ?Hcatalogue.
  destruct (recommend_spec first rest Hguard Hcatalogue)
    as (r1 & r2 & r3 & r4 & Heq & H1 & H2 & H3 & H4).
  rewrite Heq in Hrecs. injection Hrecs as <-.
  assert (Hcases : split_parallel n_needed area m max_total drop_new
                   = reduce_grouping_or_raise_voltage
                   ∨ split_parallel n_needed area m max_total drop_new ∈ r1
                   ∨ split_parallel n_needed area m max_total drop_new ∈ r2
                   ∨ split_parallel n_needed area m max_total drop_new ∈ r3
                   ∨ split_parallel n_needed area m max_total drop_new ∈ r4).
  { destruct (r1 ++ r2 ++ r3 ++ r4) as [|x l] eqn:Hl.
    - left. by apply list_elem_of_singleton in Hin.
    - right. rewrite <- Hl in Hin. by rewrite !elem_of_app in Hin. }
  destruct Hcases as [? | [Hr | [Hr | [Hr | Hr]]]]; [discriminate | | | |].
  - destruct H1 as [[-> _] | (before & a & after & iz & d & -> & _)];
      [by apply elem_of_nil in Hr |].
    apply list_elem_of_singleton in Hr. discriminate.
  - destruct H2 as [-> | (m' & a & iz & d & -> & _)]; [by apply elem_of_nil in Hr |].
    apply list_elem_of_singleton in Hr. discriminate.
  - destruct H3 as [-> | (a & iz & d & -> & _)]; [by apply elem_of_nil in Hr |].
    apply list_elem_of_singleton in Hr. discriminate.
  - destruct H4 as [[-> _] | (limit & n & iz & dc & dn & -> & Hlimit & Hn & _ & _
                              & Hnew & Hle & Hiz)];
      [by apply elem_of_nil in Hr |].
    apply list_elem_of_singleton in Hr. injection Hr as -> -> -> -> ->.
    exists limit. split; [done |]. split; [lia |]. split; [done |].
    split; [done |]. split; [done |]. split.
    + intros Hbig. rewrite Rmax_left in Hle by lra. exact Hle.
    + apply Rmult_lt_0_compat; [done |]. apply IZR_lt. lia.
Qed.

(** X21.  Remedy 1 proposes the first section of the catalogue, in
    catalogue order, that passes its test, and its line then heads the list;
    when no section passes, the list has no line of remedy 1. *)
Theorem increase_section_is_first (first : R) (rest : list R) :
  ¬ (icalc_total = 0 ∨ S_factor <= 0 ∨ T_factor <= 0) →
  STANDARD_SECTIONS self = first :: rest →
  ∃ recs,
    _recommend self METHOD_PREFERENCE U cos_phi L conductor insulation_key insulation_theta
      method loaded_cores S_factor T_factor limit_pct current_area n_parallel icalc_total
    = Recommended recs
    ∧ (((∀ a iz d, a ∈ STANDARD_SECTIONS self →
           ¬ section_passes self U cos_phi L conductor loaded_cores S_factor T_factor
               limit_pct icalc_total insulation_key insulation_theta method
               (Rmax current_area first) (icalc_total / IZR (Z.max n_parallel 1))
               (Z.max n_parallel 1) a iz d)
        ∧ ∀ area m iz_total drop_val, increase_section area m iz_total drop_val ∉ recs)
       ∨ ∃ before area after iz_one drop_val,
           STANDARD_SECTIONS self = before ++ area :: after
           ∧ section_passes self U cos_phi L conductor loaded_cores S_factor T_factor
               limit_pct icalc_total insulation_key insulation_theta method
               (Rmax current_area first) (icalc_total / IZR (Z.max n_parallel 1))
               (Z.max n_parallel 1) area iz_one drop_val
           ∧ (∀ a iz d, a ∈ before →
                ¬ section_passes self U cos_phi L conductor loaded_cores S_factor
                    T_factor limit_pct icalc_total insulation_key insulation_theta method
                    (Rmax current_area first) (icalc_total / IZR (Z.max n_parallel 1))
                    (Z.max n_parallel 1) a iz d)
           ∧ head recs
             = Some (increase_section area method (iz_one * IZR (Z.max n_parallel 1))
                       drop_val)).
Proof.
  intros Hguard Hcatalogue.
  destruct (recommend_spec first rest Hguard Hcatalogue)
    as (r1 & r2 & r3 & r4 & Heq & H1 & H2 & H3 & H4).
  eexists. split; [exact Heq |].
  destruct H1 as [[-> Hnone] | (before & a & after & iz & d & -> & Hsec & Hpass & Hbefore)].
  - left. split; [exact Hnone |].
    intros area m iz d Hin.
    assert (Hcases : increase_section area m iz d = reduce_grouping_or_raise_voltage
                     ∨ increase_section area m iz d ∈ r2
                     ∨ increase_section area m iz d ∈ r3
                     ∨ increase_section area m iz d ∈ r4).
    { simpl in Hin. destruct (r2 ++ r3 ++ r4) as [|x l] eqn:Hl.
      - left. by apply list_elem_of_singleton in Hin.
      - right. rewrite <- Hl in Hin. by rewrite !elem_of_app in Hin. }
    destruct Hcases as [? | [Hr | [Hr | Hr]]]; [discriminate | | |].
    + destruct H2 as [-> | (m' & a' & iz' & d' & -> & _)]; [by apply elem_of_nil in Hr |].
      apply list_elem_of_singleton in Hr. discriminate.
    + destruct H3 as [-> | (a' & iz' & d' & -> & _)]; [by apply elem_of_nil in Hr |].
      apply list_elem_of_singleton in Hr. discriminate.
    + destruct H4 as [[-> _] | (limit & n & iz' & dc & dn & -> & _)];
        [by apply elem_of_nil in Hr |].
      apply list_elem_of_singleton in Hr. discriminate.
  - right. exists before, a, after, iz, d.
    split; [exact Hsec |]. split; [exact Hpass |]. split; [exact Hbefore |]. reflexivity.
Qed.
End RecommendFacts.

Lemma sample_guard : ¬ (5 = 0 ∨ 1 <= 0 ∨ 1 <= 0).
Proof. intros [Hg | [Hg | Hg]]; lra. Qed.

Lemma sample_min_section : Rmax 0 1.5 = 1.5.
Proof. apply Rmax_right. lra. Qed.

Lemma sample_passes_low :
  ∃ drop_val, sample_passes None 1.5 (19.5 * 1 * 1 * 1 * 1) drop_val.
Proof.
  destruct (drop_pct_returns (sample_app [1.5; 2.5] ∅ []) 230 1 10 "Cu" 70 1.5 "C" 2
              (Z.max 1 1) 5) as [drop_val Hdrop].
  exists drop_val. unfold sample_passes, section_passes.
  split; [rewrite sample_min_section; lra |].
  split.
  { exists (19.5 * 1 * 1). split; [apply sample_lookup_ampacity, sample_base_low |].
    split; [lra | reflexivity]. }
  split; [change (Z.max 1 1) with 1%Z; lra |].
  split; [exact Hdrop |]. intros limit Hlimit. discriminate.
Qed.

Lemma shown_elem (line : recommendation) (recs : list recommendation) :
  line ∈ recs →
  line ∈ match recs with
         | [] => [reduce_grouping_or_raise_voltage]
         | _ => recs
         end.
Proof. intros Hin. destruct recs; [by apply elem_of_nil in Hin | exact Hin]. Qed.

Lemma increase_section_is_first_witness :
  ∃ recs,
    sample_recommend None = Recommended recs
    ∧ (((∀ a iz d, a ∈ [1.5; 2.5] → ¬ sample_passes None a iz d)
        ∧ ∀ area m iz_total drop_val, increase_section area m iz_total drop_val ∉ recs)
       ∨ ∃ before area after iz_one drop_val,
           [1.5; 2.5] = before ++ area :: after
           ∧ sample_passes None area iz_one drop_val
           ∧ (∀ a iz d, a ∈ before → ¬ sample_passes None a iz d)
           ∧ head recs
             = Some (increase_section area "C" (iz_one * IZR (Z.max 1 1)) drop_val)).
Proof.
  exact (increase_section_is_first (sample_app [1.5; 2.5] ∅ []) [] 230 1 10 "Cu" "PVC" 70
           "C" 2 1 1 None 0 1 5 1.5 [2.5] sample_guard eq_refl).
Defined.

Lemma recommended_section_suffices_witness :
  ∃ recs iz_total drop_val,
    sample_recommend None = Recommended recs
    ∧ increase_section 1.5 "C" iz_total drop_val ∈ recs
    ∧ 1.5 ∈ [1.5; 2.5]
    ∧ 0 <= 1.5
    ∧ 5 <= iz_total
    ∧ (∃ theta,
         _drop_pct (sample_app [1.5; 2.5] ∅ []) 230 1 10 "Cu" theta 1.5 "C" 2 (Z.max 1 1) 5
         = Return drop_val)
    ∧ ∀ limit, None = Some limit → drop_val <= limit.
Proof.
  destruct (recommend_spec (sample_app [1.5; 2.5] ∅ []) [] 230 1 10 "Cu" "PVC" 70
              "C" 2 1 1 None 0 1 5 1.5 [2.5] sample_guard eq_refl)
    as (r1 & r2 & r3 & r4 & Heq & H1 & _).
  destruct sample_passes_low as [d0 Hlow].
  destruct H1 as [[_ Hnone] | (before & area & after & iz & d & -> & Hsec & Hpass & Hbefore)].
  { exfalso. apply (Hnone 1.5 (19.5 * 1 * 1 * 1 * 1) d0); [by left | exact Hlow]. }
  assert (Harea : area = 1.5).
  { destruct before as [|b before].
    - by injection Hsec as <-.
    - exfalso. injection Hsec as <- _.
      apply (Hbefore 1.5 (19.5 * 1 * 1 * 1 * 1) d0); [by left | exact Hlow]. }
  subst area.
  assert (Hin : increase_section 1.5 "C" (iz * IZR (Z.max 1 1)) d
                ∈ match [increase_section 1.5 "C" (iz * IZR (Z.max 1 1)) d]
                          ++ r2 ++ r3 ++ r4 with
                  | [] => [reduce_grouping_or_raise_voltage]
                  | _ => [increase_section 1.5 "C" (iz * IZR (Z.max 1 1)) d]
                         ++ r2 ++ r3 ++ r4
                  end).
  { by left. }
  eexists _, (iz * IZR (Z.max 1 1)), d.
  split; [exact Heq |]. split; [exact Hin |].
  exact (recommended_section_suffices (sample_app [1.5; 2.5] ∅ []) [] 230 1 10 "Cu" "PVC"
           70 "C" 2 1 1 None 0 1 5 _ _ 1.5 "C" (iz * IZR (Z.max 1 1)) d Heq Hin
           (or_introl eq_refl)).
Defined.

Lemma sample_drop_over :
  ∃ drop_current,
    _drop_pct (sample_app [1.5; 2.5] ∅ []) 230 1 10 "Cu" 70 1.5 "C" 2 (Z.max 1 1) 5
    = Return drop_current
    ∧ 0.5 < drop_current.
Proof.
  eexists. split.
  - apply (drop_pct_unfold _ _ _ _ _ _ _ _ _ _ _ _ _
             (sample_impedance [1.5; 2.5] ∅ [] 70 1.5 ltac:(lra) ltac:(lra))).
  - rewrite decide_False by lra. rewrite decide_True by done.
    change (Z.max 1 1) with 1%Z.
    pose proof (sqrt_pos (Rmax 0 (1 - Rmin 1 1 ^ 2))) as Hs.
    revert Hs. generalize (sqrt (Rmax 0 (1 - Rmin 1 1 ^ 2))). intros s Hs.
    rewrite Z.max_id. lra.
Qed.

Lemma recommended_split_meets_limit_witness :
  ∃ recs n_needed max_total drop_new,
    sample_recommend (Some 0.5) = Recommended recs
    ∧ split_parallel n_needed (Rmax 0 1.5) "C" max_total drop_new ∈ recs
    ∧ ∃ limit,
        Some 0.5 = Some limit
        ∧ (1 < n_needed ∧ 2 ≤ n_needed)%Z
        ∧ "C" = "C"
        ∧ _drop_pct (sample_app [1.5; 2.5] ∅ []) 230 1 10 "Cu" 70 (Rmax 0 1.5) "C" 2
            n_needed 5 = Return drop_new
        ∧ drop_new <= Rmax limit 1e-9
        ∧ (1e-9 <= limit → drop_new <= limit)
        ∧ 0 < max_total.
Proof.
  destruct (recommend_spec (sample_app [1.5; 2.5] ∅ []) [] 230 1 10 "Cu" "PVC" 70
              "C" 2 1 1 (Some 0.5) 0 1 5 1.5 [2.5] sample_guard eq_refl)
    as (r1 & r2 & r3 & r4 & Heq & _ & _ & _ & H4).
  destruct sample_drop_over as (dc & Hdc & Hover).
  destruct H4 as [[_ Hnot] | (limit & n & iz & dc' & dn & -> & _)].
  { exfalso. apply (Hnot 0.5 dc (19.5 * 1 * 1)); [done | | done | | lra].
    - rewrite sample_min_section. exact Hdc.
    - rewrite sample_min_section. apply sample_lookup_ampacity, sample_base_low. }
  assert (Hin : split_parallel n (Rmax 0 1.5) "C" (iz * IZR n) dn
                ∈ match r1 ++ r2 ++ r3
                         ++ [split_parallel n (Rmax 0 1.5) "C" (iz * IZR n) dn] with
                  | [] => [reduce_grouping_or_raise_voltage]
                  | _ => r1 ++ r2 ++ r3
                         ++ [split_parallel n (Rmax 0 1.5) "C" (iz * IZR n) dn]
                  end).
  { apply shown_elem. rewrite !elem_of_app. right. right. right. by left. }
  eexists _, n, (iz * IZR n), dn.
  split; [exact Heq |]. split; [exact Hin |].
  exact (recommended_split_meets_limit (sample_app [1.5; 2.5] ∅ []) [] 230 1 10 "Cu" "PVC"
           70 "C" 2 1 1 (Some 0.5) 0 1 5 _ n (Rmax 0 1.5) "C" (iz * IZR n) dn Heq Hin).
Defined.

(** ** Result panel *)

Section PanelFacts.
Context `{Builtins} (self : CableCalcApp).

Lemma panel_counts_ranges :
  ((panel_loaded_cores self = 2 ∨ panel_loaded_cores self = 3)
   ∧ 1 ≤ panel_circuits_count self ∧ 1 ≤ panel_n_parallel self)%Z.
Proof.
  unfold panel_loaded_cores, panel_circuits_count, panel_n_parallel.
  repeat split.
  - destruct (int_of_str _) as [lc|]; [| by right].
    destruct (decide (lc ≠ 2 ∧ lc ≠ 3)%Z); [by right | lia].
  - destruct (int_of_str _) as [cc|]; [| lia]. destruct (decide (cc < 1)%Z); lia.
  - destruct (int_of_str _) as [np|]; [| lia]. destruct (decide (np < 1)%Z); lia.
Qed.

Lemma panel_cos_phi_range (cos_phi : R) :
  panel_cos_phi self = Some cos_phi →
  _try_parse_float (form_value self "cos φ") = Some cos_phi ∧ 0 < cos_phi <= 1.
Proof.
  unfold panel_cos_phi. destruct (_try_parse_float _) as [c|]; [| done].
  destruct (decide (¬ (0 < c ∧ c <= 1))) as [| Hc]; [done |].
  intros [= <-]. split; [done |]. by apply dec_stable.
Qed.

Lemma panel_eta_range (eta : R) :
  panel_eta_coeff self = Some eta →
  _try_parse_float (form_value self "η") = Some eta ∧ 0 < eta <= 1.
Proof.
  unfold panel_eta_coeff. destruct (_try_parse_float _) as [e|]; [| done].
  destruct (decide (e <= 0 ∨ e > 1)) as [| He]; [done |].
  intros [= <-]. split; [done |]. lra.
Qed.

Lemma panel_length_range (length : R) :
  panel_length self = Some length →
  _try_parse_float (form_value self "Dužina L, m") = Some length ∧ 0 <= length.
Proof.
  unfold panel_length. destruct (_try_parse_float _) as [l|]; [| done].
  destruct (decide (l < 0)); [done |]. intros [= <-]. split; [done | lra].
Qed.

Lemma panel_area_range (area : R) :
  panel_area self = Some area →
  _try_parse_float (form_value self "Presek, mm²") = Some area ∧ 0 < area.
Proof.
  unfold panel_area. destruct (_try_parse_float _) as [a|]; [| done].
  destruct (decide (a <= 0)); [done |]. intros [= <-]. split; [done | lra].
Qed.

Lemma panel_t_coeff_spec :
  ∃ t_coeff,
    panel_t_coeff self = Return t_coeff
    ∧ (∀ t, t_coeff = Some t →
         0 < t
         ∧ ∃ insulation_meta temperature,
             INSULATION_META self !! form_value self "Tip-IZOLACIJE" = Some insulation_meta
             ∧ _try_parse_float (form_value self "Температура, °C") = Some temperature
             ∧ _lookup_temperature_factor self (meta_key insulation_meta)
                 (_medium_selected_key self) temperature = Return (Some t))
    ∧ (_try_parse_float (form_value self "Температура, °C") = None → t_coeff = None).
Proof.
  unfold panel_t_coeff.
  destruct (INSULATION_META self !! form_value self "Tip-IZOLACIJE") as [meta|];
    [| exists None; by repeat split].
  destruct (_try_parse_float (form_value self "Температура, °C")) as [temperature|];
    [| exists None; by repeat split].
  destruct (lookup_temperature_factor_returns self (meta_key meta)
              (_medium_selected_key self) temperature) as [[tf|] Htf];
    rewrite Htf, bind_Return; [| exists None; by repeat split].
  destruct (decide (tf > 0)); [| exists None; by repeat split].
  exists (Some tf). split; [done |]. split; [| done].
  intros t [= <-]. split; [lra |]. by exists meta, temperature.
Qed.

(** The design current of the panel, when there is one. *)
Lemma panel_icalc_spec (loaded_cores n_parallel : Z) :
  (∃ phase, panel_icalc self loaded_cores n_parallel = Return (None, None, phase))
  ∨ ∃ pj cos_phi voltage_value eta_coeff,
      panel_pj self = Some pj ∧ panel_cos_phi self = Some cos_phi
      ∧ int_of_str (form_value self "U") = Some voltage_value ∧ voltage_value ≠ 0%Z
      ∧ panel_eta_coeff self = Some eta_coeff
      ∧ panel_icalc self loaded_cores n_parallel
        = Return
            (Some (pj / eta_coeff
                   / ((if decide (loaded_cores = 2%Z) then 2 else sqrt 3)
                      * IZR voltage_value * cos_phi)),
             Some (pj / eta_coeff
                   / ((if decide (loaded_cores = 2%Z) then 2 else sqrt 3)
                      * IZR voltage_value * cos_phi)
                   / IZR (Z.max n_parallel 1)),
             Some (if decide (loaded_cores = 2%Z) then 2 else sqrt 3)).
Proof.
  unfold panel_icalc.
  destruct (panel_pj self) as [pj|]; [| left; by eexists].
  destruct (panel_cos_phi self) as [cos_phi|] eqn:Hcos; [| left; by eexists].
  destruct (int_of_str (form_value self "U")) as [voltage_value|]; [| left; by eexists].
  destruct (panel_eta_coeff self) as [eta_coeff|] eqn:Heta; [| left; by eexists].
  destruct (decide (voltage_value = 0%Z)) as [| Hvoltage]; [left; by eexists |].
  rewrite phase_factor_Return, bind_Return. cbv zeta.
  destruct (decide (_ = 0)) as [| Hden]; [left; by eexists |].
  apply panel_eta_range in Heta as [_ Heta].
  rewrite (truediv_Return _ eta_coeff) by lra. rewrite bind_Return.
  rewrite truediv_Return by exact Hden. rewrite bind_Return.
  rewrite truediv_Return by apply divider_nonzero. rewrite bind_Return.
  right. by exists pj, cos_phi, voltage_value, eta_coeff.
Qed.

Lemma panel_impedance_spec :
  (panel_impedance self = Return (None, None)
   ∧ (panel_area self = None
      ∨ INSULATION_META self !! form_value self "Tip-IZOLACIJE" = None))
  ∨ ∃ area insulation_meta r_per_km x_per_km,
      panel_area self = Some area
      ∧ INSULATION_META self !! form_value self "Tip-IZOLACIJE" = Some insulation_meta
      ∧ _calculate_line_impedance self (form_value self "Tip-PROVODNIKA")
          (meta_theta insulation_meta) area (strip (form_value self "Način polaganja"))
        = Return (r_per_km, x_per_km)
      ∧ panel_impedance self = Return (Some r_per_km, Some x_per_km).
Proof.
  unfold panel_impedance.
  destruct (panel_area self) as [area|]; [| left; split; [done | by left]].
  destruct (INSULATION_META self !! form_value self "Tip-IZOLACIJE") as [meta|];
    [| left; split; [done | by right]].
  destruct (calculate_line_impedance_returns self (form_value self "Tip-PROVODNIKA")
              (meta_theta meta) area (strip (form_value self "Način polaganja")))
    as [[r x] Himp].
  right. exists area, meta, r, x. rewrite Himp, bind_Return. by repeat split.
Qed.

Lemma panel_base_ampacity_returns (loaded_cores : Z) :
  ∃ base_ampacity, panel_base_ampacity self loaded_cores = Return base_ampacity.
Proof.
  unfold panel_base_ampacity.
  destruct (panel_area self) as [area|]; [| by eexists].
  destruct (INSULATION_META self !! form_value self "Tip-IZOLACIJE") as [meta|];
    [| by eexists].
  apply lookup_ampacity_returns.
Qed.

(** The drop of the panel is the drop [_drop_pct] computes. *)
Lemma panel_delta_u_spec (loaded_cores n_parallel : Z)
    (icalc_total phase r_per_km x_per_km : option R) :
  ∃ delta_u,
    panel_delta_u self n_parallel icalc_total phase r_per_km x_per_km = Return delta_u
    ∧ ∀ d area insulation_meta icalc r x,
        delta_u = Some d →
        icalc_total = Some icalc →
        phase = Some (if decide (loaded_cores = 2%Z) then 2 else sqrt 3) →
        r_per_km = Some r → x_per_km = Some x →
        _calculate_line_impedance self (form_value self "Tip-PROVODNIKA")
          (meta_theta insulation_meta) area (strip (form_value self "Način polaganja"))
        = Return (r, x) →
        ∃ voltage_value cos_phi length,
          int_of_str (form_value self "U") = Some voltage_value
          ∧ voltage_value ≠ 0%Z
          ∧ panel_cos_phi self = Some cos_phi
          ∧ panel_length self = Some length
          ∧ _drop_pct self (IZR voltage_value) cos_phi length
              (form_value self "Tip-PROVODNIKA") (meta_theta insulation_meta) area
              (strip (form_value self "Način polaganja")) loaded_cores n_parallel icalc
            = Return d.
Proof.
  unfold panel_delta_u.
  destruct icalc_total as [icalc|]; [| exists None; by split].
  destruct phase as [phase|]; [| exists None; by split].
  destruct (panel_length self) as [length|]; [| exists None; by split].
  destruct (panel_cos_phi self) as [cos_phi|]; [| exists None; by split].
  destruct r_per_km as [r|]; [| exists None; by split].
  destruct x_per_km as [x|]; [| exists None; by split].
  destruct (int_of_str (form_value self "U")) as [voltage_value|]; [| exists None; by split].
  destruct (decide (voltage_value = 0%Z)) as [| Hvoltage]; [exists None; by split |].
  assert (HU : IZR voltage_value ≠ 0) by (by apply not_0_IZR).
  cbv zeta.
  rewrite !truediv_Return by apply divider_nonzero. rewrite !bind_Return.
  rewrite sin_phi_defined, bind_Return.
  rewrite truediv_Return by exact HU. rewrite bind_Return.
  eexists. split; [reflexivity |].
  intros d area meta icalc' r' x' [= <-] [= <-] [= ->] [= <-] [= <-] Himp.
  exists voltage_value, cos_phi, length. repeat split; try done.
  rewrite (drop_pct_unfold _ _ _ _ _ _ _ _ _ _ _ _ _ Himp).
  by rewrite decide_False by exact HU.
Qed.

(** The blocks of a refresh that returns. *)
Lemma update_inv (res : intermediate_results) :
  _update_intermediate_results self = Return res →
  ∃ s_coeff t_coeff icalc_total icalc_per_cable phase r_per_km x_per_km base_ampacity
    delta_u,
    _lookup_group_factor self
      (effective_circuits (panel_circuits_count self) (panel_n_parallel self))
    = Return s_coeff
    ∧ panel_t_coeff self = Return t_coeff
    ∧ panel_icalc self (panel_loaded_cores self) (panel_n_parallel self)
      = Return (icalc_total, icalc_per_cable, phase)
    ∧ panel_impedance self = Return (r_per_km, x_per_km)
    ∧ panel_base_ampacity self (panel_loaded_cores self) = Return base_ampacity
    ∧ panel_delta_u self (panel_n_parallel self) icalc_total phase r_per_km x_per_km
      = Return delta_u
    ∧ ir_loaded_cores res = panel_loaded_cores self
    ∧ ir_circuits_count res = panel_circuits_count self
    ∧ ir_n_parallel res = panel_n_parallel self
    ∧ ir_s_coeff res = s_coeff
    ∧ ir_t_coeff res = t_coeff
    ∧ ir_icalc_total res = icalc_total
    ∧ ir_icalc_per_cable res = icalc_per_cable
    ∧ ir_base_ampacity res = base_ampacity
    ∧ ir_iz_one res
      = match base_ampacity, t_coeff with
        | Some base_ampacity, Some t_coeff => Some (base_ampacity * s_coeff * t_coeff)
        | _, _ => None
        end
    ∧ ir_ampacity_status res
      = ampacity_verdict base_ampacity (ir_iz_one res) icalc_per_cable
    ∧ ir_delta_u res = delta_u
    ∧ ir_drop_status res
      = drop_verdict delta_u (DROP_LIMIT_KEYS self !! form_value self "Ключ ΔU")
    ∧ ir_protection res
      = protection_of_form self (ir_iz_one res) icalc_total (panel_n_parallel self)
    ∧ ir_compat_display res
      = compat_verdict base_ampacity (ir_ampacity_status res) (ir_drop_status res)
          (protection_status (ir_protection res)).
Proof.
  unfold _update_intermediate_results. cbv zeta.
  destruct (_lookup_group_factor self _) as [s_coeff|e] eqn:Hs; [| done].
  rewrite bind_Return.
  destruct (panel_t_coeff self) as [t_coeff|e] eqn:Ht; [| done]. rewrite bind_Return.
  destruct (panel_icalc self _ _) as [[[icalc per] phase]|e] eqn:Hicalc; [| done].
  rewrite bind_Return.
  destruct (panel_impedance self) as [[r x]|e] eqn:Himp; [| done]. rewrite bind_Return.
  destruct (panel_base_ampacity self _) as [base|e] eqn:Hbase; [| done].
  rewrite bind_Return.
  destruct (panel_delta_u self _ _ _ _ _) as [delta_u|e] eqn:Hdelta; [| done].
  rewrite bind_Return.
  intros [= <-]. exists s_coeff, t_coeff, icalc, per, phase, r, x, base, delta_u.
  simpl. by repeat split.
Qed.

Lemma update_returns (s_coeff : R) :
  _lookup_group_factor self
    (effective_circuits (panel_circuits_count self) (panel_n_parallel self))
  = Return s_coeff →
  ∃ res, _update_intermediate_results self = Return res.
Proof.
  intros Hs. unfold _update_intermediate_results. cbv zeta.
  rewrite Hs, bind_Return.
  destruct panel_t_coeff_spec as (t_coeff & -> & _). rewrite bind_Return.
  destruct (panel_icalc_spec (panel_loaded_cores self) (panel_n_parallel self))
    as [[phase ->] | (pj & c & u & e & _ & _ & _ & _ & _ & ->)]; rewrite bind_Return.
  - destruct panel_impedance_spec as [[-> _] | (a & m & r & x & _ & _ & _ & ->)];
      rewrite bind_Return;
      destruct (panel_base_ampacity_returns (panel_loaded_cores self)) as [base ->];
      rewrite bind_Return.
    + destruct (panel_delta_u_spec (panel_loaded_cores self) (panel_n_parallel self)
                  None phase None None) as (d & -> & _).
      rewrite bind_Return. by eexists.
    + destruct (panel_delta_u_spec (panel_loaded_cores self) (panel_n_parallel self)
                  None phase (Some r) (Some x)) as (d & -> & _).
      rewrite bind_Return. by eexists.
  - destruct panel_impedance_spec as [[-> _] | (a & m & r & x & _ & _ & _ & ->)];
      rewrite bind_Return;
      destruct (panel_base_ampacity_returns (panel_loaded_cores self)) as [base ->];
      rewrite bind_Return.
    + destruct (panel_delta_u_spec (panel_loaded_cores self) (panel_n_parallel self)
                  (Some (pj / e / ((if decide (panel_loaded_cores self = 2%Z)
                                    then 2 else sqrt 3) * IZR u * c)))
                  (Some (if decide (panel_loaded_cores self = 2%Z) then 2 else sqrt 3))
                  None None) as (d & -> & _).
      rewrite bind_Return. by eexists.
    + destruct (panel_delta_u_spec (panel_loaded_cores self) (panel_n_parallel self)
                  (Some (pj / e / ((if decide (panel_loaded_cores self = 2%Z)
                                    then 2 else sqrt 3) * IZR u * c)))
                  (Some (if decide (panel_loaded_cores self = 2%Z) then 2 else sqrt 3))
                  (Some r) (Some x)) as (d & -> & _).
      rewrite bind_Return. by eexists.
Qed.

Lemma panel_delta_u_needs_impedance (n_parallel : Z) (icalc_total phase x_per_km : option R) :
  panel_delta_u self n_parallel icalc_total phase None x_per_km = Return None.
Proof.
  unfold panel_delta_u.
  by destruct icalc_total, phase, (panel_length self), (panel_cos_phi self).
Qed.

(** The drop of the panel, from the blocks of the refresh. *)
Lemma panel_delta_u_value (res : intermediate_results) (delta_u : R) :
  _update_intermediate_results self = Return res →
  ir_delta_u res = Some delta_u →
  ∃ insulation_meta area voltage_value cos_phi length icalc_total,
    INSULATION_META self !! form_value self "Tip-IZOLACIJE" = Some insulation_meta
    ∧ panel_area self = Some area
    ∧ int_of_str (form_value self "U") = Some voltage_value
    ∧ panel_cos_phi self = Some cos_phi
    ∧ panel_length self = Some length
    ∧ ir_icalc_total res = Some icalc_total
    ∧ _drop_pct self (IZR voltage_value) cos_phi length (form_value self "Tip-PROVODNIKA")
        (meta_theta insulation_meta) area (strip (form_value self "Način polaganja"))
        (ir_loaded_cores res) (ir_n_parallel res) icalc_total
      = Return delta_u.
Proof.
  intros Hres Hdelta.
  destruct (update_inv res Hres)
    as (s & t & icalc & per & phase & r & x & base & d
        & _ & _ & Hicalc & Himp & _ & Hd & Hlc & _ & Hnp & _ & _ & Hic & _ & _ & _ & _
        & Hdu & _).
  rewrite Hdu in Hdelta. subst d.
  destruct panel_impedance_spec as [[Hnone _] | (area & meta & r' & x' & Harea & Hmeta
                                                 & Hline & Himp')].
  { rewrite Hnone in Himp. injection Himp as <- <-.
    rewrite panel_delta_u_needs_impedance in Hd. discriminate. }
  rewrite Himp' in Himp. injection Himp as <- <-.
  destruct (panel_icalc_spec (panel_loaded_cores self) (panel_n_parallel self))
    as [[phase' Hnone] | (pj & c & u & e & _ & _ & _ & _ & _ & Hsome)].
  { rewrite Hnone in Hicalc. injection Hicalc as <- <- <-. discriminate. }
  rewrite Hsome in Hicalc. injection Hicalc as <- <- <-.
  destruct (panel_delta_u_spec (panel_loaded_cores self) (panel_n_parallel self)
              (Some (pj / e / ((if decide (panel_loaded_cores self = 2%Z)
                                then 2 else sqrt 3) * IZR u * c)))
              (Some (if decide (panel_loaded_cores self = 2%Z) then 2 else sqrt 3))
              (Some r') (Some x')) as (d' & Hd' & Hdrop).
  rewrite Hd' in Hd. injection Hd as ->.
  destruct (Hdrop delta_u area meta _ r' x' eq_refl eq_refl eq_refl eq_refl eq_refl Hline)
    as (voltage & cos_phi & length & Hu & _ & Hcos & Hlen & Hpct).
  exists meta, area, voltage, cos_phi, length,
    (pj / e / ((if decide (panel_loaded_cores self = 2%Z) then 2 else sqrt 3) * IZR u * c)).
  rewrite Hlc, Hnp, Hic. by repeat split.
Qed.

(** X23.  The drop the panel shows is the drop [_drop_pct] computes: the
    formula written out in [_update_intermediate_results] and the one the
    search and the recommendations call give the same number for the
    voltage, power factor, length, conductor, insulation temperature,
    section, method and counts of the form and the design current of the
    panel. *)
Theorem panel_drop_is_drop_pct (res : intermediate_results) (delta_u : R) :
  _update_intermediate_results self = Return res →
  ir_delta_u res = Some delta_u →
  ∃ insulation_meta area voltage_value cos_phi length icalc_total,
    INSULATION_META self !! form_value self "Tip-IZOLACIJE" = Some insulation_meta
    ∧ panel_area self = Some area
    ∧ int_of_str (form_value self "U") = Some voltage_value
    ∧ panel_cos_phi self = Some cos_phi
    ∧ panel_length self = Some length
    ∧ ir_icalc_total res = Some icalc_total
    ∧ _drop_pct self (IZR voltage_value) cos_phi length (form_value self "Tip-PROVODNIKA")
        (meta_theta insulation_meta) area (strip (form_value self "Način polaganja"))
        (ir_loaded_cores res) (ir_n_parallel res) icalc_total
      = Return delta_u.
Proof. apply panel_delta_u_value. Qed.

Lemma protection_check_OK (iz_one icalc_total : option R) (n_parallel : Z)
    (in_value k_value : option R) :
  protection_status (protection_check iz_one icalc_total n_parallel in_value k_value) = OK →
  ∃ iz icalc rating k,
    iz_one = Some iz ∧ icalc_total = Some icalc
    ∧ in_value = Some rating ∧ k_value = Some k
    ∧ 0 < rating ∧ 0 < k
    ∧ icalc <= rating <= iz * IZR n_parallel
    ∧ rating * k <= 1.45 * (iz * IZR n_parallel).
Proof.
  unfold protection_check, not_positive.
  destruct in_value as [rating|], k_value as [k|], iz_one as [iz|], icalc_total as [icalc|];
    repeat case_bool_decide; simpl; try done.
  all: repeat case_bool_decide; simpl; try done.
  intros _. exists iz, icalc, rating, k. repeat split; (done || lra).
Qed.

(** X24.  Whenever the panel's protection verdict is OK, its ampacity
    verdict is OK as well: a rating between the design current and the total
    ampacity leaves each cable within its ampacity.  The compatibility
    verdict is then decided by the drop alone: it is OK exactly when the
    drop verdict is OK. *)
Theorem panel_protection_implies_ampacity (res : intermediate_results) :
  _update_intermediate_results self = Return res →
  protection_status (ir_protection res) = OK →
  ir_ampacity_status res = OK
  ∧ (ir_compat_display res = compat_ok ↔ ir_drop_status res = Some OK).
Proof.
  intros Hres Hprot.
  destruct (update_inv res Hres)
    as (s & t & icalc & per & phase & r & x & base & d
        & _ & _ & Hicalc & _ & _ & _ & _ & _ & _ & _ & _ & _ & _ & _ & Hiz & Hamp & _ & _
        & Hp & Hcompat).
  assert (Hinv := Hprot). rewrite Hp in Hinv. unfold protection_of_form in Hinv.
  apply protection_check_OK in Hinv
    as (iz & ic & rating & k & Hiz1 & -> & _ & _ & _ & _ & Hrange & _).
  assert (Hbase : ∃ b, base = Some b).
  { rewrite Hiz1 in Hiz. destruct base as [b|]; [by exists b | done]. }
  destruct Hbase as [b ->].
  destruct (panel_icalc_spec (panel_loaded_cores self) (panel_n_parallel self))
    as [[phase' Hnone] | (pj & c & u & e & _ & _ & _ & _ & _ & Hsome)].
  { rewrite Hnone in Hicalc. discriminate. }
  rewrite Hsome in Hicalc. injection Hicalc as Hic <- _.
  assert (Hok : ir_ampacity_status res = OK).
  { rewrite Hamp, Hiz1. unfold ampacity_verdict. rewrite Hic.
    destruct panel_counts_ranges as (_ & _ & Hnp).
    replace (Z.max (panel_n_parallel self) 1) with (panel_n_parallel self) by lia.
    assert (Hpos : 0 < IZR (panel_n_parallel self)) by (apply IZR_lt; lia).
    rewrite decide_True; [done |].
    apply (Rmult_le_reg_r (IZR (panel_n_parallel self))); [exact Hpos |].
    replace (ic / IZR (panel_n_parallel self) * IZR (panel_n_parallel self))
      with ic by (field; lra).
    lra. }
  split; [exact Hok |].
  rewrite Hcompat, Hok, Hprot. unfold compat_verdict. cbv zeta.
  destruct (ir_drop_status res) as [[| | |]|]; simpl;
    repeat case_bool_decide; simpl; split; intros; congruence.
Qed.
(** The refresh with every input of the drop available. *)
Lemma update_available (res : intermediate_results) (pj cos_phi eta_coeff length area : R)
    (voltage_value : Z) (insulation_meta : insulation_meta) :
  panel_pj self = Some pj → panel_cos_phi self = Some cos_phi →
  int_of_str (form_value self "U") = Some voltage_value → voltage_value ≠ 0%Z →
  panel_eta_coeff self = Some eta_coeff → panel_length self = Some length →
  panel_area self = Some area →
  INSULATION_META self !! form_value self "Tip-IZOLACIJE" = Some insulation_meta →
  _update_intermediate_results self = Return res →
  ir_icalc_total res
  = Some (pj / eta_coeff
          / ((if decide (panel_loaded_cores self = 2%Z) then 2 else sqrt 3)
             * IZR voltage_value * cos_phi))
  ∧ _lookup_ampacity self (meta_key insulation_meta) (form_value self "Tip-PROVODNIKA")
      (strip (form_value self "Način polaganja")) area (panel_loaded_cores self)
    = Return (ir_base_ampacity res)
  ∧ ∃ delta_u, ir_delta_u res = Some delta_u.
Proof.
  intros Hpj Hcos Hu Hnz Heta Hlen Harea Hmeta Hres.
  destruct (update_inv res Hres)
    as (s & t & icalc & per & phase & r & x & base & d
        & _ & _ & Hicalc & Himp & Hbase & Hd & _ & _ & _ & _ & _ & Hic & _ & Hb & _ & _
        & Hdu & _).
  destruct (panel_icalc_spec (panel_loaded_cores self) (panel_n_parallel self))
    as [[phase' Hnone] | (pj' & c' & u' & e' & Hpj' & Hc' & Hu' & _ & He' & Hsome)].
  { exfalso. revert Hnone. unfold panel_icalc. rewrite Hpj, Hcos, Hu, Heta.
    rewrite decide_False by done. rewrite phase_factor_Return, bind_Return. cbv zeta.
    apply panel_cos_phi_range in Hcos as [_ Hc]. apply panel_eta_range in Heta as [_ He].
    pose proof (phase_factor_positive (panel_loaded_cores self)) as Hphase.
    assert (HU : IZR voltage_value ≠ 0) by (by apply not_0_IZR).
    assert (Hden : (if decide (panel_loaded_cores self = 2%Z) then 2 else sqrt 3)
                   * IZR voltage_value * cos_phi ≠ 0).
    { apply Rmult_integral_contrapositive_currified;
        [apply Rmult_integral_contrapositive_currified; [lra | exact HU] | lra]. }
    rewrite decide_False by exact Hden.
    rewrite (truediv_Return _ eta_coeff) by lra. rewrite bind_Return.
    rewrite truediv_Return by exact Hden. rewrite bind_Return.
    rewrite truediv_Return by apply divider_nonzero. rewrite bind_Return. done. }
  rewrite Hpj in Hpj'. rewrite Hcos in Hc'. rewrite Hu in Hu'. rewrite Heta in He'.
  injection Hpj' as <-. injection Hc' as <-. injection Hu' as <-. injection He' as <-.
  rewrite Hsome in Hicalc. injection Hicalc as <- <- <-.
  split; [exact Hic |].
  split.
  { rewrite Hb. rewrite <- Hbase. unfold panel_base_ampacity. by rewrite Harea, Hmeta. }
  rewrite Hdu.
  destruct panel_impedance_spec as [[_ [Hno | Hno]] | (a & m & r' & x' & _ & _ & _ & Himp')];
    [congruence | congruence |].
  rewrite Himp' in Himp. injection Himp as <- <-.
  revert Hd. unfold panel_delta_u. rewrite Hlen, Hcos, Hu.
  rewrite decide_False by done. cbv zeta.
  rewrite !truediv_Return by apply divider_nonzero. rewrite !bind_Return.
  rewrite sin_phi_defined, bind_Return.
  rewrite truediv_Return by (by apply not_0_IZR). rewrite bind_Return.
  intros [= <-]. by eexists.
Qed.
End PanelFacts.

Section PanelSample.
#[local] Existing Instance Decimal.decimal_builtins.

Lemma try_parse_float_decimal (value : string) (m : Z) (d : nat) (x : R) :
  replace_comma (strip value) ≠ "" →
  Decimal.decimal_parts (replace_comma (strip value)) = Some (m, d) →
  IZR m / 10 ^ d = x →
  _try_parse_float value = Some x.
Proof.
  intros Hne Hparts <-. unfold _try_parse_float. cbv zeta.
  rewrite decide_False by done.
  change (float_of_str (replace_comma (strip value)))
    with (Decimal.decimal_float (replace_comma (strip value))).
  by rewrite (decimal_float_parts _ _ _ Hparts).
Qed.

Lemma panel_sample_pj : panel_pj panel_sample = Some (2300 * 1).
Proof.
  unfold panel_pj.
  rewrite (try_parse_float_decimal (form_value panel_sample "Pi, W") 2300 0 2300);
    [| by vm_compute | by vm_compute | simpl; lra].
  rewrite (try_parse_float_decimal (form_value panel_sample "Kj") 1 0 1);
    [done | by vm_compute | by vm_compute | simpl; lra].
Qed.

Lemma panel_sample_cos : panel_cos_phi panel_sample = Some 1.
Proof.
  unfold panel_cos_phi.
  rewrite (try_parse_float_decimal (form_value panel_sample "cos φ") 1 0 1);
    [| by vm_compute | by vm_compute | simpl; lra].
  rewrite decide_False; [done |]. intros Hn. apply Hn. lra.
Qed.

Lemma panel_sample_eta : panel_eta_coeff panel_sample = Some 1.
Proof.
  unfold panel_eta_coeff.
  rewrite (try_parse_float_decimal (form_value panel_sample "η") 1 0 1);
    [| by vm_compute | by vm_compute | simpl; lra].
  rewrite decide_False; [done |]. intros [Hn | Hn]; lra.
Qed.

Lemma panel_sample_length : panel_length panel_sample = Some 10.
Proof.
  unfold panel_length.
  rewrite (try_parse_float_decimal (form_value panel_sample "Dužina L, m") 10 0 10);
    [| by vm_compute | by vm_compute | simpl; lra].
  by rewrite decide_False by lra.
Qed.

Lemma panel_sample_area : panel_area panel_sample = Some 1.5.
Proof.
  unfold panel_area.
  rewrite (try_parse_float_decimal (form_value panel_sample "Presek, mm²") 15 1 1.5);
    [| by vm_compute | by vm_compute | simpl; lra].
  by rewrite decide_False by lra.
Qed.

Lemma panel_sample_voltage : int_of_str (form_value panel_sample "U") = Some 230%Z.
Proof. by vm_compute. Qed.

Lemma panel_sample_counts :
  panel_loaded_cores panel_sample = 2%Z
  ∧ panel_circuits_count panel_sample = 1%Z
  ∧ panel_n_parallel panel_sample = 1%Z.
Proof. by vm_compute. Qed.

Lemma panel_sample_meta :
  INSULATION_META panel_sample !! form_value panel_sample "Tip-IZOLACIJE"
  = Some {| meta_key := "PVC"; meta_theta := 70 |}.
Proof. reflexivity. Qed.

Lemma panel_sample_temperature :
  _try_parse_float (form_value panel_sample "Температура, °C") = Some 30.
Proof.
  apply (try_parse_float_decimal _ 30 0 30); [by vm_compute | by vm_compute | simpl; lra].
Qed.

Lemma sample_temperature_factor (sections : list R) (form : gmap string string)
    (table : list (gmap string string)) :
  _lookup_temperature_factor (sample_app sections form table) "PVC" "air" 30
  = Return (Some 1).
Proof.
  unfold _lookup_temperature_factor.
  change (temperature_table (sample_app sections form table) "PVC" "air")
    with (Some kt_sample).
  cbv beta iota.
  rewrite decide_False.
  - by apply (temperature_factor_in_exact kt_sample 30 1).
  - unfold kt_sample. apply insert_non_empty.
Qed.

Lemma panel_sample_t_coeff : panel_t_coeff panel_sample = Return (Some 1).
Proof.
  unfold panel_t_coeff. rewrite panel_sample_meta, panel_sample_temperature.
  change (_medium_selected_key panel_sample) with "air".
  change (meta_key {| meta_key := "PVC"; meta_theta := 70 |}) with "PVC".
  rewrite (sample_temperature_factor [1.5; 2.5] panel_form []
           : _lookup_temperature_factor panel_sample "PVC" "air" 30 = _).
  rewrite bind_Return. by rewrite decide_True by lra.
Qed.

Lemma panel_sample_group :
  _lookup_group_factor panel_sample
    (effective_circuits (panel_circuits_count panel_sample) (panel_n_parallel panel_sample))
  = Return 1.
Proof.
  destruct panel_sample_counts as (_ & -> & ->).
  by apply lookup_group_factor_unit.
Qed.

Lemma panel_sample_returns : ∃ res, _update_intermediate_results panel_sample = Return res.
Proof. apply (update_returns panel_sample 1), panel_sample_group. Qed.

Lemma panel_drop_is_drop_pct_witness :
  ∃ res delta_u,
    _update_intermediate_results panel_sample = Return res
    ∧ ir_delta_u res = Some delta_u
    ∧ ∃ insulation_meta area voltage_value cos_phi length icalc_total,
        INSULATION_META panel_sample !! form_value panel_sample "Tip-IZOLACIJE"
        = Some insulation_meta
        ∧ panel_area panel_sample = Some area
        ∧ int_of_str (form_value panel_sample "U") = Some voltage_value
        ∧ panel_cos_phi panel_sample = Some cos_phi
        ∧ panel_length panel_sample = Some length
        ∧ ir_icalc_total res = Some icalc_total
        ∧ _drop_pct panel_sample (IZR voltage_value) cos_phi length
            (form_value panel_sample "Tip-PROVODNIKA") (meta_theta insulation_meta) area
            (strip (form_value panel_sample "Način polaganja"))
            (ir_loaded_cores res) (ir_n_parallel res) icalc_total
          = Return delta_u.
Proof.
  destruct panel_sample_returns as [res Hres].
  destruct (update_available panel_sample res _ _ _ _ _ _ _
              panel_sample_pj panel_sample_cos panel_sample_voltage ltac:(done)
              panel_sample_eta panel_sample_length panel_sample_area panel_sample_meta
              Hres) as (_ & _ & [delta_u Hdelta]).
  exists res, delta_u. split; [exact Hres |]. split; [exact Hdelta |].
  exact (panel_drop_is_drop_pct panel_sample res delta_u Hres Hdelta).
Defined.

Lemma panel_sample_protection (res : intermediate_results) :
  _update_intermediate_results panel_sample = Return res →
  protection_status (ir_protection res) = OK.
Proof.
  intros Hres.
  destruct (update_available panel_sample res _ _ _ _ _ _ _
              panel_sample_pj panel_sample_cos panel_sample_voltage ltac:(done)
              panel_sample_eta panel_sample_length panel_sample_area panel_sample_meta
              Hres) as (Hicalc & Hbase & _).
  destruct (update_inv panel_sample res Hres)
    as (s & t & icalc & per & phase & r & x & base & d
        & Hs & Ht & _ & _ & _ & _ & _ & _ & _ & _ & _ & Hic & _ & Hb & Hiz & _ & _ & _
        & Hp & _).
  rewrite panel_sample_group in Hs. injection Hs as <-.
  rewrite panel_sample_t_coeff in Ht. injection Ht as <-.
  destruct panel_sample_counts as (Hlc & _ & Hnp).
  rewrite Hlc in Hbase, Hicalc.
  change (meta_key {| meta_key := "PVC"; meta_theta := 70 |}) with "PVC" in Hbase.
  change (form_value panel_sample "Tip-PROVODNIKA") with "Cu" in Hbase.
  change (strip (form_value panel_sample "Način polaganja")) with "C" in Hbase.
  rewrite (sample_lookup_ampacity [1.5; 2.5] panel_form [] 1.5 19.5 sample_base_low
           : _lookup_ampacity panel_sample "PVC" "Cu" "C" 1.5 2 = _) in Hbase.
  injection Hbase as Hbase. rewrite Hb in Hbase. subst base.
  rewrite Hp, Hiz, Hnp. rewrite <- Hic, Hicalc.
  unfold protection_of_form.
  rewrite (try_parse_float_decimal (form_value panel_sample "In, A") 10 0 10);
    [| by vm_compute | by vm_compute | simpl; lra].
  rewrite (try_parse_float_decimal (form_value panel_sample "k") 145 2 1.45);
    [| by vm_compute | by vm_compute | simpl; lra].
  rewrite protection_check_available by lra.
  rewrite decide_True by done.
  rewrite !bool_decide_eq_true_2; [done | lra |].
  split; [| lra].
  apply (Rmult_le_reg_r (2 * 230 * 1)); [lra |].
  replace (2300 * 1 / 1 / (2 * 230 * 1) * (2 * 230 * 1)) with 2300 by (field; lra).
  lra.
Qed.

Lemma panel_protection_implies_ampacity_witness :
  ∃ res,
    _update_intermediate_results panel_sample = Return res
    ∧ protection_status (ir_protection res) = OK
    ∧ ir_ampacity_status res = OK
    ∧ (ir_compat_display res = compat_ok ↔ ir_drop_status res = Some OK).
Proof.
  destruct panel_sample_returns as [res Hres].
  exists res. split; [exact Hres |].
  split; [exact (panel_sample_protection res Hres) |].
  exact (panel_protection_implies_ampacity panel_sample res Hres
           (panel_sample_protection res Hres)).
Defined.
End PanelSample.

(** ** Result panel and search *)

Section PanelAndSearch.
Context `{Builtins} (self : CableCalcApp).

(** What the checks of the search have read when they pass. *)
Lemma prepare_search_inv (inputs : search_inputs) :
  prepare_search self = Return (inr inputs) →
  ∃ insulation_meta circuits_count pi kj eta voltage_value,
    INSULATION_META self !! form_value self "Tip-IZOLACIJE" = Some insulation_meta
    ∧ _validate_counts self
      = (si_loaded_cores inputs, circuits_count, si_n_parallel inputs, None)
    ∧ (_parse_float (form_value self "Pi, W") "Pi, W").2 = Some pi
    ∧ (_parse_float (form_value self "Kj") "Kj").2 = Some kj
    ∧ (_parse_float (form_value self "η") "η").2 = Some eta
    ∧ 0 < eta <= 1
    ∧ (_parse_float (form_value self "cos φ") "cos φ").2 = Some (si_cos_phi inputs)
    ∧ 0 < si_cos_phi inputs <= 1
    ∧ int_of_str (form_value self "U") = Some voltage_value
    ∧ match _try_parse_float (form_value self "Температура, °C") with
      | None => si_t_coeff inputs = 1
      | Some temperature =>
        _lookup_temperature_factor self (meta_key insulation_meta)
          (_medium_selected_key self) temperature
        = Return (Some (si_t_coeff inputs))
        ∧ 0 < si_t_coeff inputs
      end
    ∧ _lookup_group_factor self (effective_circuits circuits_count (si_n_parallel inputs))
      = Return (si_s_coeff inputs)
    ∧ voltage_value ≠ 0%Z
    ∧ si_icalc_total inputs
      = pi * kj / eta
        / ((if decide (si_loaded_cores inputs = 2%Z) then 2 else sqrt 3)
           * IZR voltage_value * si_cos_phi inputs).
Proof.
  intros Hprep. unfold prepare_search in Hprep.
  destruct (INSULATION_META self !! form_value self "Tip-IZOLACIJE") as [meta|];
    [| discriminate].
  destruct (_validate_counts self) as [[[loaded_cores circuits_count] n_parallel] err].
  destruct err as [err|]; [discriminate |].
  destruct (_parse_float (form_value self "Pi, W") "Pi, W") as [s1 [pi|]]; [| discriminate].
  destruct (_parse_float (form_value self "Kj") "Kj") as [s2 [kj|]]; [| discriminate].
  destruct (_parse_float (form_value self "η") "η") as [s3 [eta|]]; [| discriminate].
  destruct (decide (¬ (0 < eta ∧ eta <= 1))) as [| Heta]; [discriminate |].
  apply dec_stable in Heta.
  destruct (_parse_float (form_value self "cos φ") "cos φ") as [s4 [cos_phi|]];
    [| discriminate].
  destruct (decide (¬ (0 < cos_phi ∧ cos_phi <= 1))) as [| Hcos]; [discriminate |].
  apply dec_stable in Hcos.
  destruct (_parse_float (form_value self "Dužina L, m") "Dužina L, m")
    as [s5 [length|]]; [| discriminate].
  destruct (decide (length < 0)) as [| Hlength]; [discriminate |].
  destruct (int_of_str (form_value self "U")) as [voltage_value|]; [| discriminate].
  assert (Hfinish : ∀ t_coeff,
    (s_coeff ← _lookup_group_factor self (effective_circuits circuits_count n_parallel);
     let pj := pi * kj in
     phase ← phase_factor loaded_cores;
     let denominator := phase * IZR voltage_value * cos_phi in
     if decide (denominator = 0) then Return (inl [error_text "error.division_zero"])
     else
     pj_eta ← truediv pj eta;
     icalc_total ← truediv pj_eta denominator;
     if decide (icalc_total <= 0) then Return (inl [error_text "error.icalc_positive"])
     else
     let limit_pct := DROP_LIMIT_KEYS self !! form_value self "Ключ ΔU" in
     let k_value :=
       match _try_parse_float (form_value self "k") with
       | None => 1.45
       | Some k_value => if decide (k_value <= 0) then 1.45 else k_value
       end in
     let breaker_values := parse_breakers (STANDARD_BREAKER_RATINGS self) in
     match breaker_values with
     | [] => Return (inl [error_text "error.breaker_ratings_required"])
     | _ =>
       Return (inr {|
         si_insulation_key := meta_key meta;
         si_conductor := form_value self "Tip-PROVODNIKA";
         si_method := strip (form_value self "Način polaganja");
         si_insulation_theta := meta_theta meta;
         si_loaded_cores := loaded_cores;
         si_n_parallel := n_parallel;
         si_voltage_value := voltage_value;
         si_s_coeff := s_coeff;
         si_t_coeff := t_coeff;
         si_cos_phi := cos_phi;
         si_length := length;
         si_icalc_total := icalc_total;
         si_limit_pct := limit_pct;
         si_k_value := k_value;
         si_breaker_values := breaker_values |})
     end) = Return (inr inputs) →
    si_loaded_cores inputs = loaded_cores ∧ si_n_parallel inputs = n_parallel
    ∧ si_cos_phi inputs = cos_phi ∧ si_t_coeff inputs = t_coeff
    ∧ _lookup_group_factor self (effective_circuits circuits_count n_parallel)
      = Return (si_s_coeff inputs)
    ∧ voltage_value ≠ 0%Z
    ∧ si_icalc_total inputs
      = pi * kj / eta
        / ((if decide (loaded_cores = 2%Z) then 2 else sqrt 3)
           * IZR voltage_value * cos_phi)).
  { intros t_coeff Hrest.
    destruct (_lookup_group_factor self (effective_circuits circuits_count n_parallel))
      as [s_coeff|e]; rewrite ?bind_Return, ?bind_Raise in Hrest; [| discriminate].
    rewrite phase_factor_Return, bind_Return in Hrest. cbv zeta in Hrest.
    destruct (decide (_ = 0)) as [| Hden] in Hrest; [discriminate |].
    rewrite (truediv_Return _ eta) in Hrest by lra. rewrite bind_Return in Hrest.
    rewrite truediv_Return in Hrest by exact Hden. rewrite bind_Return in Hrest.
    destruct (decide (_ <= 0)) as [| Hicalc] in Hrest; [discriminate |].
    destruct (parse_breakers (STANDARD_BREAKER_RATINGS self)) eqn:Ebr; [discriminate |].
    injection Hrest as <-. simpl. repeat split; try done.
    intros ->. apply Hden. simpl. lra. }
  destruct (_try_parse_float (form_value self "Температура, °C")) as [temperature|].
  - destruct (_lookup_temperature_factor self (meta_key meta) (_medium_selected_key self)
                temperature) as [[temp_factor|]|e] eqn:Hlookup;
      rewrite ?bind_Return, ?bind_Raise in Hprep; try discriminate.
    destruct (decide (temp_factor <= 0)); rewrite bind_Return in Hprep; [discriminate |].
    destruct (Hfinish temp_factor Hprep) as (<- & <- & <- & Ht & Hs & Hu & Hi).
    exists meta, circuits_count, pi, kj, eta, voltage_value.
    rewrite Ht. repeat split; try done; lra.
  - rewrite bind_Return in Hprep.
    destruct (Hfinish 1 Hprep) as (<- & <- & <- & Ht & Hs & Hu & Hi).
    exists meta, circuits_count, pi, kj, eta, voltage_value.
    repeat split; try done; lra.
Qed.
Lemma validate_counts_panel (loaded_cores circuits_count n_parallel : Z) :
  _validate_counts self = (loaded_cores, circuits_count, n_parallel, None) →
  panel_loaded_cores self = loaded_cores
  ∧ panel_circuits_count self = circuits_count
  ∧ panel_n_parallel self = n_parallel.
Proof.
  unfold _validate_counts, panel_loaded_cores, panel_circuits_count, panel_n_parallel.
  destruct (int_of_str (strip (form_value self "Нагруженные жилы (nž)"))) as [lc|];
    [| discriminate].
  destruct (decide (lc ≠ 2 ∧ lc ≠ 3)%Z); [discriminate |].
  destruct (int_of_str (strip (form_value self "Кабелей в группе (для S)"))) as [cc|];
    [| discriminate].
  destruct (decide (cc < 1)%Z); [discriminate |].
  destruct (int_of_str (strip (form_value self "Параллельные кабели (n∥)"))) as [np|];
    [| discriminate].
  destruct (decide (np < 1)%Z); [discriminate |].
  by intros [= <- <- <-].
Qed.

Lemma parse_float_try (value field_name : string) (x : R) :
  (_parse_float value field_name).2 = Some x → _try_parse_float value = Some x.
Proof.
  unfold _parse_float, _try_parse_float. cbv zeta.
  destruct (decide (strip value = "")) as [Hempty | Hfull]; [done |].
  rewrite decide_False by (by rewrite replace_comma_empty).
  by destruct (float_of_str (replace_comma (strip value))).
Qed.

Lemma panel_icalc_available (loaded_cores n_parallel voltage_value : Z)
    (pj cos_phi eta_coeff : R) :
  panel_pj self = Some pj → panel_cos_phi self = Some cos_phi →
  int_of_str (form_value self "U") = Some voltage_value → voltage_value ≠ 0%Z →
  panel_eta_coeff self = Some eta_coeff →
  panel_icalc self loaded_cores n_parallel
  = Return
      (Some (pj / eta_coeff
             / ((if decide (loaded_cores = 2%Z) then 2 else sqrt 3)
                * IZR voltage_value * cos_phi)),
       Some (pj / eta_coeff
             / ((if decide (loaded_cores = 2%Z) then 2 else sqrt 3)
                * IZR voltage_value * cos_phi)
             / IZR (Z.max n_parallel 1)),
       Some (if decide (loaded_cores = 2%Z) then 2 else sqrt 3)).
Proof.
  intros Hpj Hcos Hu Hnz Heta. unfold panel_icalc. rewrite Hpj, Hcos, Hu, Heta.
  rewrite decide_False by done. rewrite phase_factor_Return, bind_Return. cbv zeta.
  apply panel_cos_phi_range in Hcos as [_ Hc]. apply panel_eta_range in Heta as [_ He].
  pose proof (phase_factor_positive loaded_cores) as Hphase.
  assert (HU : IZR voltage_value ≠ 0) by (by apply not_0_IZR).
  assert (Hden : (if decide (loaded_cores = 2%Z) then 2 else sqrt 3)
                 * IZR voltage_value * cos_phi ≠ 0).
  { apply Rmult_integral_contrapositive_currified;
      [apply Rmult_integral_contrapositive_currified; [lra | exact HU] | lra]. }
  rewrite decide_False by exact Hden.
  rewrite (truediv_Return _ eta_coeff) by lra. rewrite bind_Return.
  rewrite truediv_Return by exact Hden. rewrite bind_Return.
  rewrite truediv_Return by apply divider_nonzero. by rewrite bind_Return.
Qed.

(** X25.  The panel and the search read the form alike, except for the
    temperature.  When the checks of the search pass, the refresh of the
    panel has the same counts, the same grouping factor and the same design
    current, and a temperature factor of the panel is the one the search
    uses.  But where the temperature field holds no number the search goes
    on with the factor 1, while the panel has no factor, hence no ampacity
    [Iz], and neither its ampacity verdict nor its protection verdict is
    OK. *)
Theorem panel_agrees_with_search (inputs : search_inputs) (res : intermediate_results) :
  prepare_search self = Return (inr inputs) →
  _update_intermediate_results self = Return res →
  ir_loaded_cores res = si_loaded_cores inputs
  ∧ ir_n_parallel res = si_n_parallel inputs
  ∧ ir_s_coeff res = si_s_coeff inputs
  ∧ ir_icalc_total res = Some (si_icalc_total inputs)
  ∧ (∀ t_coeff, ir_t_coeff res = Some t_coeff → si_t_coeff inputs = t_coeff)
  ∧ (ir_t_coeff res = None →
     _try_parse_float (form_value self "Температура, °C") = None
     ∧ si_t_coeff inputs = 1
     ∧ ir_iz_one res = None
     ∧ ir_ampacity_status res ≠ OK
     ∧ protection_status (ir_protection res) ≠ OK).
Proof.
  intros Hprep Hres.
  destruct (prepare_search_inv inputs Hprep)
    as (meta & cc & pi & kj & eta & voltage & Hmeta & Hcounts & Hpi & Hkj & Heta & Hetar
        & Hcos & Hcosr & HU & Ht & Hs & Hnz & Hicalc).
  apply validate_counts_panel in Hcounts as (Hlc & Hcc & Hnp).
  apply parse_float_try in Hpi, Hkj, Heta, Hcos.
  assert (Hpj : panel_pj self = Some (pi * kj)).
  { unfold panel_pj. by rewrite Hpi, Hkj. }
  assert (Hpcos : panel_cos_phi self = Some (si_cos_phi inputs)).
  { unfold panel_cos_phi. rewrite Hcos. rewrite decide_False; [done |].
    intros Hn. by apply Hn. }
  assert (Hpeta : panel_eta_coeff self = Some eta).
  { unfold panel_eta_coeff. rewrite Heta. rewrite decide_False; [done |].
    intros [Hn | Hn]; lra. }
  destruct (update_inv self res Hres)
    as (s & t & icalc & per & phase & r & x & base & d
        & Hs' & Ht' & Hicalc' & _ & _ & _ & Hrlc & _ & Hrnp & Hrs & Hrt & Hric & _ & _
        & Hriz & Hramp & _ & _ & Hrp & _).
  rewrite Hcc, Hnp, Hs in Hs'. injection Hs' as <-.
  rewrite (panel_icalc_available _ _ voltage (pi * kj) (si_cos_phi inputs) eta
             Hpj Hpcos HU Hnz Hpeta) in Hicalc'.
  injection Hicalc' as <- <- <-.
  split; [by rewrite Hrlc |]. split; [by rewrite Hrnp |]. split; [done |].
  split; [by rewrite Hric, Hlc, Hicalc |].
  rewrite Hrt, Hriz.
  destruct (panel_t_coeff_spec self) as (t' & Hpt & Hsome & Hnone).
  rewrite Hpt in Ht'. injection Ht' as <-.
  split.
  - intros t_coeff ->.
    destruct (Hsome t_coeff eq_refl) as (_ & meta' & temperature & Hmeta' & Htemp & Hlookup).
    rewrite Hmeta in Hmeta'. injection Hmeta' as <-.
    rewrite Htemp in Ht. destruct Ht as [Ht _]. rewrite Hlookup in Ht.
    by injection Ht as <-.
  - intros ->.
    destruct (_try_parse_float (form_value self "Температура, °C")) as [temperature|]
      eqn:Htemp.
    { exfalso. destruct Ht as [Hlookup Hpos]. revert Hpt. unfold panel_t_coeff.
      rewrite Hmeta, Htemp, Hlookup, bind_Return.
      by rewrite decide_True by lra. }
    split; [done |]. split; [exact Ht |].
    assert (Hiz : match base with
                  | Some _ => None
                  | None => None
                  end = (None : option R)) by (by destruct base).
    rewrite Hiz. split; [done |]. split.
    + rewrite Hramp, Hriz, Hiz. unfold ampacity_verdict. by destruct base.
    + rewrite Hrp, Hriz, Hiz. unfold protection_of_form. intros Hok.
      apply protection_check_OK in Hok as (? & ? & ? & ? & Hfalse & _). discriminate.
Qed.
End PanelAndSearch.

Section PanelAndSearchSample.
#[local] Existing Instance Decimal.decimal_builtins.

Lemma sample_filled_refresh : ∃ res, _update_intermediate_results sample_filled = Return res.
Proof.
  apply (update_returns sample_filled 1).
  assert (Hcounts : panel_circuits_count sample_filled = 1%Z
                    ∧ panel_n_parallel sample_filled = 1%Z) by (by vm_compute).
  destruct Hcounts as [-> ->]. by apply lookup_group_factor_unit.
Qed.

Lemma panel_agrees_with_search_witness :
  ∃ res,
    _update_intermediate_results sample_filled = Return res
    ∧ ir_loaded_cores res = si_loaded_cores sample_inputs
    ∧ ir_n_parallel res = si_n_parallel sample_inputs
    ∧ ir_s_coeff res = si_s_coeff sample_inputs
    ∧ ir_icalc_total res = Some (si_icalc_total sample_inputs)
    ∧ (∀ t_coeff, ir_t_coeff res = Some t_coeff → si_t_coeff sample_inputs = t_coeff)
    ∧ (ir_t_coeff res = None →
       _try_parse_float (form_value sample_filled "Температура, °C") = None
       ∧ si_t_coeff sample_inputs = 1
       ∧ ir_iz_one res = None
       ∧ ir_ampacity_status res ≠ OK
       ∧ protection_status (ir_protection res) ≠ OK).
Proof.
  destruct sample_filled_refresh as [res Hres].
  exists res. split; [exact Hres |].
  exact (panel_agrees_with_search sample_filled sample_inputs res sample_prepared Hres).
Defined.
End PanelAndSearchSample.

(** ** The selected pair on the panel *)

Lemma rstrip_idempotent (s : string) : rstrip (rstrip s) = rstrip s.
Proof.
  induction s as [|a s IH]; [done |].
  simpl. destruct (rstrip s) as [|b r] eqn:Hr.
  - destruct (is_space a) eqn:Ha; [done |]. simpl. by rewrite Ha.
  - change (rstrip (String a (String b r)))
      with (match rstrip (String b r) with
            | EmptyString => if is_space a then EmptyString else String a EmptyString
            | String c r' => String a (String c r')
            end).
    by rewrite IH.
Qed.

Lemma lstrip_head (s : string) :
  lstrip s = "" ∨ ∃ a s', lstrip s = String a s' ∧ is_space a = false.
Proof.
  induction s as [|a s IH]; [by left |].
  simpl. destruct (is_space a) eqn:Ha; [exact IH |]. right. by exists a, s.
Qed.

Lemma rstrip_head (a : Ascii.ascii) (s : string) :
  is_space a = false → ∃ r, rstrip (String a s) = String a r.
Proof.
  intros Ha. simpl. destruct (rstrip s) as [|b r]; [| by eexists].
  rewrite Ha. by eexists.
Qed.

Lemma strip_idempotent (s : string) : strip (strip s) = strip s.
Proof.
  unfold strip.
  destruct (lstrip_head s) as [-> | (a & s' & -> & Ha)]; [done |].
  destruct (rstrip_head a s' Ha) as [r Hr].
  rewrite Hr. cbn [lstrip]. rewrite Ha, <- Hr. apply rstrip_idempotent.
Qed.

Section Selection.
Context `{Builtins} (self : CableCalcApp) (area_text breaker_str : string).

Abbreviation selected := (apply_selection self area_text breaker_str).

Lemma form_value_selection (name : string) :
  name ≠ "In, A" → name ≠ "Presek, mm²" →
  form_value selected name = form_value self name.
Proof.
  intros Hin Harea. unfold form_value, get_str, apply_selection. simpl.
  by rewrite !lookup_insert_ne by done.
Qed.

Lemma form_value_selection_rating : form_value selected "In, A" = breaker_str.
Proof.
  unfold form_value, get_str, apply_selection. simpl. by rewrite lookup_insert_eq.
Qed.

Lemma form_value_selection_area : form_value selected "Presek, mm²" = area_text.
Proof.
  unfold form_value, get_str, apply_selection. simpl.
  rewrite lookup_insert_ne by done. by rewrite lookup_insert_eq.
Qed.

Lemma selection_counts :
  panel_loaded_cores selected = panel_loaded_cores self
  ∧ panel_circuits_count selected = panel_circuits_count self
  ∧ panel_n_parallel selected = panel_n_parallel self.
Proof.
  unfold panel_loaded_cores, panel_circuits_count, panel_n_parallel.
  by rewrite !form_value_selection by discriminate.
Qed.

Lemma selection_t_coeff : panel_t_coeff selected = panel_t_coeff self.
Proof.
  unfold panel_t_coeff. by rewrite !form_value_selection by discriminate.
Qed.

Lemma selection_icalc (loaded_cores n_parallel : Z) :
  panel_icalc selected loaded_cores n_parallel = panel_icalc self loaded_cores n_parallel.
Proof.
  unfold panel_icalc, panel_pj, panel_cos_phi, panel_eta_coeff.
  by rewrite !form_value_selection by discriminate.
Qed.

Lemma selection_area (area : R) :
  _try_parse_float area_text = Some area → 0 < area → panel_area selected = Some area.
Proof.
  intros Harea Hpos. unfold panel_area.
  rewrite form_value_selection_area, Harea. by rewrite decide_False by lra.
Qed.
End Selection.

Section SelectedPair.
Context `{Builtins} (self : CableCalcApp).

(** The texts of the breaker catalogue that the search uses parse to their
    ratings. *)
Lemma parse_breakers_elem (ratings : list string) (breaker_str : string)
    (breaker_value : R) :
  (breaker_str, breaker_value) ∈ parse_breakers ratings →
  _try_parse_float breaker_str = Some breaker_value.
Proof.
  induction ratings as [|item rest IH]; intros Hin; [by apply elem_of_nil in Hin |].
  simpl in Hin.
  destruct (decide (strip item = "")) as [| Hne]; [by apply IH |].
  destruct (float_of_str (replace_comma (strip item))) as [value|] eqn:Hvalue;
    [| by apply IH].
  apply elem_of_cons in Hin as [[= -> ->] | Hin]; [| by apply IH].
  unfold _try_parse_float. cbv zeta. rewrite strip_idempotent.
  rewrite decide_False by (by rewrite replace_comma_empty). exact Hvalue.
Qed.

Lemma combo_ok_inv (icalc_total : R) (limit_pct : option R)
    (k_value iz_total drop_val breaker_value : R) :
  combo_ok icalc_total limit_pct k_value iz_total drop_val breaker_value = true →
  icalc_total <= breaker_value <= iz_total
  ∧ (∀ limit, limit_pct = Some limit → drop_val <= limit)
  ∧ breaker_value * k_value <= 1.45 * iz_total.
Proof.
  unfold combo_ok. cbv zeta. intros Hok.
  apply andb_true_iff in Hok as [Hok Hprot]. apply andb_true_iff in Hok as [Hin Hdrop].
  apply bool_decide_eq_true_1 in Hin, Hprot.
  split; [lra |]. split; [| exact Hprot].
  intros limit ->. by apply bool_decide_eq_true_1 in Hdrop.
Qed.

(** What the search loop has established of the pair it returns. *)
Lemma run_search_selected (inputs : search_inputs) (area : R) (breaker_str : string)
    (iz_total drop_val : R) (fallback : list candidate) :
  0 < si_icalc_total inputs →
  run_search self inputs = Return (Some (area, breaker_str, iz_total, drop_val), fallback) →
  0 < area
  ∧ evaluated self (si_insulation_key inputs) (si_conductor inputs) (si_method inputs)
      (si_insulation_theta inputs) (si_loaded_cores inputs) (si_n_parallel inputs)
      (si_voltage_value inputs) (si_s_coeff inputs) (si_t_coeff inputs) (si_cos_phi inputs)
      (si_length inputs) (si_icalc_total inputs) area iz_total drop_val
  ∧ ∃ breaker_value,
      (breaker_str, breaker_value) ∈ si_breaker_values inputs
      ∧ combo_ok (si_icalc_total inputs) (si_limit_pct inputs) (si_k_value inputs)
          iz_total drop_val breaker_value = true.
Proof.
  intros Hicalc Hrun. unfold run_search in Hrun.
  destruct (scan_sections_spec self (si_insulation_key inputs) (si_conductor inputs)
              (si_method inputs) (si_insulation_theta inputs) (si_loaded_cores inputs)
              (si_n_parallel inputs) (si_voltage_value inputs) (si_s_coeff inputs)
              (si_t_coeff inputs) (si_cos_phi inputs) (si_length inputs)
              (si_icalc_total inputs) (si_limit_pct inputs) (si_k_value inputs)
              (si_breaker_values inputs) (STANDARD_SECTIONS self) [] Hicalc)
    as [(before & a & after & bb & bs & bv & ba & iz & d & fb
         & _ & Hbr & Ha & Hev & Hok & _ & _ & Hscan)
       | [_ [fb Hscan]]];
    rewrite Hscan in Hrun; [| discriminate].
  injection Hrun as -> -> -> -> _.
  split; [exact Ha |]. split; [exact Hev |].
  exists bv. split; [| exact Hok].
  rewrite Hbr. apply elem_of_app. right. by left.
Qed.

(** The fields of the prepared inputs that are copied from the form and
    the tables. *)
Lemma prepare_search_fields (inputs : search_inputs) :
  prepare_search self = Return (inr inputs) →
  ∃ insulation_meta,
    INSULATION_META self !! form_value self "Tip-IZOLACIJE" = Some insulation_meta
    ∧ si_insulation_key inputs = meta_key insulation_meta
    ∧ si_insulation_theta inputs = meta_theta insulation_meta
    ∧ si_conductor inputs = form_value self "Tip-PROVODNIKA"
    ∧ si_method inputs = strip (form_value self "Način polaganja")
    ∧ int_of_str (form_value self "U") = Some (si_voltage_value inputs)
    ∧ (_parse_float (form_value self "Dužina L, m") "Dužina L, m").2
      = Some (si_length inputs)
    ∧ 0 <= si_length inputs
    ∧ si_limit_pct inputs = DROP_LIMIT_KEYS self !! form_value self "Ключ ΔU".
Proof.
  intros Hprep. unfold prepare_search in Hprep.
  destruct (INSULATION_META self !! form_value self "Tip-IZOLACIJE") as [meta|];
    [| discriminate].
  destruct (_validate_counts self) as [[[loaded_cores circuits_count] n_parallel] err].
  destruct err as [err|]; [discriminate |].
  destruct (_parse_float (form_value self "Pi, W") "Pi, W") as [s1 [pi|]]; [| discriminate].
  destruct (_parse_float (form_value self "Kj") "Kj") as [s2 [kj|]]; [| discriminate].
  destruct (_parse_float (form_value self "η") "η") as [s3 [eta|]]; [| discriminate].
  destruct (decide (¬ (0 < eta ∧ eta <= 1))) as [| Heta]; [discriminate |].
  apply dec_stable in Heta.
  destruct (_parse_float (form_value self "cos φ") "cos φ") as [s4 [cos_phi|]];
    [| discriminate].
  destruct (decide (¬ (0 < cos_phi ∧ cos_phi <= 1))) as [| Hcos]; [discriminate |].
  destruct (_parse_float (form_value self "Dužina L, m") "Dužina L, m")
    as [s5 [length|]]; [| discriminate].
  destruct (decide (length < 0)) as [| Hlength]; [discriminate |].
  destruct (int_of_str (form_value self "U")) as [voltage_value|]; [| discriminate].
  assert (Hfinish : ∀ t_coeff,
    (s_coeff ← _lookup_group_factor self (effective_circuits circuits_count n_parallel);
     let pj := pi * kj in
     phase ← phase_factor loaded_cores;
     let denominator := phase * IZR voltage_value * cos_phi in
     if decide (denominator = 0) then Return (inl [error_text "error.division_zero"])
     else
     pj_eta ← truediv pj eta;
     icalc_total ← truediv pj_eta denominator;
     if decide (icalc_total <= 0) then Return (inl [error_text "error.icalc_positive"])
     else
     let limit_pct := DROP_LIMIT_KEYS self !! form_value self "Ключ ΔU" in
     let k_value :=
       match _try_parse_float (form_value self "k") with
       | None => 1.45
       | Some k_value => if decide (k_value <= 0) then 1.45 else k_value
       end in
     let breaker_values := parse_breakers (STANDARD_BREAKER_RATINGS self) in
     match breaker_values with
     | [] => Return (inl [error_text "error.breaker_ratings_required"])
     | _ =>
       Return (inr {|
         si_insulation_key := meta_key meta;
         si_conductor := form_value self "Tip-PROVODNIKA";
         si_method := strip (form_value self "Način polaganja");
         si_insulation_theta := meta_theta meta;
         si_loaded_cores := loaded_cores;
         si_n_parallel := n_parallel;
         si_voltage_value := voltage_value;
         si_s_coeff := s_coeff;
         si_t_coeff := t_coeff;
         si_cos_phi := cos_phi;
         si_length := length;
         si_icalc_total := icalc_total;
         si_limit_pct := limit_pct;
         si_k_value := k_value;
         si_breaker_values := breaker_values |})
     end) = Return (inr inputs) →
    si_insulation_key inputs = meta_key meta
    ∧ si_insulation_theta inputs = meta_theta meta
    ∧ si_conductor inputs = form_value self "Tip-PROVODNIKA"
    ∧ si_method inputs = strip (form_value self "Način polaganja")
    ∧ si_voltage_value inputs = voltage_value
    ∧ si_length inputs = length
    ∧ si_limit_pct inputs = DROP_LIMIT_KEYS self !! form_value self "Ключ ΔU").
  { intros t_coeff Hrest.
    destruct (_lookup_group_factor self (effective_circuits circuits_count n_parallel))
      as [s_coeff|e]; rewrite ?bind_Return, ?bind_Raise in Hrest; [| discriminate].
    rewrite phase_factor_Return, bind_Return in Hrest. cbv zeta in Hrest.
    destruct (decide (_ = 0)) as [| Hden] in Hrest; [discriminate |].
    rewrite (truediv_Return _ eta) in Hrest by lra. rewrite bind_Return in Hrest.
    rewrite truediv_Return in Hrest by exact Hden. rewrite bind_Return in Hrest.
    destruct (decide (_ <= 0)) as [| Hicalc] in Hrest; [discriminate |].
    destruct (parse_breakers (STANDARD_BREAKER_RATINGS self)) eqn:Ebr; [discriminate |].
    injection Hrest as <-. simpl. by repeat split. }
  assert (Hall : si_insulation_key inputs = meta_key meta
                 ∧ si_insulation_theta inputs = meta_theta meta
                 ∧ si_conductor inputs = form_value self "Tip-PROVODNIKA"
                 ∧ si_method inputs = strip (form_value self "Način polaganja")
                 ∧ si_voltage_value inputs = voltage_value
                 ∧ si_length inputs = length
                 ∧ si_limit_pct inputs = DROP_LIMIT_KEYS self !! form_value self "Ключ ΔU").
  { destruct (_try_parse_float (form_value self "Температура, °C")) as [temperature|].
    - destruct (_lookup_temperature_factor self (meta_key meta)
                  (_medium_selected_key self) temperature) as [[temp_factor|]|e];
        rewrite ?bind_Return, ?bind_Raise in Hprep; try discriminate.
      destruct (decide (temp_factor <= 0)); rewrite bind_Return in Hprep;
        [discriminate |].
      by apply (Hfinish temp_factor).
    - rewrite bind_Return in Hprep. by apply (Hfinish 1). }
  destruct Hall as (Hkey & Htheta & Hcond & Hmethod & Hvoltage & Hlen & Hlimit).
  exists meta. rewrite Hvoltage, Hlen. simpl. repeat split; try done. lra.
Qed.
Section Confirmed.
Context (area_text breaker_str : string).

Abbreviation chosen := (apply_selection self area_text breaker_str).

(** The tables are those of [self]. *)
Lemma lookup_ampacity_chosen (insulation_key conductor laying : string) (area : R)
    (loaded_cores : Z) :
  _lookup_ampacity chosen insulation_key conductor laying area loaded_cores
  = _lookup_ampacity self insulation_key conductor laying area loaded_cores.
Proof. reflexivity. Qed.

Lemma drop_pct_chosen (U cos_phi L_m : R) (conductor : string)
    (insulation_theta area_mm2 : R) (method : string) (loaded_cores n_parallel : Z)
    (icalc_total : R) :
  _drop_pct chosen U cos_phi L_m conductor insulation_theta area_mm2 method loaded_cores
    n_parallel icalc_total
  = _drop_pct self U cos_phi L_m conductor insulation_theta area_mm2 method loaded_cores
      n_parallel icalc_total.
Proof. reflexivity. Qed.

Lemma group_factor_chosen (circuits : Z) :
  _lookup_group_factor chosen circuits = _lookup_group_factor self circuits.
Proof. reflexivity. Qed.

Lemma selection_fields :
  panel_pj chosen = panel_pj self
  ∧ panel_cos_phi chosen = panel_cos_phi self
  ∧ panel_eta_coeff chosen = panel_eta_coeff self
  ∧ panel_length chosen = panel_length self
  ∧ int_of_str (form_value chosen "U") = int_of_str (form_value self "U")
  ∧ INSULATION_META chosen !! form_value chosen "Tip-IZOLACIJE"
    = INSULATION_META self !! form_value self "Tip-IZOLACIJE"
  ∧ form_value chosen "Tip-PROVODNIKA" = form_value self "Tip-PROVODNIKA"
  ∧ form_value chosen "Način polaganja" = form_value self "Način polaganja"
  ∧ DROP_LIMIT_KEYS chosen !! form_value chosen "Ключ ΔU"
    = DROP_LIMIT_KEYS self !! form_value self "Ключ ΔU"
  ∧ form_value chosen "k" = form_value self "k".
Proof.
  unfold panel_pj, panel_cos_phi, panel_eta_coeff, panel_length.
  by rewrite !form_value_selection by discriminate.
Qed.

(** X26.  The pair the search selects is confirmed by the panel.  Let the
    checks of [select_optimal_parameters] pass and the search return a pair,
    let the temperature field hold a number and the field k a positive one,
    and let the text written into the section field parse back to the
    selected area.  Then the refresh of the panel that follows the writing
    of the pair into the form returns; it shows the ampacity and the drop the
    search computed for the pair, and its ampacity and protection verdicts
    are OK.  With a drop limit selected the drop verdict and the
    compatibility verdict are OK too; with none selected the drop verdict is
    a dash and the compatibility verdict is N/A. *)
Theorem selected_pair_confirmed (inputs : search_inputs) (area iz_total drop_val : R)
    (fallback : list candidate) (k : R) :
  prepare_search self = Return (inr inputs) →
  run_search self inputs = Return (Some (area, breaker_str, iz_total, drop_val), fallback) →
  _try_parse_float area_text = Some area →
  is_Some (_try_parse_float (form_value self "Температура, °C")) →
  _try_parse_float (form_value self "k") = Some k → 0 < k →
  ∃ res iz_one,
    _update_intermediate_results (apply_selection self area_text breaker_str) = Return res
    ∧ ir_iz_one res = Some iz_one
    ∧ iz_total = iz_one * IZR (si_n_parallel inputs)
    ∧ ir_delta_u res = Some drop_val
    ∧ ir_ampacity_status res = OK
    ∧ protection_status (ir_protection res) = OK
    ∧ match si_limit_pct inputs with
      | Some _ => ir_drop_status res = Some OK ∧ ir_compat_display res = compat_ok
      | None => ir_drop_status res = Some Dash ∧ ir_compat_display res = compat_na
      end.
Proof.
  intros Hprep Hrun Hat [temperature Htemp] Hk Hkpos.
  destruct (prepare_search_inv self inputs Hprep)
    as (meta & cc & pi & kj & eta & voltage & Hmeta & Hcounts & Hpi & Hkj & Heta & Hetar
        & Hcos & Hcosr & HU & Ht & Hs & Hnz & Hicalc).
  destruct (prepare_search_fields inputs Hprep)
    as (meta' & Hmeta' & Hkey & Htheta & Hcond & Hmethod & HU' & Hlen & Hlenr & Hlimit).
  rewrite Hmeta in Hmeta'. injection Hmeta' as <-.
  rewrite HU in HU'. injection HU' as ->.
  destruct (prepare_search_ranges self inputs Hprep)
    as ((_ & Hnp1) & _ & _ & _ & Hpos & _ & _ & _).
  destruct (prepare_search_inputs self inputs Hprep) as (Hkd & _ & _ & Hbr).
  destruct (run_search_selected inputs area breaker_str iz_total drop_val fallback Hpos Hrun)
    as (Harea & (iz_base & Hlook & Hiz & Hdrop) & bv & Hbv & Hok).
  apply combo_ok_inv in Hok as (Hrange & Hdroplim & Hprot).
  rewrite Hbr in Hbv. apply parse_breakers_elem in Hbv.
  apply validate_counts_panel in Hcounts as (Hlc & Hcc & Hnp).
  apply parse_float_try in Hpi, Hkj, Heta, Hcos, Hlen.
  rewrite Htemp in Ht. destruct Ht as [Hlookt Htpos].
  rewrite Hkey, Hcond, Hmethod in Hlook.
  rewrite Hcond, Htheta, Hmethod in Hdrop.
  assert (Hkval : si_k_value inputs = k).
  { rewrite Hkd. unfold k_or_default. rewrite Hk. by rewrite decide_False by lra. }
  rewrite Hkval in Hprot.
  replace (Z.max (si_n_parallel inputs) 1) with (si_n_parallel inputs) in Hiz by lia.
  assert (Hn : 0 < IZR (si_n_parallel inputs)) by (apply IZR_lt; lia).
  (* the blocks of the refresh on the form with the pair written *)
  destruct (selection_counts self area_text breaker_str) as (Hlc' & Hcc' & Hnp').
  destruct selection_fields
    as (Hfpj & Hfcos & Hfeta & Hflen & HfU & Hfmeta & Hfcond & Hflay & Hflimit & Hfk).
  assert (Hpj : panel_pj self = Some (pi * kj)).
  { unfold panel_pj. by rewrite Hpi, Hkj. }
  assert (Hpcos : panel_cos_phi self = Some (si_cos_phi inputs)).
  { unfold panel_cos_phi. rewrite Hcos. rewrite decide_False; [done |].
    intros Hnot. by apply Hnot. }
  assert (Hpeta : panel_eta_coeff self = Some eta).
  { unfold panel_eta_coeff. rewrite Heta. rewrite decide_False; [done |].
    intros [Hnot | Hnot]; lra. }
  assert (Hplen : panel_length self = Some (si_length inputs)).
  { unfold panel_length. rewrite Hlen. by rewrite decide_False by lra. }
  assert (Hparea : panel_area chosen = Some area) by (by apply selection_area).
  assert (Hgroup : _lookup_group_factor chosen
                     (effective_circuits (panel_circuits_count chosen)
                        (panel_n_parallel chosen))
                   = Return (si_s_coeff inputs)).
  { rewrite Hcc', Hnp', Hcc, Hnp, group_factor_chosen. exact Hs. }
  destruct (update_returns chosen _ Hgroup) as [res Hres].
  destruct (update_inv chosen res Hres)
    as (s & t & icalc & per & phase & r & x & base & du
        & Hs' & Ht' & Hicalc' & _ & Hbase' & _ & Hrlc & _ & Hrnp & _ & _ & Hric & _
        & _ & Hriz & Hramp & Hrdu & Hrdrop & Hrp & Hrcompat).
  rewrite Hgroup in Hs'. injection Hs' as <-.
  assert (Hpt : panel_t_coeff chosen = Return (Some (si_t_coeff inputs))).
  { rewrite selection_t_coeff. unfold panel_t_coeff.
    rewrite Hmeta, Htemp, Hlookt, bind_Return. by rewrite decide_True by lra. }
  rewrite Hpt in Ht'. injection Ht' as <-.
  rewrite selection_icalc, Hlc', Hnp', Hlc, Hnp in Hicalc'.
  rewrite (panel_icalc_available self _ _ (si_voltage_value inputs) (pi * kj)
             (si_cos_phi inputs) eta Hpj Hpcos HU Hnz Hpeta) in Hicalc'.
  rewrite <- Hicalc in Hicalc'. injection Hicalc' as <- <- <-.
  unfold panel_base_ampacity in Hbase'.
  rewrite Hparea, Hfmeta, Hmeta, Hfcond, Hflay, Hlc', Hlc, lookup_ampacity_chosen, Hlook
    in Hbase'.
  injection Hbase' as <-.
  rewrite Hnp', Hnp in Hrp. cbn iota in Hriz.
  (* the drop of the panel *)
  destruct (update_available chosen res (pi * kj) (si_cos_phi inputs) eta
              (si_length inputs) area (si_voltage_value inputs) meta)
    as (_ & _ & [delta Hdelta]);
    [by rewrite Hfpj | by rewrite Hfcos | by rewrite HfU | done | by rewrite Hfeta
     | by rewrite Hflen | done | by rewrite Hfmeta | done |].
  destruct (panel_delta_u_value chosen res delta Hres Hdelta)
    as (meta2 & area2 & U2 & cos2 & len2 & icalc2
        & Hm2 & Ha2 & HU2 & Hc2 & Hl2 & Hi2 & Hpct).
  rewrite Hfmeta, Hmeta in Hm2. injection Hm2 as <-.
  rewrite Hparea in Ha2. injection Ha2 as <-.
  rewrite HfU, HU in HU2. injection HU2 as <-.
  rewrite Hfcos, Hpcos in Hc2. injection Hc2 as <-.
  rewrite Hflen, Hplen in Hl2. injection Hl2 as <-.
  rewrite Hric in Hi2. injection Hi2 as <-.
  rewrite Hrlc, Hrnp, Hlc', Hnp', Hlc, Hnp, Hfcond, Hflay, drop_pct_chosen, Hdrop in Hpct.
  injection Hpct as <-.
  exists res, (iz_base * si_s_coeff inputs * si_t_coeff inputs).
  split; [exact Hres |]. split; [exact Hriz |]. split; [exact Hiz |].
  split; [exact Hdelta |].
  assert (Hamp : ir_ampacity_status res = OK).
  { rewrite Hramp, Hriz. unfold ampacity_verdict.
    replace (Z.max (si_n_parallel inputs) 1) with (si_n_parallel inputs) by lia.
    rewrite decide_True; [done |].
    apply (Rmult_le_reg_r (IZR (si_n_parallel inputs))); [exact Hn |].
    replace (si_icalc_total inputs / IZR (si_n_parallel inputs)
             * IZR (si_n_parallel inputs))
      with (si_icalc_total inputs) by (field; lra).
    lra. }
  assert (Hprotection : protection_status (ir_protection res) = OK).
  { rewrite Hrp, Hriz. unfold protection_of_form.
    rewrite form_value_selection_rating, Hbv, Hfk, Hk.
    rewrite protection_check_available by lra.
    rewrite !bool_decide_eq_true_2; [done | lra | lra]. }
  split; [exact Hamp |]. split; [exact Hprotection |].
  rewrite Hdelta in Hrdu. subst du.
  rewrite Hrcompat, Hrdrop, Hamp, Hprotection, Hflimit, <- Hlimit.
  unfold compat_verdict, drop_verdict. cbv zeta.
  destruct (si_limit_pct inputs) as [limit|].
  - rewrite decide_True by (by apply Hdroplim). simpl.
    split; [done |]. by repeat case_bool_decide.
  - simpl. split; [done |]. by repeat case_bool_decide.
Qed.
End Confirmed.
End SelectedPair.

Section ConfirmedSample.
#[local] Existing Instance Decimal.decimal_builtins.

Lemma search_sample_prepared : prepare_search search_sample = Return (inr sample_inputs).
Proof.
  unfold prepare_search.
  change (INSULATION_META search_sample !! form_value search_sample "Tip-IZOLACIJE")
    with (Some {| meta_key := "PVC"; meta_theta := 70 |}).
  cbv beta iota zeta.
  assert (Hcounts : _validate_counts search_sample = (2, 1, 1, None)%Z) by (by vm_compute).
  rewrite Hcounts.
  rewrite (parse_float_decimal (form_value search_sample "Pi, W") "Pi, W" 2300 0 2300);
    [| by vm_compute | by vm_compute | simpl; lra].
  rewrite (parse_float_decimal (form_value search_sample "Kj") "Kj" 1 0 1);
    [| by vm_compute | by vm_compute | simpl; lra].
  rewrite (parse_float_decimal (form_value search_sample "η") "η" 1 0 1);
    [| by vm_compute | by vm_compute | simpl; lra].
  cbv beta iota.
  rewrite decide_False by (intros Hn; apply Hn; lra).
  rewrite (parse_float_decimal (form_value search_sample "cos φ") "cos φ" 1 0 1);
    [| by vm_compute | by vm_compute | simpl; lra].
  cbv beta iota.
  rewrite decide_False by (intros Hn; apply Hn; lra).
  rewrite (parse_float_decimal (form_value search_sample "Dužina L, m") "Dužina L, m"
             10 0 10);
    [| by vm_compute | by vm_compute | simpl; lra].
  cbv beta iota. rewrite decide_False by lra.
  change (int_of_str (form_value search_sample "U")) with (Some 230%Z).
  cbv beta iota.
  rewrite (try_parse_float_decimal (form_value search_sample "Температура, °C") 30 0 30);
    [| by vm_compute | by vm_compute | simpl; lra].
  change (_medium_selected_key search_sample) with "air".
  change (meta_key {| meta_key := "PVC"; meta_theta := 70 |}) with "PVC".
  rewrite (sample_temperature_factor [1.5; 2.5] search_form []
           : _lookup_temperature_factor search_sample "PVC" "air" 30 = _).
  rewrite bind_Return. rewrite (decide_False (P := 1 <= 0)) by lra. rewrite bind_Return.
  rewrite (lookup_group_factor_unit search_sample (effective_circuits 1 1))
    by (by vm_compute).
  rewrite bind_Return.
  rewrite phase_factor_Return, bind_Return.
  rewrite (decide_True (P := (2 = 2)%Z)) by done.
  assert (Hden : 2 * 230 * 1 ≠ 0) by lra.
  rewrite (decide_False (P := 2 * 230 * 1 = 0)) by exact Hden.
  rewrite truediv_Return by lra. rewrite bind_Return.
  rewrite truediv_Return by exact Hden. rewrite bind_Return.
  replace (2300 * 1 / 1 / (2 * 230 * 1)) with 5 by (field; lra).
  rewrite (decide_False (P := 5 <= 0)) by lra.
  rewrite (try_parse_float_decimal (form_value search_sample "k") 145 2 1.45);
    [| by vm_compute | by vm_compute | simpl; lra].
  rewrite (decide_False (P := 1.45 <= 0)) by lra.
  rewrite (sample_parse_breakers
           : parse_breakers (STANDARD_BREAKER_RATINGS search_sample) = sample_breakers).
  unfold sample_breakers at 1. cbv beta iota.
  reflexivity.
Qed.

Lemma search_sample_selects :
  ∃ iz_total drop_val fallback,
    run_search search_sample sample_inputs
    = Return (Some (1.5, "10", iz_total, drop_val), fallback).
Proof. exact sample_scan_selects. Qed.

Lemma selected_pair_confirmed_witness :
  ∃ iz_total drop_val res iz_one,
    _update_intermediate_results (apply_selection search_sample "1.5" "10") = Return res
    ∧ ir_iz_one res = Some iz_one
    ∧ iz_total = iz_one * IZR 1
    ∧ ir_delta_u res = Some drop_val
    ∧ ir_ampacity_status res = OK
    ∧ protection_status (ir_protection res) = OK
    ∧ ir_drop_status res = Some Dash
    ∧ ir_compat_display res = compat_na.
Proof.
  destruct search_sample_selects as (iz_total & drop_val & fallback & Hrun).
  exists iz_total, drop_val.
  apply (selected_pair_confirmed search_sample "1.5" "10" sample_inputs 1.5 iz_total
           drop_val fallback 1.45 search_sample_prepared Hrun).
  - apply (try_parse_float_decimal "1.5" 15 1 1.5);
      [by vm_compute | by vm_compute | simpl; lra].
  - exists 30.
    apply (try_parse_float_decimal (form_value search_sample "Температура, °C") 30 0 30);
      [by vm_compute | by vm_compute | simpl; lra].
  - apply (try_parse_float_decimal (form_value search_sample "k") 145 2 1.45);
      [by vm_compute | by vm_compute | simpl; lra].
  - lra.
Defined.
End ConfirmedSample.
